(** * ImageResizeService: a shallow embedding of [src/services/ImageResizeService.js]

    The service downloads remote images, transcodes them through sharp and
    keeps the encoded results in an in-memory NodeCache.  This development
    embeds the methods of the class as Rocq functions and proves (or refutes)
    the properties of the specification about them.

    Modelling conventions.
    - A JavaScript string is a [string]; its UTF-16 code units are the
      characters' codes, so the model covers strings whose code units are
      below 256 (URLs, folder names and colour strings are ASCII in
      practice).  The hash itself is defined on arbitrary lists of code
      units.
    - A JavaScript number that the code treats as a 32-bit integer is a [Z]
      with the wrap-around of [ToInt32] / [>>> 0] written out.
    - Exceptions and rejected promises are the [Throw] case of [Outcome].
    - The mutable parts of the process (the NodeCache instance, the clock,
      the network and the console) are a [World] threaded through a state
      and exception monad.
    - The network and the sharp codec are not code of the repository: they
      are the fields of an [Env] record, over which every theorem
      quantifies.
    - The callers of the service are embedded as well:
      [VercelBlobService.getBlobsByFolder] and [processFolderBlobs], and
      the handlers [getImage] and [getFolderImages] of imageController.
      The blob store behind [list] and the access token are the fields of
      a [BlobEnv] record. *)

From Stdlib Require Import ZArith Lia Permutation Ascii String.
From stdpp Require Import base option list strings gmap fin_maps.

Local Open Scope string_scope.
Local Open Scope Z_scope.

(** ** JavaScript primitives used by the service *)

Module Js.

(** [str.charCodeAt(i)] for every [i] in order. *)
Definition charCodes (s : string) : list Z :=
  map (fun c => Z.of_N (Ascii.N_of_ascii c)) (String.list_ascii_of_string s).

(** [ToInt32]: the conversion the bitwise operators apply to their
    operands. *)
Definition toInt32 (z : Z) : Z := (z + 2 ^ 31) mod 2 ^ 32 - 2 ^ 31.

(** [z >>> 0]: [ToUint32]. *)
Definition toUint32 (z : Z) : Z := z mod 2 ^ 32.

(** The digit characters of [Number.prototype.toString(radix)]:
    [0-9] then [a-z]. *)
Definition digitChar (d : Z) : ascii :=
  Ascii.ascii_of_N (Z.to_N (if d <? 10 then 48 + d else 87 + d)).

Fixpoint toDigits (fuel : nat) (radix n : Z) (acc : string) : string :=
  match fuel with
  | O => acc
  | S fuel' =>
      let acc' := String (digitChar (n mod radix)) acc in
      if n / radix =? 0 then acc' else toDigits fuel' radix (n / radix) acc'
  end.

(** [n.toString(radix)] for a non-negative integer [n]; the number of
    binary digits of [n] bounds the number of digits in any radix. *)
Definition natToString (radix n : Z) : string :=
  toDigits (S (Z.to_nat (Z.log2 n))) radix n "".

(** [String(n)] for an integer [n] (decimal; JavaScript switches to an
    exponent notation from 10^21 on, which no image dimension reaches). *)
Definition intToString (n : Z) : string :=
  if n <? 0 then "-" ++ natToString 10 (- n) else natToString 10 n.

(** [s.toLowerCase()] on code units below 256: [A-Z] and the Latin-1
    capitals (all of U+00C0..U+00DE but the multiplication sign). *)
Definition lowerChar (c : ascii) : ascii :=
  let n := Z.of_N (Ascii.N_of_ascii c) in
  if ((65 <=? n) && (n <=? 90)) || ((192 <=? n) && (n <=? 222) && negb (n =? 215))
  then Ascii.ascii_of_N (Z.to_N (n + 32)) else c.

Fixpoint toLowerCase (s : string) : string :=
  match s with
  | EmptyString => EmptyString
  | String c s' => String (lowerChar c) (toLowerCase s')
  end.

(** [s.lastIndexOf(c)] for a one-character needle: the index of the last
    occurrence, [-1] when there is none. *)
Fixpoint lastIndexOfFrom (c : ascii) (s : string) (i : Z) (found : Z) : Z :=
  match s with
  | EmptyString => found
  | String d s' =>
      lastIndexOfFrom c s' (i + 1) (if Ascii.eqb d c then i else found)
  end.

Definition lastIndexOf (c : ascii) (s : string) : Z :=
  lastIndexOfFrom c s 0 (-1).

(** [s.substring(start)] and [s.substring(start, end)] for
    [0 <= start <= end]. *)
Definition substringFrom (start : Z) (s : string) : string :=
  String.substring (Z.to_nat start) (String.length s) s.

Definition substring (start stop : Z) (s : string) : string :=
  String.substring (Z.to_nat start) (Z.to_nat (stop - start)) s.

(** [s.startsWith(p)]. *)
Fixpoint startsWith (p s : string) : bool :=
  match p, s with
  | EmptyString, _ => true
  | String a p', String b s' => Ascii.eqb a b && startsWith p' s'
  | String _ _, EmptyString => false
  end.

(** [s.includes(p)]: [p] occurs somewhere in [s]. *)
Fixpoint includes (p s : string) : bool :=
  startsWith p s ||
  match s with
  | EmptyString => false
  | String _ s' => includes p s'
  end.

(** [s.replace(c, '')] with a one-character string pattern: only the
    first occurrence is removed. *)
Fixpoint removeFirst (c : ascii) (s : string) : string :=
  match s with
  | EmptyString => EmptyString
  | String d s' => if Ascii.eqb d c then s' else String d (removeFirst c s')
  end.

(** The one-character string holding a double quote. *)
Definition quote : string := String (Ascii.ascii_of_N 34) EmptyString.

(** *** [parseInt(s, 16)] *)

(** White space that [parseInt] skips (code units below 256). *)
Definition isWhiteSpace (c : ascii) : bool :=
  let n := Z.of_N (Ascii.N_of_ascii c) in
  ((9 <=? n) && (n <=? 13)) || (n =? 32) || (n =? 160).

Fixpoint trimStart (s : string) : string :=
  match s with
  | String c s' => if isWhiteSpace c then trimStart s' else s
  | EmptyString => EmptyString
  end.

Definition hexDigit (c : ascii) : option Z :=
  let n := Z.of_N (Ascii.N_of_ascii c) in
  if (48 <=? n) && (n <=? 57) then Some (n - 48)
  else if (97 <=? n) && (n <=? 102) then Some (n - 87)
  else if (65 <=? n) && (n <=? 70) then Some (n - 55)
  else None.

(** The value of the longest prefix of hexadecimal digits; [None] when
    that prefix is empty. *)
Fixpoint hexPrefix (s : string) (acc : option Z) : option Z :=
  match s with
  | String c s' =>
      match hexDigit c with
      | Some d => hexPrefix s' (Some (16 * default 0 acc + d))
      | None => acc
      end
  | EmptyString => acc
  end.

(** A number as [parseInt] returns it: an integer or [NaN]. *)
Inductive Num := NaN | Int (n : Z).

Definition parseInt16 (s : string) : Num :=
  let s1 := trimStart s in
  let '(sign, s2) :=
    match s1 with
    | String "-" r => (-1, r)
    | String "+" r => (1, r)
    | _ => (1, s1)
    end in
  let s3 :=
    match s2 with
    | String "0" (String "x" r) => r
    | String "0" (String "X" r) => r
    | _ => s2
    end in
  match hexPrefix s3 None with
  | Some v => Int (sign * v)
  | None => NaN
  end.

(** [x || d] on numbers: [NaN], [0] and [-0] are falsy. *)
Definition numOr (x : Num) (d : Z) : Z :=
  match x with
  | NaN => d
  | Int n => if n =? 0 then d else n
  end.

End Js.

(** ** Pure methods of the service *)

(** A target dimension as the controllers pass it
    ([width ? parseInt(width) : null]) or as the caller left it out. *)
Inductive Dim := DimNull | DimUndefined | DimNaN | DimNum (n : Z).

(** The rendering of a dimension inside a template literal. *)
Definition dimToString (d : Dim) : string :=
  match d with
  | DimNull => "null"
  | DimUndefined => "undefined"
  | DimNaN => "NaN"
  | DimNum n => Js.intToString n
  end.

(** Truthiness of a dimension ([width || height]). *)
Definition dimTruthy (d : Dim) : bool :=
  match d with
  | DimNum n => negb (n =? 0)
  | _ => false
  end.

(** The body of the loop of [hashString]: [(hash * 33) ^ charCode]. *)
Definition hashStep (hash c : Z) : Z :=
  Z.lxor (Js.toInt32 (hash * 33)) (Js.toInt32 c).

(** The loop of [hashString] over the code units of the string. *)
Definition hashCodes (codes : list Z) : Z := fold_left hashStep codes 5381.

(** [hashString(str)]: [(hash >>> 0).toString(36)]. *)
Definition hashString (str : string) : string :=
  Js.natToString 36 (Js.toUint32 (hashCodes (Js.charCodes str))).

(** [generateCacheKey(folderName, width, height, imageUrl)]. *)
Definition generateCacheKey (folderName : string) (width height : Dim)
    (imageUrl : string) : string :=
  let urlHash := hashString imageUrl in
  "resize_" ++ folderName ++ "_" ++ dimToString width ++ "x"
    ++ dimToString height ++ "_" ++ urlHash.

Definition supportedFormats : list string :=
  ["jpg"; "jpeg"; "png"; "webp"; "gif"; "tiff"].

(** [this.supportedFormats.includes(extension)]. *)
Definition arrayIncludes (l : list string) (s : string) : bool :=
  existsb (String.eqb s) l.

(** [isSupportedFormat(url)]. *)
Definition isSupportedFormat (url : string) : bool :=
  let lastDotIndex := Js.lastIndexOf "." url in
  if lastDotIndex =? -1 then false
  else
    let extension := Js.toLowerCase (Js.substringFrom (lastDotIndex + 1) url) in
    arrayIncludes supportedFormats extension.

(** The constant [originalFormat] of [determineOutputFormat]: the lower-cased
    text after the last dot of the URL, ['jpg'] when there is no dot. *)
Definition originalFormatOf (originalUrl : string) : string :=
  let lastDotIndex := Js.lastIndexOf "." originalUrl in
  if negb (lastDotIndex =? -1)
  then Js.toLowerCase (Js.substringFrom (lastDotIndex + 1) originalUrl)
  else "jpg".

(** [determineOutputFormat(originalUrl, hasAlpha)]. *)
Definition determineOutputFormat (originalUrl : string) (hasAlpha : bool) : string :=
  let originalFormat := originalFormatOf originalUrl in
  if hasAlpha then
    (if String.eqb originalFormat "webp" then "webp" else "png")
  else
    (if String.eqb originalFormat "webp" then "webp" else "jpeg").

(** The colour object handed to sharp. *)
Record Color := mkColor { r : Z; g : Z; b : Z }.

(** [parseBackgroundColor(backgroundColor)]. *)
Definition parseBackgroundColor (backgroundColor : string) : Color :=
  let hex := Js.removeFirst "#" backgroundColor in
  let r := Js.numOr (Js.parseInt16 (Js.substring 0 2 hex)) 255 in
  let g := Js.numOr (Js.parseInt16 (Js.substring 2 4 hex)) 255 in
  let b := Js.numOr (Js.parseInt16 (Js.substring 4 6 hex)) 255 in
  {| r := r; g := g; b := b |}.

(** [getMimeTypeForFormat(format)]: the lookup in the table of MIME types,
    ['image/jpeg'] for a name that is not in it.  The table is a plain
    object, so the model covers the formats that are not names of
    [Object.prototype] ([constructor], [toString], ...); the service only
    passes [jpeg], [png] and [webp]. *)
Definition getMimeTypeForFormat (format : string) : string :=
  let f := Js.toLowerCase format in
  if String.eqb f "jpg" then "image/jpeg"
  else if String.eqb f "jpeg" then "image/jpeg"
  else if String.eqb f "png" then "image/png"
  else if String.eqb f "webp" then "image/webp"
  else if String.eqb f "gif" then "image/gif"
  else if String.eqb f "tiff" then "image/tiff"
  else "image/jpeg".

(** ** Records of the service *)

Definition Buffer := list Byte.byte.

(** One entry of a folder listing, as the blob service builds it. *)
Record SourceFile := mkSourceFile {
  fileName : string;
  fileUrl : string;
  fileSize : string;
  contentType : string;
  uploadedAt : string;
  fullPath : string }.

Record Dimensions := mkDimensions { width : Z; height : Z }.

(** What [sharp(...).metadata()] reports, as far as the service reads it. *)
Record Metadata := mkMetadata {
  mWidth : Z;
  mHeight : Z;
  mChannels : Z;
  mHasAlpha : bool;
  mFormat : string }.

(** The object a processing method returns: the spread of the file
    ([None] for the bare record [processBatches] builds for a rejected
    promise) and the fields the method adds; a field left out of the
    object literal is [None]. *)
Record ProcessedResult := mkResult {
  file : option SourceFile;
  resizedUrl : option string;
  isResized : bool;
  isCached : option bool;
  dimensions : option Dimensions;
  hasTransparencyFlag : option bool;
  outputFormat : option string;
  error : option string;
  message : option string }.

(** The value stored under a cache key. *)
Record CacheEntry := mkCacheEntry {
  dataUrl : option string;
  entryDimensions : option Dimensions;
  entryHasTransparency : option bool;
  entryOutputFormat : option string;
  timestamp : Z }.

(** The encoder call that ends a sharp pipeline, with its options. *)
Inductive Encoder :=
| EncJpeg (quality : Z) (progressive : bool) (mozjpeg : bool)
| EncPng (compressionLevel : Z) (palette : option bool) (effort : option Z)
| EncWebp (quality : Z) (effort : Z) (smartSubsample : bool).

(** A sharp pipeline as [resizeImage] assembles it before [toBuffer()]:
    the input (always opened with [limitInputPixels: false],
    [sequentialRead: true], [density: 72]), the optional
    [resize(width, height, {fit: 'inside', withoutEnlargement: true,
    kernel: lanczos3})], the optional [flatten({background})] and the
    encoder. *)
Record Pipeline := mkPipeline {
  pInput : Buffer;
  pResize : option (Dim * Dim);
  pFlatten : option Color;
  pEncoder : Encoder }.

(** What can be observed of a run from outside the process. *)
Inductive Event :=
| EvDownload (url : string)
| EvSleep (ms : Z)
| EvConsoleError (text : string).

(** The result of a call: a returned value or a raised error (its
    [message]). *)
Inductive Outcome (A : Type) :=
| Ok (a : A)
| Throw (msg : string).
Arguments Ok {A} a.
Arguments Throw {A} msg.

(** The constructor's options that the modelled methods read. *)
Record Options := mkOptions { optBatchSize : option nat }.

(** [this.batchSize = options.batchSize || 10]. *)
Definition batchSizeOf (o : Options) : nat :=
  match optBatchSize o with
  | Some (S n) => S n
  | _ => 10%nat
  end.

(** The collaborators outside the repository.
    - [net url k] is what the [k]-th request (counted from 0) for [url]
      yields: the body, or the error of [downloadImage] ([HTTP <status>],
      [Timeout], [File too large], a socket error).
    - [sharpMetadata] and [sharpToBuffer] are the codec.
    - [base64] is [Buffer.prototype.toString('base64')]. *)
Record Env := mkEnv {
  options : Options;
  net : string -> nat -> Outcome Buffer;
  sharpMetadata : Buffer -> Outcome Metadata;
  sharpToBuffer : Pipeline -> Outcome Buffer;
  base64 : Buffer -> string }.

(** The mutable state of the process: the data of the NodeCache instance
    (each value with the time [t] at which it expires), the clock in
    milliseconds and the events so far, most recent first.  The clock
    advances at timers; the time spent in the network and in the codec is
    not modelled, so the clock of a result is a lower bound.  The time
    between a lookup in the cache and the read that follows it is modelled
    apart, by the versions of the lookups that carry a lag. *)
Record World := mkWorld {
  cache : gmap string (CacheEntry * Z);
  now : Z;
  log : list Event }.

Definition M (A : Type) : Type := World -> Outcome A * World.

Definition ret {A} (a : A) : M A := fun w => (Ok a, w).

Definition throw {A} (msg : string) : M A := fun w => (Throw msg, w).

Definition bind {A B} (m : M A) (k : A -> M B) : M B :=
  fun w =>
    match m w with
    | (Ok a, w') => k a w'
    | (Throw e, w') => (Throw e, w')
    end.

(** [try { m } catch (error) { h(error.message) }]. *)
Definition tryCatch {A} (m : M A) (h : string -> M A) : M A :=
  fun w =>
    match m w with
    | (Ok a, w') => (Ok a, w')
    | (Throw e, w') => h e w'
    end.

(** [await] of a promise that touches no state of the process. *)
Definition lift {A} (o : Outcome A) : M A := fun w => (o, w).

Declare Scope js_scope.
Delimit Scope js_scope with js.
Notation "x <- m ;; k" := (bind m (fun x => k))
  (at level 100, m at next level, right associativity) : js_scope.
Notation "m ;;; k" := (bind m (fun _ => k))
  (at level 100, right associativity) : js_scope.
Local Open Scope js_scope.

(** ** The NodeCache instance

    node-cache is a dependency, not code of the repository: the instance
    is modelled from its documented behaviour and §4.1 of the
    specification.  It is built with [stdTTL: 3600] (seconds) and
    [useClones: false]; [set] stamps the entry with its expiry time, and
    [has] and [get] treat an expired entry as absent and drop it.  The
    periodic sweep only removes entries that lookups already ignore, and
    the clock is Unix time, so no stamp is the [0] that node-cache reads
    as an entry without expiry. *)

Module NodeCache.

Definition stdTTL : Z := 3600.

Definition expired (w : World) (t : Z) : bool := t <? now w.

Definition has (key : string) : M bool :=
  fun w =>
    match cache w !! key with
    | Some (_, t) =>
        if expired w t
        then (Ok false, mkWorld (delete key (cache w)) (now w) (log w))
        else (Ok true, w)
    | None => (Ok false, w)
    end.

Definition get (key : string) : M (option CacheEntry) :=
  fun w =>
    match cache w !! key with
    | Some (v, t) =>
        if expired w t
        then (Ok None, mkWorld (delete key (cache w)) (now w) (log w))
        else (Ok (Some v), w)
    | None => (Ok None, w)
    end.

Definition set (key : string) (v : CacheEntry) : M unit :=
  fun w =>
    (Ok tt, mkWorld (<[key := (v, now w + stdTTL * 1000)]> (cache w)) (now w) (log w)).

Definition del (key : string) : M unit :=
  fun w => (Ok tt, mkWorld (delete key (cache w)) (now w) (log w)).

Definition keys : M (list string) :=
  fun w => (Ok (map fst (map_to_list (cache w))), w).

End NodeCache.

(** ** Effects of the process *)

(** [Date.now()]. *)
Definition dateNow : M Z := fun w => (Ok (now w), w).

(** [await new Promise(resolve => setTimeout(resolve, ms))]. *)
Definition sleep (ms : Z) : M unit :=
  fun w => (Ok tt, mkWorld (cache w) (now w + ms) (EvSleep ms :: log w)).

Definition consoleError (text : string) : M unit :=
  fun w => (Ok tt, mkWorld (cache w) (now w) (EvConsoleError text :: log w)).

Definition isDownloadOf (url : string) (e : Event) : bool :=
  match e with
  | EvDownload u => String.eqb u url
  | _ => false
  end.

(** How many requests for [url] the process has made. *)
Definition downloadsOf (url : string) (l : list Event) : nat :=
  length (List.filter (isDownloadOf url) l).

(** ** Asynchronous methods of the service *)

Section Service.

Variable env : Env.

(** [downloadImage(url)]: one request; the size ceiling, the timeout and
    the status check all surface as the error of the request. *)
Definition downloadImage (url : string) : M Buffer :=
  fun w =>
    (net env url (downloadsOf url (log w)),
     mkWorld (cache w) (now w) (EvDownload url :: log w)).

(** [hasTransparency(imageBuffer)]. *)
Definition hasTransparency (imageBuffer : Buffer) : Outcome bool :=
  match sharpMetadata env imageBuffer with
  | Ok metadata =>
      Ok ((mChannels metadata =? 4) || mHasAlpha metadata
          || String.eqb (mFormat metadata) "gif")
  | Throw _ => Ok false
  end.

(** [resizeImage(imageBuffer, width, height, format, hasAlpha,
    backgroundColor = '#ffffff')]. *)
Definition resizeImage (imageBuffer : Buffer) (width height : Dim)
    (format : string) (hasAlpha : bool) (backgroundColor : option string)
    : Outcome Buffer :=
  let backgroundColor := default "#ffffff" backgroundColor in
  let resize :=
    if dimTruthy width || dimTruthy height then Some (width, height) else None in
  let bgColor := parseBackgroundColor backgroundColor in
  let f := Js.toLowerCase format in
  let pipeline :=
    if String.eqb f "jpeg" || String.eqb f "jpg" then
      mkPipeline imageBuffer resize (if hasAlpha then Some bgColor else None)
        (EncJpeg 85 true true)
    else if String.eqb f "png" then
      mkPipeline imageBuffer resize None
        (EncPng 6 (Some (if hasAlpha then false else true)) (Some 7))
    else if String.eqb f "webp" then
      mkPipeline imageBuffer resize None (EncWebp 85 4 true)
    else if hasAlpha then
      mkPipeline imageBuffer resize None (EncPng 6 None None)
    else
      mkPipeline imageBuffer resize None (EncJpeg 85 true false) in
  match sharpToBuffer env pipeline with
  | Ok resized => Ok resized
  | Throw msg => Throw ("Resize failed: " ++ msg)
  end.

(** The three shapes of result that [processSingleImage] builds. *)
Definition unsupportedResult (f : SourceFile) : ProcessedResult :=
  mkResult (Some f) None false None None None None None (Some "Unsupported format").

Definition failedResult (f : SourceFile) (msg : string) : ProcessedResult :=
  mkResult (Some f) None false None None None None (Some msg) None.

Definition resizedResult (f : SourceFile) (url : string) (d : Dimensions)
    (hasAlpha : bool) (format : string) : ProcessedResult :=
  mkResult (Some f) (Some url) true (Some false) (Some d) (Some hasAlpha)
    (Some format) None None.

(** [processSingleImage(file, folderName, width, height, backgroundColor)]. *)
Definition processSingleImage (f : SourceFile) (folderName : string)
    (width height : Dim) (backgroundColor : option string) : M ProcessedResult :=
  if negb (isSupportedFormat (fileUrl f)) then ret (unsupportedResult f)
  else
    tryCatch
      (imageBuffer <- downloadImage (fileUrl f) ;;
       hasAlpha <- lift (hasTransparency imageBuffer) ;;
       let outputFormat := determineOutputFormat (fileUrl f) hasAlpha in
       resizedBuffer <- lift (resizeImage imageBuffer width height outputFormat
                                hasAlpha backgroundColor) ;;
       metadata <- lift (sharpMetadata env resizedBuffer) ;;
       ret (resizedResult f
              ("data:" ++ getMimeTypeForFormat outputFormat ++ ";base64,"
                 ++ base64 env resizedBuffer)
              (mkDimensions (mWidth metadata) (mHeight metadata))
              hasAlpha outputFormat))
      (fun msg => ret (failedResult f msg)).

(** The loop of [processSingleImageWithRetry] around the call [attempted]
    that its [try] block awaits: [remaining] is [retries - attempt], so
    [attempt === retries] is [remaining = 0]. *)
Fixpoint retryLoop (attempted : M ProcessedResult) (remaining : nat)
    (attempt : Z) (retries : Z) (f : SourceFile) : M ProcessedResult :=
  tryCatch attempted
    (fun msg =>
       match remaining with
       | O =>
           consoleError ("Failed to process " ++ fileName f ++ " after "
                           ++ Js.intToString (retries + 1) ++ " attempts: " ++ msg) ;;;
           ret (failedResult f msg)
       | S remaining' =>
           sleep (2 ^ attempt * 1000) ;;;
           retryLoop attempted remaining' (attempt + 1) retries f
       end).

(** [processSingleImageWithRetry(file, folderName, width, height,
    backgroundColor, retries = 2)]. *)
Definition processSingleImageWithRetry (f : SourceFile) (folderName : string)
    (width height : Dim) (backgroundColor : option string) (retries : nat)
    : M ProcessedResult :=
  retryLoop (processSingleImage f folderName width height backgroundColor)
    retries 0 (Z.of_nat retries) f.

(** [await Promise.allSettled(promises)]: every promise runs to its
    outcome and none stops another.  The promises of one batch are run one
    after the other, in the order of the batch: they share no state but
    the log, and [allSettled] reports them in that order. *)
Fixpoint allSettled {A} (ms : list (M A)) (w : World) : list (Outcome A) * World :=
  match ms with
  | [] => ([], w)
  | m :: ms' =>
      let (o, w1) := m w in
      let (os, w2) := allSettled ms' w1 in
      (o :: os, w2)
  end.

(** The record pushed for one settled promise of a batch. *)
Definition settledResult (o : Outcome ProcessedResult) : ProcessedResult :=
  match o with
  | Ok v => v
  | Throw reason =>
      mkResult None None false None None None None
        (Some (if String.eqb reason "" then "Processing failed" else reason)) None
  end.

Definition settledLog (o : Outcome ProcessedResult) : list Event :=
  match o with
  | Ok _ => []
  | Throw reason => [EvConsoleError ("Batch processing error: " ++ reason)]
  end.

(** [files.slice(i, j)]. *)
Definition slice {A} (i j : nat) (l : list A) : list A := take (j - i) (drop i l).

(** The loop of [processBatches] from index [i] on, [results] being the
    array built so far. *)
Fixpoint batchLoop (fuel : nat) (i : nat) (files : list SourceFile)
    (folderName : string) (width height : Dim) (backgroundColor : option string)
    (results : list ProcessedResult) : M (list ProcessedResult) :=
  match fuel with
  | O => throw "batchLoop: out of fuel"
  | S fuel' =>
      if (i <? length files)%nat then
        let batch := slice i (i + batchSizeOf (options env)) files in
        let batchPromises :=
          map (fun f => processSingleImageWithRetry f folderName width height
                          backgroundColor 2) batch in
        fun w =>
          let (batchResults, w1) := allSettled batchPromises w in
          let w2 :=
            mkWorld (cache w1) (now w1)
              (rev (concat (map settledLog batchResults)) ++ log w1)%list in
          let results' := (results ++ map settledResult batchResults)%list in
          ((if (i + batchSizeOf (options env) <? length files)%nat
            then sleep 10 else ret tt) ;;;
           batchLoop fuel' (i + batchSizeOf (options env)) files folderName width
             height backgroundColor results') w2
      else ret results
  end.

(** [processBatches(files, folderName, width, height, backgroundColor)]. *)
Definition processBatches (files : list SourceFile) (folderName : string)
    (width height : Dim) (backgroundColor : option string)
    : M (list ProcessedResult) :=
  batchLoop (S (length files)) 0 files folderName width height backgroundColor [].

(** The record served from a cache entry. *)
Definition cachedResult (f : SourceFile) (cachedData : CacheEntry) : ProcessedResult :=
  mkResult (Some f) (dataUrl cachedData) true (Some true)
    (entryDimensions cachedData) (entryHasTransparency cachedData)
    (entryOutputFormat cachedData) None None.

(** [cachedData.dataUrl] on what [this.cache.get] returned: reading a
    property of [undefined] raises a [TypeError]. *)
Definition readCached (f : SourceFile) (cachedData : option CacheEntry)
    : M ProcessedResult :=
  match cachedData with
  | Some c => ret (cachedResult f c)
  | None => throw "Cannot read properties of undefined (reading 'dataUrl')"
  end.

(** [!purgeCache && this.cache.has(cacheKey)]. *)
Definition cacheUsable (purgeCache : bool) (cacheKey : string) : M bool :=
  if negb purgeCache then NodeCache.has cacheKey else ret false.

(** The first loop of [processFolderImages]: the cache hits and the files
    left to process, each in the order of [files]. *)
Fixpoint firstPass (files : list SourceFile) (folderName : string)
    (width height : Dim) (purgeCache : bool)
    : M (list ProcessedResult * list SourceFile) :=
  match files with
  | [] => ret ([], [])
  | f :: files' =>
      let cacheKey := generateCacheKey folderName width height (fileUrl f) in
      hit <- cacheUsable purgeCache cacheKey ;;
      if hit : bool then
        cachedData <- NodeCache.get cacheKey ;;
        x <- readCached f cachedData ;;
        rest <- firstPass files' folderName width height purgeCache ;;
        ret (x :: fst rest, snd rest)
      else
        rest <- firstPass files' folderName width height purgeCache ;;
        ret (fst rest, f :: snd rest)
  end.

(** Truthiness of [result.resizedUrl]. *)
Definition urlTruthy (u : option string) : bool :=
  match u with
  | Some s => negb (String.eqb s "")
  | None => false
  end.

(** [result.fileUrl]: [undefined] when the result carries no file. *)
Definition resultUrl (x : ProcessedResult) : option string := fileUrl <$> file x.

(** The object written to the cache for a result. *)
Definition entryOf (x : ProcessedResult) (t : Z) : CacheEntry :=
  mkCacheEntry (resizedUrl x) (dimensions x) (hasTransparencyFlag x)
    (outputFormat x) t.

(** The second loop of [processFolderImages]: cache every successful
    result. *)
Fixpoint cacheResults (results : list ProcessedResult) (folderName : string)
    (width height : Dim) : M unit :=
  match results with
  | [] => ret tt
  | x :: results' =>
      (if isResized x && urlTruthy (resizedUrl x) then
         match resultUrl x with
         | Some url =>
             let cacheKey := generateCacheKey folderName width height url in
             t <- dateNow ;;
             NodeCache.set cacheKey (entryOf x t)
         | None => throw "Cannot read properties of undefined (reading 'length')"
         end
       else ret tt) ;;;
      cacheResults results' folderName width height
  end.

(** [processFolderImages(files, folderName, width, height,
    purgeCache = false, backgroundColor = '#ffffff')]. *)
Definition processFolderImages (files : list SourceFile) (folderName : string)
    (width height : Dim) (purgeCache : bool) (backgroundColor : option string)
    : M (list ProcessedResult) :=
  let backgroundColor := Some (default "#ffffff" backgroundColor) in
  split <- firstPass files folderName width height purgeCache ;;
  let processedFiles := fst split in
  let toProcess := snd split in
  if (length toProcess =? 0)%nat then ret processedFiles
  else
    results <- processBatches toProcess folderName width height backgroundColor ;;
    cacheResults results folderName width height ;;;
    ret (processedFiles ++ results)%list.

(** [files.find(file => file.fileName === imageName)]. *)
Definition findByName (imageName : string) (files : list SourceFile)
    : option SourceFile :=
  List.find (fun f => String.eqb (fileName f) imageName) files.

(** [processSingleImageByName(folderName, imageName, files, width, height,
    purgeCache = false)]. *)
Definition processSingleImageByName (folderName imageName : string)
    (files : list SourceFile) (width height : Dim) (purgeCache : bool)
    : M ProcessedResult :=
  match findByName imageName files with
  | None =>
      throw ("Image " ++ Js.quote ++ imageName ++ Js.quote ++ " not found in folder "
               ++ Js.quote ++ folderName ++ Js.quote)
  | Some targetFile =>
      let cacheKey := generateCacheKey folderName width height (fileUrl targetFile) in
      hit <- cacheUsable purgeCache cacheKey ;;
      if hit : bool then
        cachedData <- NodeCache.get cacheKey ;;
        readCached targetFile cachedData
      else
        x <- processSingleImage targetFile folderName width height None ;;
        (if isResized x && urlTruthy (resizedUrl x) then
           t <- dateNow ;;
           NodeCache.set cacheKey (entryOf x t)
         else ret tt) ;;;
        ret x
  end.

(** [clearFolderCache(folderName)]. *)
Definition clearFolderCache (folderName : string) : M unit :=
  keys <- NodeCache.keys ;;
  let folderKeys :=
    List.filter (fun key => Js.includes ("resize_" ++ folderName ++ "_") key) keys in
  fold_right (fun key rest => NodeCache.del key ;;; rest) (ret tt) folderKeys.

End Service.

(** ** The clock between a lookup and the read that follows

    [this.cache.has(key)] and [this.cache.get(key)] each compare the
    expiry time of the entry with [Date.now()].  In [firstPass] and
    [processSingleImageByName] above, the two calls made for a file read
    the same millisecond.  The versions below let [lag f] milliseconds
    pass between the two calls made for the file [f]; they are the methods
    above when [lag f] is [0]. *)

(** The clock moves on by [ms] milliseconds. *)
Definition elapse (ms : Z) : M unit :=
  fun w => (Ok tt, mkWorld (cache w) (now w + ms) (log w)).

(** The first loop of [processFolderImages], with the lag between
    [this.cache.has(cacheKey)] and [this.cache.get(cacheKey)]. *)
Fixpoint firstPassLag (lag : SourceFile -> Z) (files : list SourceFile)
    (folderName : string) (width height : Dim) (purgeCache : bool)
    : M (list ProcessedResult * list SourceFile) :=
  match files with
  | [] => ret ([], [])
  | f :: files' =>
      let cacheKey := generateCacheKey folderName width height (fileUrl f) in
      hit <- cacheUsable purgeCache cacheKey ;;
      if hit : bool then
        elapse (lag f) ;;;
        cachedData <- NodeCache.get cacheKey ;;
        x <- readCached f cachedData ;;
        rest <- firstPassLag lag files' folderName width height purgeCache ;;
        ret (x :: fst rest, snd rest)
      else
        rest <- firstPassLag lag files' folderName width height purgeCache ;;
        ret (fst rest, f :: snd rest)
  end.

(** [processFolderImages(files, folderName, width, height,
    purgeCache = false, backgroundColor = '#ffffff')] with that lag. *)
Definition processFolderImagesLag (lag : SourceFile -> Z) (env : Env)
    (files : list SourceFile) (folderName : string) (width height : Dim)
    (purgeCache : bool) (backgroundColor : option string)
    : M (list ProcessedResult) :=
  let backgroundColor := Some (default "#ffffff" backgroundColor) in
  split <- firstPassLag lag files folderName width height purgeCache ;;
  let processedFiles := fst split in
  let toProcess := snd split in
  if (length toProcess =? 0)%nat then ret processedFiles
  else
    results <- processBatches env toProcess folderName width height backgroundColor ;;
    cacheResults results folderName width height ;;;
    ret (processedFiles ++ results)%list.

(** [processSingleImageByName(folderName, imageName, files, width, height,
    purgeCache = false)] with that lag. *)
Definition processSingleImageByNameLag (lag : SourceFile -> Z) (env : Env)
    (folderName imageName : string) (files : list SourceFile)
    (width height : Dim) (purgeCache : bool) : M ProcessedResult :=
  match findByName imageName files with
  | None =>
      throw ("Image " ++ Js.quote ++ imageName ++ Js.quote ++ " not found in folder "
               ++ Js.quote ++ folderName ++ Js.quote)
  | Some targetFile =>
      let cacheKey := generateCacheKey folderName width height (fileUrl targetFile) in
      hit <- cacheUsable purgeCache cacheKey ;;
      if hit : bool then
        elapse (lag targetFile) ;;;
        cachedData <- NodeCache.get cacheKey ;;
        readCached targetFile cachedData
      else
        x <- processSingleImage env targetFile folderName width height None ;;
        (if isResized x && urlTruthy (resizedUrl x) then
           t <- dateNow ;;
           NodeCache.set cacheKey (entryOf x t)
         else ret tt) ;;;
        ret x
  end.



(** The pipeline that [resizeImage] hands to sharp's [toBuffer()]. *)
Definition resizePipeline (imageBuffer : Buffer) (width height : Dim)
    (format : string) (hasAlpha : bool) (backgroundColor : option string)
    : Pipeline :=
  let backgroundColor := default "#ffffff" backgroundColor in
  let resize :=
    if dimTruthy width || dimTruthy height then Some (width, height) else None in
  let bgColor := parseBackgroundColor backgroundColor in
  let f := Js.toLowerCase format in
  if String.eqb f "jpeg" || String.eqb f "jpg" then
    mkPipeline imageBuffer resize (if hasAlpha then Some bgColor else None)
      (EncJpeg 85 true true)
  else if String.eqb f "png" then
    mkPipeline imageBuffer resize None
      (EncPng 6 (Some (if hasAlpha then false else true)) (Some 7))
  else if String.eqb f "webp" then
    mkPipeline imageBuffer resize None (EncWebp 85 4 true)
  else if hasAlpha then
    mkPipeline imageBuffer resize None (EncPng 6 None None)
  else
    mkPipeline imageBuffer resize None (EncJpeg 85 true false).

(** ** A concrete environment

    A network that serves every URL but those under [https://down/], whose
    requests all fail with [HTTP 500], and those under [https://flaky/],
    which are served once and fail with [HTTP 503] from then on, and a codec that reads the
    dimensions of an image off its bytes: enough to run the service on
    concrete inputs. *)

Module Demo.

Definition bytesOf (s : string) : Buffer :=
  String.list_byte_of_string s.

Definition bytesSum (buf : Buffer) : Z :=
  fold_right (fun x acc => Z.of_N (Byte.to_N x) + acc) 0 buf.

Definition demoNet (url : string) (k : nat) : Outcome Buffer :=
  if Js.startsWith "https://down/" url then Throw "HTTP 500"
  else if Js.startsWith "https://flaky/" url && negb (k =? 0)%nat
  then Throw "HTTP 503"
  else Ok (bytesOf url).

Definition demoMetadata (buf : Buffer) : Outcome Metadata :=
  match buf with
  | [] => Throw "Input Buffer is empty"
  | _ => Ok (mkMetadata (bytesSum buf) (Z.of_nat (length buf)) 3 false "png")
  end.

Definition demoEnv : Env :=
  mkEnv (mkOptions None) demoNet demoMetadata (fun p => Ok (pInput p))
    (fun _ => "AAAA").

Definition demoFile (name url : string) : SourceFile :=
  mkSourceFile name url "1 KB" "image/png" "2024-01-01" ("demo/" ++ name).

Definition world0 : World := mkWorld ∅ 1000 [].

Definition fileA : SourceFile := demoFile "a.png" "https://x/a.png".
Definition fileB : SourceFile := demoFile "b.jpg" "https://x/b.jpg".
Definition fileDown : SourceFile := demoFile "d.png" "https://down/d.png".

(** Two files whose URLs have the same [hashString]. *)
Definition fileA2 : SourceFile := demoFile "a2.png" "https://x/a2.png".
Definition fileCP : SourceFile := demoFile "cp.png" "https://x/cp.png".

Definition entry0 : CacheEntry :=
  mkCacheEntry (Some "data:image/jpeg;base64,AAAA") (Some (mkDimensions 1 1))
    (Some false) (Some "jpeg") 1000.

(** A cache that holds one image of the folder [2024_summer]. *)
Definition worldSummer : World :=
  mkWorld
    {[ generateCacheKey "2024_summer" (DimNum 100) DimNull "https://x/a.png"
       := (entry0, 3601000) ]}
    1000 [].

(** The fields of the results of a call that the cache contract is
    about. *)
Definition summary (o : Outcome (list ProcessedResult))
    : list (option string * bool * option bool * option Dimensions * option string) :=
  match o with
  | Ok l =>
      map (fun x => (fileName <$> file x, isResized x, isCached x,
                     dimensions x, outputFormat x)) l
  | Throw _ => []
  end.

(** A whole-folder request for width 100 in the folder [demo]. *)
Definition request (files : list SourceFile) (purgeCache : bool) (w : World)
    : Outcome (list ProcessedResult) * World :=
  processFolderImages demoEnv files "demo" (DimNum 100) DimNull purgeCache None w.

(** The records the pipeline returns for [fileA] and [fileB]. *)
Definition resultA : ProcessedResult :=
  resizedResult fileA "data:image/jpeg;base64,AAAA" (mkDimensions 1350 15)
    false "jpeg".

Definition resultB : ProcessedResult :=
  resizedResult fileB "data:image/jpeg;base64,AAAA" (mkDimensions 1347 15)
    false "jpeg".

(** The world after the first request for [fileA] and [fileB]. *)
Definition world1 : World := snd (request [fileA; fileB] false world0).




End Demo.

(** ** Auxiliary definitions for the proofs *)

(** The world after the events [evs] (most recent first). *)
Definition extend (evs : list Event) (w : World) : World :=
  mkWorld (cache w) (now w) (evs ++ log w)%list.

(** The requests that processing one file makes. *)
Definition downloadEvents (f : SourceFile) : list Event :=
  if isSupportedFormat (fileUrl f) then [EvDownload (fileUrl f)] else [].

(** The body of the [try] block of [processSingleImage] when the request
    it makes is the [k]-th for the URL. *)
Definition pipelineOutcome (env : Env) (f : SourceFile) (width height : Dim)
    (backgroundColor : option string) (k : nat) : Outcome ProcessedResult :=
  match net env (fileUrl f) k with
  | Throw e => Throw e
  | Ok imageBuffer =>
      match hasTransparency env imageBuffer with
      | Throw e => Throw e
      | Ok hasAlpha =>
          let outputFormat := determineOutputFormat (fileUrl f) hasAlpha in
          match resizeImage env imageBuffer width height outputFormat hasAlpha
                  backgroundColor with
          | Throw e => Throw e
          | Ok resizedBuffer =>
              match sharpMetadata env resizedBuffer with
              | Throw e => Throw e
              | Ok metadata =>
                  Ok (resizedResult f
                        ("data:" ++ getMimeTypeForFormat outputFormat ++ ";base64,"
                           ++ base64 env resizedBuffer)
                        (mkDimensions (mWidth metadata) (mHeight metadata))
                        hasAlpha outputFormat)
              end
          end
      end
  end.

(** The record [processSingleImage] returns for a file when the request it
    makes, if any, is the [k]-th for the URL. *)
Definition singleResult (env : Env) (f : SourceFile) (width height : Dim)
    (backgroundColor : option string) (k : nat) : ProcessedResult :=
  if negb (isSupportedFormat (fileUrl f)) then unsupportedResult f
  else
    match pipelineOutcome env f width height backgroundColor k with
    | Ok x => x
    | Throw msg => failedResult f msg
    end.

(** The records that processing the file [f] ends in: a success; the
    failure of the pipeline reported as data, [{isResized: false, error}];
    and, for a file whose format is not supported, a record with a
    [message] and no [error]. *)
Definition recordOf (f : SourceFile) (x : ProcessedResult) : Prop :=
  (isResized x = true /\ file x = Some f) \/
  (exists msg, isSupportedFormat (fileUrl f) = true /\ x = failedResult f msg) \/
  (isSupportedFormat (fileUrl f) = false /\ x = unsupportedResult f).

(** The cache key of a result, when it carries a file. *)
Definition resultKey (folderName : string) (width height : Dim)
    (x : ProcessedResult) : option string :=
  generateCacheKey folderName width height <$> resultUrl x.

(** An event that processing the files [fs] may leave in the log. *)
Definition eventOf (fs : list SourceFile) (e : Event) : Prop :=
  (exists ms, e = EvSleep ms) \/
  (exists f, In f fs /\ isSupportedFormat (fileUrl f) = true
             /\ e = EvDownload (fileUrl f)).

(** The requests of one batch, most recent first. *)
Definition batchEvents (batch : list SourceFile) : list Event :=
  concat (map downloadEvents (rev batch)).

(** [x] is what the pipeline returns for [f] at some request count. *)
Definition producedBy (env : Env) (width height : Dim)
    (backgroundColor : option string) (f : SourceFile) (x : ProcessedResult)
    : Prop :=
  exists k, x = singleResult env f width height backgroundColor k.

(** A result is stored in the cache when it is a success with a file. *)
Definition cacheable (x : ProcessedResult) : bool :=
  isResized x && urlTruthy (resizedUrl x).

(** The cache after the second loop of [processFolderImages] at time [t]. *)
Fixpoint storeAll (results : list ProcessedResult) (folderName : string)
    (width height : Dim) (t : Z) (c : gmap string (CacheEntry * Z))
    : gmap string (CacheEntry * Z) :=
  match results with
  | [] => c
  | x :: results' =>
      storeAll results' folderName width height t
        (if cacheable x then
           match resultUrl x with
           | Some url =>
               <[generateCacheKey folderName width height url :=
                   (entryOf x t, t + NodeCache.stdTTL * 1000)]> c
           | None => c
           end
         else c)
  end.

(** The entry under [key] can still be read at the time of [w]. *)
Definition live (w : World) (key : string) (e : CacheEntry) : Prop :=
  exists t, cache w !! key = Some (e, t) /\ now w <= t.

(** [w'] is [w] after lookups: same clock and log, the entries that can
    still be read are kept and nothing is added. *)
Definition sameLive (w w' : World) : Prop :=
  now w' = now w /\ log w' = log w /\
  (forall k v t, cache w !! k = Some (v, t) -> now w <= t ->
                 cache w' !! k = Some (v, t)) /\
  (forall k v, cache w' !! k = Some v -> cache w !! k = Some v).

(** What the first loop of [processFolderImages] guarantees of the hits,
    the misses and the world [w1] it leaves, from the world [w]. *)
Definition splitPost (folderName : string) (width height : Dim)
    (purgeCache : bool) (files : list SourceFile) (w : World)
    (hits : list ProcessedResult) (misses : list SourceFile) (w1 : World)
    : Prop :=
  sameLive w w1 /\
  Permutation (map file hits ++ map Some misses) (map Some files) /\
  (forall x, In x hits ->
     exists f e, In f files /\ purgeCache = false /\
       live w (generateCacheKey folderName width height (fileUrl f)) e /\
       x = cachedResult f e) /\
  (forall f, In f misses ->
     In f files /\
     (purgeCache = true \/
      forall e, ~ live w (generateCacheKey folderName width height (fileUrl f)) e)) /\
  (forall f e, In f files -> purgeCache = false ->
     live w (generateCacheKey folderName width height (fileUrl f)) e ->
     In (cachedResult f e) hits) /\
  (purgeCache = true -> w1 = w /\ hits = [] /\ misses = files).

(** [c] occurs in [s]. *)
Fixpoint hasChar (c : ascii) (s : string) : bool :=
  match s with
  | EmptyString => false
  | String d s' => Ascii.eqb d c || hasChar c s'
  end.

(** The value of a digit character, and of a numeral read from the left
    with [acc] the value read so far: the inverse of [Js.toDigits]. *)
Definition digitValue (c : ascii) : Z :=
  let n := Z.of_N (Ascii.N_of_ascii c) in
  if n <? 58 then n - 48 else n - 87.

Fixpoint decodeDigits (radix : Z) (s : string) (acc : Z) : Z :=
  match s with
  | EmptyString => acc
  | String c s' => decodeDigits radix s' (acc * radix + digitValue c)
  end.

(** The 32-bit value whose base-36 numeral [hashString] returns. *)
Definition hash32 (str : string) : Z :=
  Js.toUint32 (hashCodes (Js.charCodes str)).

(** The events, oldest first, of a retry loop whose every attempt leaves
    the event [ev] and fails: the attempts with the waits between them. *)
Fixpoint retryTrace (ev : Event) (remaining : nat) (attempt : Z) : list Event :=
  ev ::
  match remaining with
  | O => []
  | S remaining' =>
      EvSleep (2 ^ attempt * 1000) :: retryTrace ev remaining' (attempt + 1)
  end.

(** [generateCacheKey] of the serverless handler [api/images/[folderName].js],
    which keys the same cache entries by the URL itself. *)
Definition handlerCacheKey (folderName : string) (width height : Dim)
    (fileUrl : string) : string :=
  folderName ++ "_" ++ dimToString width ++ "x" ++ dimToString height
    ++ "_" ++ fileUrl.

(** ** The remaining cache methods of the service *)

(** [this.cache.flushAll()]: the instance forgets every entry. *)
Definition flushAll : M unit :=
  fun w => (Ok tt, mkWorld ∅ (now w) (log w)).

(** [clearAllCache()]. *)
Definition clearAllCache : M unit := flushAll.

(** [cleanup()]: the agents are destroyed and the cache is flushed; only
    the cache is state of the model. *)
Definition cleanup : M unit := flushAll.

(** ** Further auxiliary definitions *)

(** The entry under [key] that a lookup at the time of [w] returns. *)
Definition liveEntry (w : World) (key : string) : option CacheEntry :=
  match cache w !! key with
  | Some (v, t) => if NodeCache.expired w t then None else Some v
  | None => None
  end.

(** The first loop of [processFolderImages] as a function of the world it
    starts in: the records served from the cache and the files left to
    process, each in the order of the listing; with purge, nothing is
    served and every file is left. *)
Definition servedFromCache (folderName : string) (width height : Dim)
    (purgeCache : bool) (w : World) (files : list SourceFile)
    : list ProcessedResult :=
  if purgeCache then []
  else
    omap (fun f =>
            cachedResult f
              <$> liveEntry w (generateCacheKey folderName width height (fileUrl f)))
      files.

Definition leftToProcess (folderName : string) (width height : Dim)
    (purgeCache : bool) (w : World) (files : list SourceFile)
    : list SourceFile :=
  if purgeCache then files
  else
    List.filter
      (fun f =>
         match liveEntry w (generateCacheKey folderName width height (fileUrl f)) with
         | Some _ => false
         | None => true
         end) files.

(** The events of the loop of [processBatches] over the files [rest] still
    to process, most recent first: the requests of each batch and the
    pause after every batch but the last. *)
Fixpoint chunkTrace (fuel : nat) (batchSize : nat) (rest : list SourceFile)
    : list Event :=
  match fuel with
  | O => []
  | S fuel' =>
      match rest with
      | [] => []
      | _ :: _ =>
          chunkTrace fuel' batchSize (drop batchSize rest)
            ++ (if (batchSize <? length rest)%nat then [EvSleep 10] else [])
            ++ batchEvents (take batchSize rest)
      end
  end.

Definition isSleep (e : Event) : bool :=
  match e with
  | EvSleep _ => true
  | _ => false
  end.

Definition isDownload (e : Event) : bool :=
  match e with
  | EvDownload _ => true
  | _ => false
  end.

(** The URLs of the files of a supported format, in order. *)
Definition supportedUrls (files : list SourceFile) : list string :=
  map fileUrl (List.filter (fun f => isSupportedFormat (fileUrl f)) files).

(** Two lower-case hexadecimal digits for a channel value below 256. *)
Definition hex2 (n : Z) : string :=
  String (Js.digitChar (n / 16)) (String (Js.digitChar (n mod 16)) EmptyString).

(** ** More concrete inputs *)

Module Cases.

Definition fileBmp : SourceFile :=
  Demo.demoFile "logo.bmp" "https://x/logo.bmp".

Definition fileGif : SourceFile :=
  Demo.demoFile "anim.gif" "https://x/anim.gif".

(** A cache whose entry for [a.png] in the folder [demo] at width 100
    expires at the very millisecond the clock shows, and one in which it
    has an hour to live. *)
Definition worldExpiring : World :=
  mkWorld
    {[ generateCacheKey "demo" (DimNum 100) DimNull "https://x/a.png"
       := (Demo.entry0, 1000) ]}
    1000 [].


(** Surroundings in which every download yields bytes that sharp cannot
    read. *)
Definition corruptEnv : Env :=
  mkEnv (mkOptions None) (fun _ _ => Ok (Demo.bytesOf "not an image"))
    (fun _ => Throw "Input buffer contains unsupported image format")
    (fun _ => Throw "Input buffer contains unsupported image format")
    (fun _ => "").

(** A call that leaves a request in the log and fails. *)
Definition failingCall : M ProcessedResult :=
  fun w => (Throw "ECONNRESET", extend [EvDownload "https://x/a.png"] w).

End Cases.

(** * The blob service and the controllers *)

(** ** More of JavaScript's strings *)

Module Text.

(** [s.split(sep)] for a one-character separator: never empty. *)
Fixpoint split (sep : ascii) (s : string) : list string :=
  match s with
  | EmptyString => [EmptyString]
  | String c s' =>
      if Ascii.eqb c sep then EmptyString :: split sep s'
      else match split sep s' with
           | x :: xs => String c x :: xs
           | [] => [String c EmptyString]
           end
  end.

(** [l.join(sep)]. *)
Fixpoint join (sep : string) (l : list string) : string :=
  match l with
  | [] => ""
  | [x] => x
  | x :: xs => x ++ sep ++ join sep xs
  end.

(** [[...new Set(l)]]: the first occurrence of every element, in order. *)
Definition setOf (l : list string) : list string :=
  fold_left
    (fun seen x => if existsb (String.eqb x) seen then seen else (seen ++ [x])%list)
    l [].

Definition decDigit (c : ascii) : option Z :=
  let n := Z.of_N (Ascii.N_of_ascii c) in
  if (48 <=? n) && (n <=? 57) then Some (n - 48) else None.

(** The value of the longest prefix of decimal digits; [None] when that
    prefix is empty. *)
Fixpoint decPrefix (s : string) (acc : option Z) : option Z :=
  match s with
  | String c s' =>
      match decDigit c with
      | Some d => decPrefix s' (Some (10 * default 0 acc + d))
      | None => acc
      end
  | EmptyString => acc
  end.

(** [parseInt(s)] without a radix: white space and a sign are skipped, a
    [0x] prefix selects base 16, the longest prefix of digits counts.  The
    result is exact, as JavaScript's is below 2^53. *)
Definition parseInt (s : string) : Js.Num :=
  let s1 := Js.trimStart s in
  let '(sign, s2) :=
    match s1 with
    | String "-" r => (-1, r)
    | String "+" r => (1, r)
    | _ => (1, s1)
    end in
  let digits :=
    match s2 with
    | String "0" (String "x" r) => Js.hexPrefix r None
    | String "0" (String "X" r) => Js.hexPrefix r None
    | _ => decPrefix s2 None
    end in
  match digits with
  | Some v => Js.Int (sign * v)
  | None => Js.NaN
  end.

End Text.

(** ** VercelBlobService *)

(** A blob as [list()] of [@vercel/blob] reports it. *)
Record Blob := mkBlob {
  blobPathname : string;
  blobUrl : string;
  blobSize : Z;
  blobContentType : string;
  blobUploadedAt : string }.

(** What [getBlobsByFolder] returns: [{ folderName, files }]. *)
Record FolderData := mkFolderData {
  fdFolderName : string;
  fdFiles : list SourceFile }.

(** The surroundings of the blob service.
    - [accessToken]: [process.env.VERCEL_ACCESS_TOKEN] is set.
    - [listBlobs k prefix] is what the [k]-th call of [list] (counted from
      0 within one call of [getBlobsByFolder]) yields for that prefix
      ([None]: no prefix): the blobs of the store, or an error.
    - [formatFileSize] renders a size; the method computes it in floating
      point ([Math.log], [toFixed]) and it is left abstract. *)
Record BlobEnv := mkBlobEnv {
  accessToken : bool;
  listBlobs : nat -> option string -> Outcome (list Blob);
  formatFileSize : Z -> string }.

Section BlobService.

Variable benv : BlobEnv.

(** [new VercelBlobService()]. *)
Definition newVercelBlobService : M unit :=
  if accessToken benv then ret tt else throw "VERCEL_ACCESS_TOKEN is required".

(** [processFolderBlobs(blobs, folderName)]. *)
Definition processFolderBlobs (blobs : list Blob) (folderName : string)
    : FolderData :=
  let files :=
    map (fun blob =>
           mkSourceFile
             (List.last (Text.split "/" (blobPathname blob)) "")
             (blobUrl blob)
             (formatFileSize benv (blobSize blob))
             (blobContentType blob)
             (blobUploadedAt blob)
             (blobPathname blob)) blobs in
  mkFolderData folderName files.

(** The loop over [prefixOptions] in [getBlobsByFolder]: the variables
    [blobs] and [lastError], and the number [k] of calls of [list] so
    far. *)
Fixpoint prefixLoop (prefixOptions : list string) (blobs : list Blob)
    (lastError : option string) (k : nat)
    : list Blob * option string * nat :=
  match prefixOptions with
  | [] => (blobs, lastError, k)
  | prefix :: rest =>
      match listBlobs benv k (Some prefix) with
      | Ok found =>
          if (0 <? length found)%nat then (found, lastError, S k)
          else prefixLoop rest found lastError (S k)
      | Throw e => prefixLoop rest blobs (Some e) (S k)
      end
  end.

(** [blob => pathParts[0] === folderName ||
    blob.pathname.startsWith(`${folderName}/`)]. *)
Definition belongsTo (folderName : string) (blob : Blob) : bool :=
  String.eqb (List.hd "" (Text.split "/" (blobPathname blob))) folderName
  || Js.startsWith (folderName ++ "/") (blobPathname blob).

(** [getBlobsByFolder(folderName)]. *)
Definition getBlobsByFolder (folderName : string) : M FolderData :=
  tryCatch
    (let '(blobs, lastError, k) :=
       prefixLoop [folderName ++ "/"; folderName] [] None 0 in
     let '(blobs, lastError, k) :=
       if (length blobs =? 0)%nat then
         match listBlobs benv k None with
         | Ok all => (List.filter (belongsTo folderName) all, lastError, S k)
         | Throw e => (blobs, Some e, S k)
         end
       else (blobs, lastError, k) in
     if (length blobs =? 0)%nat then
       let debugError :=
         match listBlobs benv k None with
         | Ok all =>
             let availableFolders :=
               Text.setOf
                 (map (fun blob => List.hd "" (Text.split "/" (blobPathname blob)))
                    all) in
             "Folder " ++ Js.quote ++ folderName ++ Js.quote
               ++ " not found. Available folders: "
               ++ Text.join ", " availableFolders
         | Throw e => e
         end in
       match lastError with
       | Some e => throw e
       | None => throw debugError
       end
     else ret (processFolderBlobs blobs folderName))
    (fun e =>
       consoleError ("Error fetching blobs for folder " ++ folderName ++ ": " ++ e) ;;;
       throw e).

End BlobService.

(** ** The controllers

    A route or query parameter is a string or absent (a parameter given
    twice, which Express turns into an array, is outside the model).
    [console.error(label, error)] is recorded as the label and the
    error's message. *)

(** Truthiness of an optional string: absent and [''] are falsy. *)
Definition strTruthy (p : option string) : bool :=
  match p with
  | Some (String _ _) => true
  | _ => false
  end.

(** [p ? parseInt(p) : null]. *)
Definition parseDim (p : option string) : Dim :=
  if strTruthy p then
    match Text.parseInt (default "" p) with
    | Js.NaN => DimNaN
    | Js.Int n => DimNum n
    end
  else DimNull.

(** [d <= 0] on a dimension: [null] counts as [0], [NaN] and [undefined]
    compare false. *)
Definition dimLeZero (d : Dim) : bool :=
  match d with
  | DimNum n => n <=? 0
  | DimNull => true
  | _ => false
  end.

(** [(d && d <= 0)] as a condition. *)
Definition rejectedDim (d : Dim) : bool := dimTruthy d && dimLeZero d.

(** [p === text] for a parameter. *)
Definition textIs (text : string) (p : option string) : bool :=
  match p with
  | Some s => String.eqb s text
  | None => false
  end.

(** [{ width: targetWidth, height: targetHeight }], with [purgeCache] in
    the answer for a folder. *)
Record ResizeParams := mkResizeParams {
  rpWidth : Dim;
  rpHeight : Dim;
  rpPurgeCache : option bool }.

(** The object that [getImage] sends as JSON and, serialised, in the
    [X-Image-Info] header. *)
Record ImageInfo := mkImageInfo {
  infoImageName : string;
  infoFolderName : string;
  infoResizedUrl : option string;
  infoDimensions : option Dimensions;
  infoOutputFormat : option string;
  infoIsCached : option bool;
  infoResizeParams : ResizeParams }.

(** What a handler sends. *)
Inductive Body :=
| BodyError (errorText messageText : string)
| BodyListing (folderName : string) (files : list SourceFile) (totalFiles : nat)
| BodyFolder (folderName : string) (files : list ProcessedResult)
    (resizeParams : ResizeParams) (totalFiles resizedFiles cachedFiles : nat)
| BodyImageData (data : ImageInfo)
| BodyImage (contentType : string) (contentLength : nat) (cacheControl : string)
    (etag : string) (imageInfo : ImageInfo) (imageBuffer : Buffer).

Record Response := mkResponse { status : Z; body : Body }.

(** [res.status(code).json({ success: false, error, message })]. *)
Definition sendError (code : Z) (errorText messageText : string) : M Response :=
  ret (mkResponse code (BodyError errorText messageText)).

(** [isCached] as a condition. *)
Definition cachedTruthy (x : ProcessedResult) : bool :=
  match isCached x with
  | Some true => true
  | _ => false
  end.

Section Controllers.

Variable env : Env.
Variable benv : BlobEnv.

(** [Buffer.from(text, 'base64')]. *)
Variable fromBase64 : string -> Buffer.

(** [initializeServices()] of imageController: the resize service first,
    whose constructor cannot fail, then the blob service.  Both are kept
    in module variables and built once: [built] tells whether
    [vercelBlobService] already holds an instance, and then the
    constructor, with its check of the access token, does not run again.
    An instance of the resize service that does not exist yet is one with
    an empty cache. *)
Definition initializeServices (built : bool) : M unit :=
  if built then ret tt else newVercelBlobService benv.

(** Whether [vercelBlobService] holds an instance after a request: it
    does when it did before, or when the constructor returned. *)
Definition builtAfter (built : bool) : bool := built || accessToken benv.

(** The part of [getImage] after the check of [isResized]: the answer as
    JSON, or the image itself. *)
Definition sendImage (folderName imageName : string)
    (targetWidth targetHeight : Dim) (format : option string)
    (processedImage : ProcessedResult) : M Response :=
  if textIs "json" format then
    ret (mkResponse 200
           (BodyImageData
              (mkImageInfo imageName folderName (resizedUrl processedImage)
                 (dimensions processedImage) (outputFormat processedImage)
                 (isCached processedImage)
                 (mkResizeParams targetWidth targetHeight None))))
  else
    match resizedUrl processedImage with
    | None => throw "Cannot read properties of null (reading 'split')"
    | Some url =>
        match nth_error (Text.split "," url) 1 with
        | None =>
            throw "The first argument must be of type string or an instance of Buffer, ArrayBuffer, or Array or an Array-like Object. Received undefined"
        | Some base64Data =>
            let imageBuffer := fromBase64 base64Data in
            match outputFormat processedImage with
            | None =>
                throw "Cannot read properties of undefined (reading 'toLowerCase')"
            | Some format =>
                let mimeType := getMimeTypeForFormat format in
                ret (mkResponse 200
                       (BodyImage mimeType (length imageBuffer) "public, max-age=3600"
                          (Js.quote
                             ++ (if cachedTruthy processedImage then "cached"
                                 else "processed")
                             ++ "-" ++ dimToString targetWidth ++ "x"
                             ++ dimToString targetHeight ++ "-" ++ imageName
                             ++ Js.quote)
                          (mkImageInfo imageName folderName None
                             (dimensions processedImage)
                             (outputFormat processedImage)
                             (isCached processedImage)
                             (mkResizeParams targetWidth targetHeight None))
                          imageBuffer))
            end
        end
    end.

(** [getImage(req, res)] for [GET /api/images/:folderName/:imageName]. *)
Definition getImage (built : bool) (folderName imageName : string)
    (width height purgeCache format : option string) : M Response :=
  tryCatch
    (initializeServices built ;;;
     if negb (strTruthy width) && negb (strTruthy height) then
       sendError 400 "Bad request" "Width or height parameter is required"
     else
       let targetWidth := parseDim width in
       let targetHeight := parseDim height in
       let shouldPurgeCache := textIs "true" purgeCache in
       if rejectedDim targetWidth || rejectedDim targetHeight then
         sendError 400 "Bad request" "Width and height must be positive numbers"
       else
         folderData <- getBlobsByFolder benv folderName ;;
         if (length (fdFiles folderData) =? 0)%nat then
           sendError 404 "Not found" ("No files found in folder: " ++ folderName)
         else
           processedImage <-
             processSingleImageByName env folderName imageName (fdFiles folderData)
               targetWidth targetHeight shouldPurgeCache ;;
           if negb (isResized processedImage) then
             sendError 500 "Processing failed"
               (match error processedImage with
                | Some (String c e) => String c e
                | _ => "Image processing failed"
                end)
           else
             sendImage folderName imageName targetWidth targetHeight format
               processedImage)
    (fun e =>
       consoleError ("Error processing image: " ++ e) ;;;
       sendError 500 "Internal server error" e).

(** [getFolderImages(req, res)] for [GET /api/images/:folderName]. *)
Definition getFolderImages (built : bool) (folderName : string)
    (width height purgeCache : option string) : M Response :=
  tryCatch
    (initializeServices built ;;;
     folderData <- getBlobsByFolder benv folderName ;;
     if (length (fdFiles folderData) =? 0)%nat then
       sendError 404 "Not found" ("No files found in folder: " ++ folderName)
     else if negb (strTruthy width) && negb (strTruthy height) then
       ret (mkResponse 200
              (BodyListing folderName (fdFiles folderData)
                 (length (fdFiles folderData))))
     else
       let targetWidth := parseDim width in
       let targetHeight := parseDim height in
       let shouldPurgeCache := textIs "true" purgeCache in
       if rejectedDim targetWidth || rejectedDim targetHeight then
         sendError 400 "Bad request" "Width and height must be positive numbers"
       else
         processedFiles <-
           processFolderImages env (fdFiles folderData) folderName targetWidth
             targetHeight shouldPurgeCache None ;;
         ret (mkResponse 200
                (BodyFolder folderName processedFiles
                   (mkResizeParams targetWidth targetHeight (Some shouldPurgeCache))
                   (length processedFiles)
                   (length (List.filter isResized processedFiles))
                   (length (List.filter cachedTruthy processedFiles)))))
    (fun e =>
       consoleError ("Error processing folder images: " ++ e) ;;;
       sendError 500 "Internal server error" e).

End Controllers.

(** ** Reading an answer *)



(** ** A concrete store *)

Module Site.

Definition blobA : Blob :=
  mkBlob "demo/a.png" "https://x/a.png" 2048 "image/png" "2024-01-01".

Definition blobB : Blob :=
  mkBlob "demo/sub/b.jpg" "https://x/b.jpg" 512 "image/jpeg" "2024-01-02".

Definition blobOther : Blob :=
  mkBlob "other/c.png" "https://x/c.png" 100 "image/png" "2024-01-03".

Definition store : list Blob := [blobA; blobB; blobOther].

(** [list] over [store]: the blobs whose path starts with the prefix. *)
Definition siteList (k : nat) (prefix : option string) : Outcome (list Blob) :=
  Ok (List.filter (fun blob => Js.startsWith (default "" prefix) (blobPathname blob))
        store).

Definition siteEnv : BlobEnv :=
  mkBlobEnv true siteList (fun n => Js.intToString n ++ " Bytes").

(** The same store without the access token. *)
Definition noTokenEnv : BlobEnv :=
  mkBlobEnv false siteList (fun n => Js.intToString n ++ " Bytes").

(** A store that cannot be reached. *)
Definition offlineEnv : BlobEnv :=
  mkBlobEnv true (fun _ _ => Throw "fetch failed") (fun n => Js.intToString n ++ " Bytes").

(** A stand-in for the base64 decoder. *)
Definition decode (text : string) : Buffer := Demo.bytesOf text.

(** The listing of the folder [demo]. *)
Definition demoFolder : FolderData :=
  processFolderBlobs siteEnv [blobA; blobB] "demo".



(** The request for the whole folder at width 100. *)
Definition folderRun : Outcome Response * World :=
  getFolderImages Demo.demoEnv siteEnv false "demo" (Some "100") None None
    Demo.world0.

End Site.

(** ** The selection rule of the specification

    The rule of §4.4 in its own words, over a notion of alpha-capable
    format and the two defaults it mentions. *)

Definition specOutputFormat (supportsAlpha : string -> bool)
    (defaultAlpha defaultOpaque : string) (originalUrl : string)
    (hasAlpha : bool) : string :=
  let candidate := originalFormatOf originalUrl in
  if hasAlpha then
    (if supportsAlpha candidate then candidate else defaultAlpha)
  else
    (if supportsAlpha candidate then candidate else defaultOpaque).

(** The formats that the rule treats as carrying alpha: the ones the
    handlers leave alone for an image with transparency. *)
Definition pngOrWebp (format : string) : bool :=
  String.eqb format "png" || String.eqb format "webp".

(** [determineOutputFormat(originalUrl, hasAlpha)] of the serverless
    handlers [api/images/[folderName].js] and
    [api/images/[folderName]/[imageName].js]. *)
Definition handlerOutputFormat (originalUrl : string) (hasAlpha : bool) : string :=
  let ext := Js.toLowerCase (List.last (Text.split "." originalUrl) "") in
  if hasAlpha && negb (String.eqb ext "png") && negb (String.eqb ext "webp")
  then "png"
  else if String.eqb ext "jpg" || String.eqb ext "jpeg" then "jpeg"
  else if String.eqb ext "png" then "png"
  else if String.eqb ext "webp" then "webp"
  else if hasAlpha then "png" else "jpeg".

(** * Properties of the pure methods *)

(** ** Evaluations *)

Example hashString_empty : hashString "" = "45h".
Proof. vm_compute. reflexivity. Qed.

Example key_demo :
  generateCacheKey "demo" (DimNum 100) DimNull "https://x/a.png"
  = "resize_demo_100xnull_gjpt1x".
Proof. vm_compute. reflexivity. Qed.

(** ** parseBackgroundColor *)

Lemma numOr_nonzero (x : Js.Num) (d : Z) : d <> 0 -> Js.numOr x d <> 0.
Proof.
  intros Hd. destruct x as [|n]; simpl; [exact Hd|].
  destruct (Z.eqb_spec n 0); auto.
Qed.

Lemma numOr_zero (d : Z) : Js.numOr (Js.Int 0) d = d.
Proof. reflexivity. Qed.

Example parseBackgroundColor_black :
  parseBackgroundColor "#000000" = mkColor 255 255 255.
Proof. reflexivity. Qed.

Example parseBackgroundColor_navy :
  parseBackgroundColor "#000080" = mkColor 255 255 128.
Proof. reflexivity. Qed.

Example parseBackgroundColor_partial :
  parseBackgroundColor "#12" = mkColor 18 255 255.
Proof. reflexivity. Qed.

(** C10. No channel that [parseBackgroundColor] returns is 0, and a
    channel whose two hexadecimal digits parse to 0 comes out as 255: a
    black background is flattened as white. *)
Theorem parseBackgroundColor_zero_is_white (backgroundColor : string) :
  let hex := Js.removeFirst "#" backgroundColor in
  let c := parseBackgroundColor backgroundColor in
  (r c <> 0 /\ g c <> 0 /\ b c <> 0) /\
  (Js.parseInt16 (Js.substring 0 2 hex) = Js.Int 0 -> r c = 255) /\
  (Js.parseInt16 (Js.substring 2 4 hex) = Js.Int 0 -> g c = 255) /\
  (Js.parseInt16 (Js.substring 4 6 hex) = Js.Int 0 -> b c = 255).
Proof.
  cbv zeta. unfold parseBackgroundColor. simpl r; simpl g; simpl b.
  repeat split; try (apply numOr_nonzero; discriminate);
    intros ->; apply numOr_zero.
Qed.

Lemma parseBackgroundColor_zero_is_white_witness :
  r (parseBackgroundColor "#000000") = 255 /\
  g (parseBackgroundColor "#000000") = 255 /\
  b (parseBackgroundColor "#000000") = 255.
Proof.
  pose proof (parseBackgroundColor_zero_is_white "#000000") as [_ [Hr [Hg Hb]]].
  split; [apply Hr; reflexivity | split; [apply Hg; reflexivity | apply Hb; reflexivity]].
Defined.

(** ** determineOutputFormat *)

Example determineOutputFormat_opaque_png :
  determineOutputFormat "https://x/a.png" false = "jpeg".
Proof. reflexivity. Qed.

Example determineOutputFormat_alpha_gif :
  determineOutputFormat "https://x/a.gif" true = "png".
Proof. reflexivity. Qed.

Example determineOutputFormat_webp :
  determineOutputFormat "https://x/a.WEBP" true = "webp" /\
  determineOutputFormat "https://x/a.webp" false = "webp".
Proof. split; reflexivity. Qed.

(** ** hasTransparency *)

(** When the metadata of the downloaded bytes cannot be read, the image
    is processed as an opaque one. *)
Lemma pipelineOutcome_unreadable_metadata (env : Env) (f : SourceFile)
    (width height : Dim) (backgroundColor : option string) (k : nat)
    (imageBuffer : Buffer) (msg : string) :
  net env (fileUrl f) k = Ok imageBuffer ->
  sharpMetadata env imageBuffer = Throw msg ->
  pipelineOutcome env f width height backgroundColor k
  = match resizeImage env imageBuffer width height
            (determineOutputFormat (fileUrl f) false) false backgroundColor with
    | Ok resizedBuffer =>
        match sharpMetadata env resizedBuffer with
        | Ok metadata =>
            Ok (resizedResult f
                  ("data:"
                     +:+ getMimeTypeForFormat (determineOutputFormat (fileUrl f) false)
                     +:+ ";base64," +:+ base64 env resizedBuffer)
                  (mkDimensions (mWidth metadata) (mHeight metadata)) false
                  (determineOutputFormat (fileUrl f) false))
        | Throw e => Throw e
        end
    | Throw e => Throw e
    end.
Proof.
  intros Hnet Hmeta. unfold pipelineOutcome, hasTransparency.
  rewrite Hnet, Hmeta. reflexivity.
Qed.

(** * Properties of the asynchronous methods *)

Local Open Scope list_scope.

Section ServiceFacts.

Variable env : Env.

Lemma extend_nil (w : World) : extend [] w = w.
Proof. destruct w; reflexivity. Qed.

Lemma extend_extend (e1 e2 : list Event) (w : World) :
  extend e1 (extend e2 w) = extend (e1 ++ e2) w.
Proof. unfold extend; simpl. by rewrite app_assoc. Qed.

(** ** processSingleImage absorbs every error of the pipeline *)

Lemma processSingleImage_run (f : SourceFile) (folderName : string)
    (width height : Dim) (backgroundColor : option string) (w : World) :
  processSingleImage env f folderName width height backgroundColor w
  = (Ok (singleResult env f width height backgroundColor
           (downloadsOf (fileUrl f) (log w))),
     extend (downloadEvents f) w).
Proof.
  unfold processSingleImage, singleResult, downloadEvents.
  destruct (isSupportedFormat (fileUrl f)); simpl.
  - unfold tryCatch, bind, downloadImage, lift, ret, pipelineOutcome, extend; simpl.
    destruct (net env (fileUrl f) _) as [buf|e]; [|reflexivity].
    destruct (hasTransparency env buf) as [a|e]; [|reflexivity].
    destruct (resizeImage env buf width height _ a backgroundColor) as [out|e];
      [|reflexivity].
    destruct (sharpMetadata env out) as [m|e]; reflexivity.
  - unfold ret. by rewrite extend_nil.
Qed.

Lemma pipelineOutcome_ok (f : SourceFile) (width height : Dim)
    (backgroundColor : option string) (k : nat) (x : ProcessedResult) :
  pipelineOutcome env f width height backgroundColor k = Ok x ->
  exists url d a fmt, x = resizedResult f ("data:" +:+ url) d a fmt.
Proof.
  unfold pipelineOutcome.
  destruct (net env (fileUrl f) k) as [buf|e]; [|discriminate].
  destruct (hasTransparency env buf) as [a|e]; [|discriminate].
  destruct (resizeImage env buf width height _ a backgroundColor) as [out|e];
    [|discriminate].
  destruct (sharpMetadata env out) as [m|e]; [|discriminate].
  intros [= <-]. eauto.
Qed.

Lemma singleResult_cases (f : SourceFile) (width height : Dim)
    (backgroundColor : option string) (k : nat) :
  let x := singleResult env f width height backgroundColor k in
  x = unsupportedResult f \/
  (exists msg, x = failedResult f msg) \/
  (exists url d a fmt, x = resizedResult f ("data:" +:+ url) d a fmt).
Proof.
  unfold singleResult.
  destruct (isSupportedFormat (fileUrl f)); simpl; [|by left].
  destruct (pipelineOutcome env f width height backgroundColor k) as [x|e] eqn:E.
  - right; right. eapply pipelineOutcome_ok; eauto.
  - right; left. eauto.
Qed.

Lemma singleResult_file (f : SourceFile) (width height : Dim)
    (backgroundColor : option string) (k : nat) :
  file (singleResult env f width height backgroundColor k) = Some f.
Proof.
  destruct (singleResult_cases f width height backgroundColor k)
    as [-> | [(? & ->) | (? & ? & ? & ? & ->)]]; reflexivity.
Qed.

Lemma singleResult_recordOf (f : SourceFile) (width height : Dim)
    (backgroundColor : option string) (k : nat) :
  recordOf f (singleResult env f width height backgroundColor k).
Proof.
  unfold recordOf, singleResult.
  destruct (isSupportedFormat (fileUrl f)) eqn:Hs; cbn [negb]; [|by right; right].
  destruct (pipelineOutcome env f width height backgroundColor k) as [x|e] eqn:E.
  - left. destruct (pipelineOutcome_ok _ _ _ _ _ _ E) as (? & ? & ? & ? & ->).
    by split.
  - right; left. by exists e.
Qed.

(** The [catch] of [processSingleImageWithRetry] never runs: the method is
    [processSingleImage], whatever [retries] is. *)
Lemma processSingleImageWithRetry_run (f : SourceFile) (folderName : string)
    (width height : Dim) (backgroundColor : option string) (retries : nat)
    (w : World) :
  processSingleImageWithRetry env f folderName width height backgroundColor
    retries w
  = processSingleImage env f folderName width height backgroundColor w.
Proof.
  unfold processSingleImageWithRetry.
  destruct retries; simpl; unfold tryCatch;
    rewrite processSingleImage_run; reflexivity.
Qed.

(** The loop itself does retry: around a call that fails every time, it
    attempts [remaining + 1] times, waits [2^k] seconds after attempt [k]
    and returns the failure right after the last attempt. *)
Lemma retryLoop_failing (attempted : M ProcessedResult) (ev : Event)
    (msg : string) (retries : Z) (f : SourceFile) :
  (forall w, attempted w = (Throw msg, extend [ev] w)) ->
  forall (remaining : nat) (attempt : Z) (w : World),
    exists t text,
      retryLoop attempted remaining attempt retries f w
      = (Ok (failedResult f msg),
         mkWorld (cache w) t
           (EvConsoleError text :: rev (retryTrace ev remaining attempt) ++ log w)).
Proof.
  intros Hfail. induction remaining as [|remaining IH]; intros attempt w.
  - do 2 eexists. simpl. unfold tryCatch. rewrite Hfail. reflexivity.
  - simpl retryLoop. unfold tryCatch. rewrite Hfail.
    unfold bind at 1, sleep at 1.
    destruct (IH (attempt + 1) (mkWorld (cache (extend [ev] w))
                                  (now (extend [ev] w) + 2 ^ attempt * 1000)
                                  (EvSleep (2 ^ attempt * 1000) :: log (extend [ev] w))))
      as (t & text & ->).
    exists t, text. simpl. rewrite <- !app_assoc. reflexivity.
Qed.

Example retryTrace_default (ev : Event) :
  retryTrace ev 2 0 = [ev; EvSleep 1000; ev; EvSleep 2000; ev].
Proof. reflexivity. Qed.

(** C5, on the code.  When every request for the URL fails, the method
    makes one request, does not wait and returns the failure of that single
    attempt: the pipeline is not run again, whatever [retries] is. *)
Theorem processSingleImageWithRetry_single_attempt (f : SourceFile)
    (folderName : string) (width height : Dim)
    (backgroundColor : option string) (retries : nat) (msg : string)
    (w : World) :
  isSupportedFormat (fileUrl f) = true ->
  (forall k, net env (fileUrl f) k = Throw msg) ->
  processSingleImageWithRetry env f folderName width height backgroundColor
    retries w
  = (Ok (failedResult f msg), extend [EvDownload (fileUrl f)] w).
Proof.
  intros Hs Hnet.
  rewrite processSingleImageWithRetry_run, processSingleImage_run.
  unfold singleResult, pipelineOutcome, downloadEvents.
  rewrite Hs, Hnet. reflexivity.
Qed.

(** ** processBatches *)

Lemma allSettled_batch (folderName : string) (width height : Dim)
    (backgroundColor : option string) (batch : list SourceFile) (w : World) :
  exists xs,
    allSettled
      (map (fun f => processSingleImageWithRetry env f folderName width height
                       backgroundColor 2) batch) w
    = (map Ok xs, extend (batchEvents batch) w) /\
    Forall2 (producedBy env width height backgroundColor) batch xs.
Proof.
  revert w. induction batch as [|f batch IH]; intros w.
  - exists []. simpl. rewrite extend_nil. split; [reflexivity|constructor].
  - simpl. rewrite processSingleImageWithRetry_run, processSingleImage_run.
    destruct (IH (extend (downloadEvents f) w)) as (xs & -> & Hxs).
    eexists (_ :: xs). split.
    + rewrite extend_extend. unfold batchEvents. simpl.
      rewrite map_app, concat_app. simpl. rewrite app_nil_r. reflexivity.
    + constructor; [eexists; reflexivity | exact Hxs].
Qed.

Lemma settled_ok (xs : list ProcessedResult) :
  map settledResult (map Ok xs) = xs /\
  concat (map settledLog (map Ok xs)) = [].
Proof.
  induction xs as [|x xs [IH1 IH2]]; simpl; [auto|].
  rewrite IH1, IH2. auto.
Qed.

Lemma batchSizeOf_pos (o : Options) : (0 < batchSizeOf o)%nat.
Proof. unfold batchSizeOf. destruct (optBatchSize o) as [[|n]|]; lia. Qed.

Lemma eventOf_weaken (fs gs : list SourceFile) (e : Event) :
  (forall f, In f fs -> In f gs) -> eventOf fs e -> eventOf gs e.
Proof.
  intros Hsub [Hs | (f & Hf & Hsup & ->)]; [left; exact Hs|].
  right. exists f. auto.
Qed.

Lemma batchEvents_eventOf (batch : list SourceFile) :
  Forall (eventOf batch) (batchEvents batch).
Proof.
  unfold batchEvents. apply List.Forall_forall. intros e He.
  apply in_concat in He as (l & Hl & He).
  apply in_map_iff in Hl as (f & <- & Hf).
  apply in_rev in Hf. unfold downloadEvents in He.
  destruct (isSupportedFormat (fileUrl f)) eqn:Hs; [|destruct He].
  destruct He as [<-|[]]. right. exists f. auto.
Qed.

Lemma batchEvents_complete (batch : list SourceFile) (f : SourceFile) :
  In f batch -> isSupportedFormat (fileUrl f) = true ->
  In (EvDownload (fileUrl f)) (batchEvents batch).
Proof.
  intros Hf Hs. unfold batchEvents. apply in_concat.
  exists (downloadEvents f). split.
  - apply in_map. by apply in_rev in Hf.
  - unfold downloadEvents. rewrite Hs. by left.
Qed.

(** The loop of [processBatches] ends within its fuel, keeps the cache and
    appends one result per remaining file, in the order of the files. *)
Lemma batchLoop_run (folderName : string) (width height : Dim)
    (backgroundColor : option string) (files : list SourceFile) (fuel : nat) :
  forall (i : nat) (acc : list ProcessedResult) (w : World),
    (length files - i < fuel)%nat ->
    exists xs evs t,
      batchLoop env fuel i files folderName width height backgroundColor acc w
      = (Ok (acc ++ xs), mkWorld (cache w) t (evs ++ log w)) /\
      now w <= t /\
      Forall2 (producedBy env width height backgroundColor) (drop i files) xs /\
      Forall (eventOf (drop i files)) evs /\
      (forall f, In f (drop i files) -> isSupportedFormat (fileUrl f) = true ->
                 In (EvDownload (fileUrl f)) evs).
Proof.
  induction fuel as [|fuel IH]; intros i acc w Hfuel; [lia|].
  simpl. destruct (Nat.ltb_spec i (length files)) as [Hi|Hi].
  - set (bs := batchSizeOf (options env)).
    assert (Hbs : (0 < bs)%nat) by apply batchSizeOf_pos.
    unfold slice. replace (i + bs - i)%nat with bs by lia.
    set (batch := take bs (drop i files)).
    destruct (allSettled_batch folderName width height backgroundColor batch w)
      as (xs1 & -> & Hxs1).
    destruct (settled_ok xs1) as [-> ->]. simpl rev. rewrite app_nil_l.
    assert (Hsplit : drop i files = batch ++ drop (i + bs) files).
    { unfold batch. rewrite <- (take_drop bs (drop i files)) at 1.
      f_equal. rewrite drop_drop. f_equal. }
    set (w1 := extend (batchEvents batch) w).
    assert (Hw1 : mkWorld (cache w1) (now w1) (log w1) = w1) by (by destruct w1).
    rewrite Hw1.
    unfold bind at 1.
    destruct (Nat.ltb_spec (i + bs) (length files)) as [Hmore|Hlast].
    + unfold sleep at 1.
      destruct (IH (i + bs)%nat (acc ++ xs1)
                  (mkWorld (cache w1) (now w1 + 10) (EvSleep 10 :: log w1)))
        as (xs2 & evs2 & t & -> & Ht & Hxs2 & Hev & Hdl); [lia|].
      exists (xs1 ++ xs2), (evs2 ++ EvSleep 10 :: batchEvents batch), t.
      simpl in *. split; [|split; [lia|split; [|split]]].
      * rewrite <- !app_assoc. reflexivity.
      * rewrite Hsplit. by apply Forall2_app.
      * rewrite Hsplit. apply Forall_app. split.
        { eapply List.Forall_impl; [|exact Hev]. intros e. apply eventOf_weaken.
          intros f Hf. apply in_or_app. by right. }
        constructor; [left; eauto|].
        eapply List.Forall_impl; [|apply batchEvents_eventOf].
        intros e. apply eventOf_weaken. intros f Hf. apply in_or_app. by left.
      * intros f Hf Hs. rewrite Hsplit in Hf. apply in_app_or in Hf as [Hf|Hf].
        { apply in_or_app. right. right. by apply batchEvents_complete. }
        apply in_or_app. left. by apply Hdl.
    + unfold ret at 1.
      destruct (IH (i + bs)%nat (acc ++ xs1) w1)
        as (xs2 & evs2 & t & -> & Ht & Hxs2 & Hev & Hdl); [lia|].
      exists (xs1 ++ xs2), (evs2 ++ batchEvents batch), t.
      simpl in *. split; [|split; [lia|split; [|split]]].
      * rewrite <- !app_assoc. reflexivity.
      * rewrite Hsplit. by apply Forall2_app.
      * rewrite Hsplit. apply Forall_app. split.
        { eapply List.Forall_impl; [|exact Hev]. intros e. apply eventOf_weaken.
          intros f Hf. apply in_or_app. by right. }
        eapply List.Forall_impl; [|apply batchEvents_eventOf].
        intros e. apply eventOf_weaken. intros f Hf. apply in_or_app. by left.
      * intros f Hf Hs. rewrite Hsplit in Hf. apply in_app_or in Hf as [Hf|Hf].
        { apply in_or_app. right. by apply batchEvents_complete. }
        apply in_or_app. left. by apply Hdl.
  - exists [], [], (now w). rewrite app_nil_r. unfold ret. simpl.
    rewrite drop_ge by lia.
    split; [by destruct w|]. split; [lia|]. split; [constructor|].
    split; [constructor|]. intros f [].
Qed.

(** ** Cache lookups *)

Lemma sameLive_refl (w : World) : sameLive w w.
Proof. unfold sameLive. auto. Qed.

Lemma sameLive_trans (w1 w2 w3 : World) :
  sameLive w1 w2 -> sameLive w2 w3 -> sameLive w1 w3.
Proof.
  intros (Hn1 & Hl1 & Hk1 & Hs1) (Hn2 & Hl2 & Hk2 & Hs2).
  unfold sameLive. repeat split; try congruence.
  - intros k v t Hk Ht. apply Hk2; [by apply Hk1 | lia].
  - intros k v Hk. auto.
Qed.

Lemma sameLive_live (w w' : World) (key : string) (e : CacheEntry) :
  sameLive w w' -> (live w' key e <-> live w key e).
Proof.
  intros (Hn & _ & Hk & Hs). unfold live. split; intros (t & Hc & Ht).
  - exists t. split; [by apply Hs | lia].
  - exists t. split; [by apply Hk | lia].
Qed.

Lemma has_run (key : string) (w : World) :
  exists hit w',
    NodeCache.has key w = (Ok hit, w') /\ sameLive w w' /\
    (hit = true -> w' = w /\ exists e, live w key e) /\
    (hit = false -> forall e, ~ live w key e).
Proof.
  unfold NodeCache.has, NodeCache.expired.
  destruct (cache w !! key) as [[v t]|] eqn:Hc.
  - destruct (Z.ltb_spec t (now w)) as [Hexp|Hlive].
    + eexists false, _. split; [reflexivity|]. split; [|split; [discriminate|]].
      * unfold sameLive; simpl. repeat split.
        { intros k v' t' Hk Ht. destruct (decide (k = key)) as [->|Hne].
          - rewrite Hc in Hk. injection Hk as -> ->. lia.
          - by rewrite lookup_delete_ne. }
        { intros k v' Hk. destruct (decide (k = key)) as [->|Hne].
          - by rewrite lookup_delete_eq in Hk.
          - by rewrite lookup_delete_ne in Hk. }
      * intros _ e (t' & Hk & Ht). rewrite Hc in Hk. injection Hk as -> ->. lia.
    + eexists true, _. split; [reflexivity|]. split; [apply sameLive_refl|].
      split; [|discriminate]. intros _. split; [reflexivity|].
      exists v, t. auto.
  - eexists false, _. split; [reflexivity|]. split; [apply sameLive_refl|].
    split; [discriminate|]. intros _ e (t & Hk & _). congruence.
Qed.

Lemma get_live (key : string) (e : CacheEntry) (w : World) :
  live w key e -> NodeCache.get key w = (Ok (Some e), w).
Proof.
  intros (t & Hc & Ht). unfold NodeCache.get, NodeCache.expired. rewrite Hc.
  destruct (Z.ltb_spec t (now w)); [lia | reflexivity].
Qed.

Lemma cacheUsable_run (purgeCache : bool) (key : string) (w : World) :
  exists hit w',
    cacheUsable purgeCache key w = (Ok hit, w') /\ sameLive w w' /\
    (hit = true -> purgeCache = false /\ w' = w /\ exists e, live w key e) /\
    (hit = false -> purgeCache = true \/ forall e, ~ live w key e) /\
    (purgeCache = true -> hit = false /\ w' = w).
Proof.
  unfold cacheUsable. destruct purgeCache; simpl.
  - exists false, w. unfold ret. split; [reflexivity|].
    split; [apply sameLive_refl|]. repeat split; auto; discriminate.
  - destruct (has_run key w) as (hit & w' & -> & Hs & Ht & Hf).
    exists hit, w'. split; [reflexivity|]. split; [exact Hs|].
    split; [|split]; [| |discriminate].
    + intros H. destruct (Ht H) as [-> He]. auto.
    + intros H. right. by apply Hf.
Qed.

(** The first loop of [processFolderImages] never raises and splits the
    files into those served from the cache and those left to process. *)
Lemma firstPass_run (folderName : string) (width height : Dim)
    (purgeCache : bool) (files : list SourceFile) :
  forall w : World,
    exists hits misses w',
      firstPass files folderName width height purgeCache w
      = (Ok (hits, misses), w') /\
      splitPost folderName width height purgeCache files w hits misses w'.
Proof.
  unfold splitPost. induction files as [|f files IH]; intros w.
  - exists [], [], w. simpl. unfold ret.
    split; [reflexivity|]. split; [apply sameLive_refl|].
    split; [constructor|]. repeat split; try (intros ? []); auto.
  - simpl firstPass. unfold bind at 1.
    set (key := generateCacheKey folderName width height (fileUrl f)).
    destruct (cacheUsable_run purgeCache key w)
      as (hit & w1 & -> & Hs1 & Hhit & Hmiss & Hpurge).
    destruct hit.
    + destruct (Hhit eq_refl) as (Hnp & -> & e & He).
      unfold bind at 1. rewrite (get_live key e w He).
      unfold bind at 1, readCached, ret at 1.
      unfold bind at 1.
      destruct (IH w) as (hits & misses & w' & -> & Hs & Hperm & Hh & Hm & Hl & Hp).
      exists (cachedResult f e :: hits), misses, w'. unfold ret; simpl.
      split; [reflexivity|]. split; [exact Hs|].
      split; [by constructor|]. split; [|split; [|split]].
      * intros x [<-|Hx].
        { exists f, e. auto. }
        destruct (Hh x Hx) as (f' & e' & ? & ? & ? & ?). exists f', e'. auto.
      * intros f' Hf'. destruct (Hm f' Hf') as [? ?]. auto.
      * intros f' e' [<-|Hf'] Hnp' Hlive.
        { left. destruct He as (t & Hc & _), Hlive as (t' & Hc' & _).
          fold key in Hc'. congruence. }
        right. by apply Hl.
      * intros ->. discriminate.
    + unfold bind at 1.
      destruct (IH w1) as (hits & misses & w' & -> & Hs & Hperm & Hh & Hm & Hl & Hp).
      exists hits, (f :: misses), w'. unfold ret; simpl.
      split; [reflexivity|]. split; [by eapply sameLive_trans|].
      split; [|split; [|split; [|split]]].
      * change (map file hits ++ Some f :: map Some misses)
          with (map file hits ++ [Some f] ++ map Some misses).
        rewrite Permutation_app_swap_app. simpl. by constructor.
      * intros x Hx. destruct (Hh x Hx) as (f' & e' & ? & ? & Hlive & ?).
        exists f', e'. repeat split; auto. by apply (sameLive_live w w1).
      * intros f' [<-|Hf'].
        { split; [by left|]. by apply Hmiss. }
        destruct (Hm f' Hf') as [? [?|Hn]]; split; auto.
        right. intros e He. apply (Hn e). by apply (sameLive_live w w1).
      * intros f' e' [<-|Hf'] Hnp Hlive.
        { destruct (Hmiss eq_refl) as [?|Hn]; [congruence|].
          exfalso. by apply (Hn e'). }
        apply Hl; auto. by apply (sameLive_live w w1).
      * intros Hpg. destruct (Hpurge Hpg) as [_ ->].
        destruct (Hp Hpg) as (-> & -> & ->). auto.
Qed.

(** ** Writing the results to the cache *)

Lemma producedBy_file (width height : Dim) (backgroundColor : option string)
    (f : SourceFile) (x : ProcessedResult) :
  producedBy env width height backgroundColor f x -> file x = Some f.
Proof. intros (k & ->). apply singleResult_file. Qed.

Lemma producedBy_recordOf (width height : Dim) (backgroundColor : option string)
    (f : SourceFile) (x : ProcessedResult) :
  producedBy env width height backgroundColor f x -> recordOf f x.
Proof. intros (k & ->). apply singleResult_recordOf. Qed.

Lemma producedBy_files (width height : Dim) (backgroundColor : option string)
    (fs : list SourceFile) (xs : list ProcessedResult) :
  Forall2 (producedBy env width height backgroundColor) fs xs ->
  map file xs = map Some fs /\ Forall2 recordOf fs xs.
Proof.
  induction 1 as [|f x fs xs Hx _ [IH1 IH2]]; simpl; [auto|].
  rewrite IH1, (producedBy_file _ _ _ _ _ Hx). split; [reflexivity|].
  constructor; [by eapply producedBy_recordOf | exact IH2].
Qed.

Lemma cacheResults_run (folderName : string) (width height : Dim)
    (results : list ProcessedResult) :
  Forall (fun x => is_Some (file x)) results ->
  forall w : World,
    cacheResults results folderName width height w
    = (Ok tt,
       mkWorld (storeAll results folderName width height (now w) (cache w))
         (now w) (log w)).
Proof.
  induction 1 as [|x results [f Hf] _ IH]; intros w; simpl.
  - unfold ret. by destruct w.
  - unfold bind at 1. fold (cacheable x). unfold resultUrl. rewrite Hf. simpl.
    destruct (cacheable x).
    + unfold bind at 1, dateNow, NodeCache.set. rewrite IH. reflexivity.
    + unfold ret at 1. rewrite IH. reflexivity.
Qed.


Lemma storeAll_app (folderName : string) (width height : Dim) (t : Z)
    (l1 l2 : list ProcessedResult) :
  forall c : gmap string (CacheEntry * Z),
    storeAll (l1 ++ l2) folderName width height t c
    = storeAll l2 folderName width height t
        (storeAll l1 folderName width height t c).
Proof. induction l1 as [|x l1 IH]; intros c; simpl; [reflexivity|apply IH]. Qed.

(** The entry under a key that some result of the loop was stored under is
    the entry of one of these results (the last one). *)
Lemma storeAll_stored (folderName : string) (width height : Dim) (t : Z)
    (key : string) (c : gmap string (CacheEntry * Z))
    (results : list ProcessedResult) :
  (exists x, In x results /\ cacheable x = true /\
             resultKey folderName width height x = Some key) ->
  exists y, In y results /\ cacheable y = true /\
            resultKey folderName width height y = Some key /\
            storeAll results folderName width height t c !! key
            = Some (entryOf y t, t + NodeCache.stdTTL * 1000).
Proof.
  induction results as [|x results IH] using rev_ind;
    intros (x0 & Hin & Hc & Hk); [destruct Hin|].
  rewrite storeAll_app. simpl.
  destruct (cacheable x) eqn:Hcx.
  - destruct (decide (resultKey folderName width height x = Some key)) as [Hkx|Hkx].
    + exists x. split; [apply in_or_app; right; by left|].
      repeat split; auto. unfold resultKey in Hkx.
      destruct (resultUrl x) as [url|]; [|discriminate].
      simpl in Hkx. injection Hkx as <-. by rewrite lookup_insert_eq.
    + destruct IH as (y & Hy & Hcy & Hky & Hl).
      { apply in_app_or in Hin as [Hin|[<-|[]]]; [eauto|congruence]. }
      exists y. split; [apply in_or_app; by left|]. repeat split; auto.
      unfold resultKey in Hkx. destruct (resultUrl x) as [url|]; [|exact Hl].
      simpl in Hkx. rewrite lookup_insert_ne; [exact Hl|congruence].
  - destruct IH as (y & Hy & Hcy & Hky & Hl).
    { apply in_app_or in Hin as [Hin|[<-|[]]]; [eauto|congruence]. }
    exists y. split; [apply in_or_app; by left|]. auto.
Qed.


(** ** processFolderImages *)

(** What one call of [processFolderImages] does: the first loop gives the
    hits and the misses, the misses go through the pipeline in order, and
    the successes are stored at the time [t] at which the batches end. *)
Lemma processFolderImages_run (files : list SourceFile) (folderName : string)
    (width height : Dim) (purgeCache : bool) (backgroundColor : option string)
    (w : World) :
  exists hits misses w1 xs evs t,
    splitPost folderName width height purgeCache files w hits misses w1 /\
    Forall2 (producedBy env width height
               (Some (default "#ffffff"%string backgroundColor))) misses xs /\
    processFolderImages env files folderName width height purgeCache
      backgroundColor w
    = (Ok (hits ++ xs),
       mkWorld (storeAll xs folderName width height t (cache w1)) t
         (evs ++ log w)) /\
    now w <= t /\
    Forall (eventOf misses) evs /\
    (forall f, In f misses -> isSupportedFormat (fileUrl f) = true ->
               In (EvDownload (fileUrl f)) evs).
Proof.
  destruct (firstPass_run folderName width height purgeCache files w)
    as (hits & misses & w1 & Hfp & Hpost).
  pose proof Hpost as ((Hn & Hl & _) & _).
  unfold processFolderImages, bind at 1. rewrite Hfp. cbn [fst snd].
  destruct misses as [|f misses].
  - exists hits, [], w1, [], [], (now w). simpl. unfold ret.
    rewrite app_nil_r, <- Hn, <- Hl.
    split; [exact Hpost|]. split; [constructor|]. split; [by destruct w1|].
    split; [lia|]. split; [constructor|]. intros ? [].
  - cbn [length Nat.eqb]. set (ms := f :: misses) in *.
    unfold bind at 1, processBatches.
    change (S (length misses)) with (length ms).
    destruct (batchLoop_run folderName width height
                (Some (default "#ffffff"%string backgroundColor)) ms
                (S (length ms)) 0%nat [] w1)
      as (xs & evs & t & -> & Ht & Hxs & Hev & Hdl); [lia|].
    rewrite drop_0 in Hxs, Hev, Hdl. simpl app at 1.
    unfold bind at 1. rewrite cacheResults_run; simpl.
    + exists hits, ms, w1, xs, evs, t. unfold ret. rewrite Hl.
      split; [exact Hpost|]. split; [exact Hxs|]. split; [reflexivity|].
      split; [lia|]. split; [exact Hev|exact Hdl].
    + destruct (producedBy_files _ _ _ _ _ Hxs) as [Hfiles _].
      apply List.Forall_forall. intros x Hx.
      apply (in_map file) in Hx. rewrite Hfiles in Hx.
      apply in_map_iff in Hx as (f' & <- & _). eauto.
Qed.

End ServiceFacts.


(** ** Every file gets a result *)


Lemma processSingleImageWithRetry_single_attempt_witness :
  isSupportedFormat (fileUrl Demo.fileDown) = true /\
  (forall k, net Demo.demoEnv (fileUrl Demo.fileDown) k = Throw "HTTP 500") /\
  processSingleImageWithRetry Demo.demoEnv Demo.fileDown "demo" (DimNum 100)
    DimNull None 2 Demo.world0
  = (Ok (failedResult Demo.fileDown "HTTP 500"),
     mkWorld ∅ 1000 [EvDownload "https://down/d.png"]).
Proof.
  split; [reflexivity|]. split; [intros k; reflexivity|].
  apply (processSingleImageWithRetry_single_attempt Demo.demoEnv Demo.fileDown
           "demo" (DimNum 100) DimNull None 2 "HTTP 500" Demo.world0).
  - reflexivity.
  - intros k. reflexivity.
Defined.

(** ** clearFolderCache *)

Lemma del_all_run (ks : list string) :
  forall w : World,
    exists c',
      fold_right (fun key rest => bind (NodeCache.del key) (fun _ => rest))
        (ret tt) ks w
      = (Ok tt, mkWorld c' (now w) (log w)) /\
      (forall k, In k ks -> c' !! k = None) /\
      (forall k, ~ In k ks -> c' !! k = cache w !! k).
Proof.
  induction ks as [|key ks IH]; intros w; simpl.
  - exists (cache w). unfold ret. split; [by destruct w|]. split; [intros ? []|auto].
  - unfold bind at 1, NodeCache.del at 1.
    destruct (IH (mkWorld (delete key (cache w)) (now w) (log w)))
      as (c' & -> & Hin & Hout).
    exists c'. simpl in *. split; [reflexivity|]. split.
    + intros k [<-|Hk]; [|by apply Hin].
      destruct (in_dec string_dec key ks) as [Hk|Hk]; [by apply Hin|].
      rewrite (Hout key Hk). apply lookup_delete_eq.
    + intros k Hk. rewrite Hout by tauto.
      apply lookup_delete_ne. intros ->. apply Hk. by left.
Qed.

(** [clearFolderCache] deletes the entries whose key contains
    [resize_<folderName>_] anywhere, and only those. *)
Lemma clearFolderCache_run (folderName : string) (w : World) :
  exists c',
    clearFolderCache folderName w = (Ok tt, mkWorld c' (now w) (log w)) /\
    forall k,
      c' !! k = if Js.includes ("resize_" +:+ folderName +:+ "_") k
                then None else cache w !! k.
Proof.
  unfold clearFolderCache, bind at 1, NodeCache.keys.
  set (pat := ("resize_" +:+ folderName +:+ "_")%string).
  set (ks := List.filter _ _).
  destruct (del_all_run ks w) as (c' & -> & Hin & Hout).
  exists c'. split; [reflexivity|]. intros k.
  destruct (Js.includes pat k) eqn:Hinc.
  - destruct (cache w !! k) as [v|] eqn:Hk.
    + apply Hin. unfold ks. apply filter_In. split; [|exact Hinc].
      apply in_map_iff. exists (k, v). split; [reflexivity|].
      apply list_elem_of_In. by apply elem_of_map_to_list.
    + destruct (in_dec string_dec k ks) as [Hks|Hks]; [by apply Hin|].
      by rewrite Hout.
  - apply Hout. unfold ks. rewrite filter_In. intros [_ H]. fold pat in H. congruence.
Qed.

Lemma startsWith_append (p s : string) : Js.startsWith p (p +:+ s) = true.
Proof.
  induction p as [|a p IH]; simpl; [reflexivity|].
  by rewrite Ascii.eqb_refl, IH.
Qed.

Lemma includes_prefix (p s : string) : Js.includes p (p +:+ s) = true.
Proof.
  destruct p; simpl; [by destruct s|].
  rewrite Ascii.eqb_refl, startsWith_append. reflexivity.
Qed.

Lemma append_assoc (a b c : string) : ((a +:+ b) +:+ c = a +:+ (b +:+ c))%string.
Proof.
  induction a as [|x a IH]; [reflexivity|].
  change (String x ((a +:+ b) +:+ c) = String x (a +:+ (b +:+ c))).
  by rewrite IH.
Qed.

(** A key starts with [resize_<folderName>_]. *)
Lemma generateCacheKey_prefix (folderName : string) (width height : Dim)
    (imageUrl : string) :
  generateCacheKey folderName width height imageUrl
  = (("resize_" +:+ folderName +:+ "_")
       +:+ (dimToString width +:+ "x" +:+ dimToString height +:+ "_"
              +:+ hashString imageUrl))%string.
Proof. unfold generateCacheKey. rewrite !append_assoc. reflexivity. Qed.

(** Every key of the folder is deleted. *)
Lemma clearFolderCache_clears_folder (folderName : string) (width height : Dim)
    (imageUrl : string) (w : World) :
  cache (snd (clearFolderCache folderName w))
    !! generateCacheKey folderName width height imageUrl = None.
Proof.
  destruct (clearFolderCache_run folderName w) as (c' & -> & Hc). simpl.
  by rewrite Hc, generateCacheKey_prefix, includes_prefix.
Qed.

(** An entry whose key does not contain [resize_<folderName>_] is kept. *)
Lemma clearFolderCache_keeps (folderName key : string) (w : World) :
  Js.includes ("resize_" +:+ folderName +:+ "_") key = false ->
  cache (snd (clearFolderCache folderName w)) !! key = cache w !! key.
Proof.
  intros Hk. destruct (clearFolderCache_run folderName w) as (c' & -> & Hc).
  simpl. by rewrite Hc, Hk.
Qed.

(** C8, on the code.  Clearing the folder [2024] also deletes the entry of
    an image of the folder [2024_summer], whose key contains
    [resize_2024_]. *)
Theorem clearFolderCache_evicts_other_folder :
  let key :=
    generateCacheKey "2024_summer" (DimNum 100) DimNull "https://x/a.png" in
  key = "resize_2024_summer_100xnull_gjpt1x"%string /\
  cache Demo.worldSummer !! key = Some (Demo.entry0, 3601000) /\
  cache (snd (clearFolderCache "2024" Demo.worldSummer)) !! key = None.
Proof.
  cbv zeta. split; [reflexivity|]. split; [reflexivity|].
  destruct (clearFolderCache_run "2024" Demo.worldSummer) as (c' & -> & Hc).
  simpl. rewrite Hc. reflexivity.
Qed.

(** * The cache contract *)

Section CacheFacts.

Variable env : Env.
Variable folderName : string.
Variables width height : Dim.

Local Abbreviation keyOf f :=
  (generateCacheKey folderName width height (fileUrl f)).

Lemma Forall2_In_r {A B} (R : A -> B -> Prop) (l : list A) (l' : list B) (y : B) :
  Forall2 R l l' -> In y l' -> exists x, In x l /\ R x y.
Proof.
  induction 1 as [|a b l l' Hab _ IH]; intros Hy; [destruct Hy|].
  destruct Hy as [<-|Hy].
  - exists a. split; [by left|exact Hab].
  - destruct (IH Hy) as (x & Hx & Hr). exists x. split; [by right|exact Hr].
Qed.

(** A success of the pipeline is a fresh record that the second loop
    stores under the key of its file. *)
Lemma producedBy_resized (backgroundColor : option string) (f : SourceFile)
    (x : ProcessedResult) :
  producedBy env width height backgroundColor f x ->
  isResized x = true ->
  cacheable x = true /\ isCached x = Some false /\
  resultKey folderName width height x = Some (keyOf f).
Proof.
  intros (k & ->) Hres.
  destruct (singleResult_cases env f width height backgroundColor k)
    as [E | [(? & E) | (url & d & a & fmt & E)]];
    cbv zeta in E; rewrite E in *; try discriminate.
  repeat split; reflexivity.
Qed.

Lemma cacheable_isResized (x : ProcessedResult) :
  cacheable x = true -> isResized x = true.
Proof. unfold cacheable. by intros [? _]%andb_prop. Qed.

(** A file whose entry can still be read is served from the cache by a
    call without purge, and no request is made for its URL. *)
Lemma processFolderImages_hit (files : list SourceFile)
    (backgroundColor : option string) (w : World) (f : SourceFile)
    (e : CacheEntry) :
  In f files -> live w (keyOf f) e ->
  exists results w' evs,
    processFolderImages env files folderName width height false
      backgroundColor w = (Ok results, w') /\
    log w' = evs ++ log w /\
    In (cachedResult f e) results /\
    ~ In (EvDownload (fileUrl f)) evs.
Proof.
  intros Hf Hlive.
  destruct (processFolderImages_run env files folderName width height false
              backgroundColor w)
    as (hits & misses & w1 & xs & evs & t & Hpost & Hxs & -> & _ & Hev & _).
  destruct Hpost as (_ & _ & _ & Hmiss & Hhit & _).
  do 3 eexists. split; [reflexivity|]. split; [reflexivity|]. split.
  - apply in_or_app. left. by apply Hhit.
  - intros Hin. rewrite List.Forall_forall in Hev.
    destruct (Hev _ Hin) as [(ms & [=]) | (f' & Hf' & _ & [= Hurl])].
    destruct (Hmiss f' Hf') as [_ [[=]|Hn]].
    apply (Hn e). rewrite <- Hurl. exact Hlive.
Qed.

(** What one call of [processSingleImageByName] does for the file it
    finds: either the entry of its key can be read and is served, or the
    pipeline runs once and its success is stored. *)
Lemma processSingleImageByName_run (imageName : string)
    (files : list SourceFile) (purgeCache : bool) (w : World) (f : SourceFile) :
  findByName imageName files = Some f ->
  (exists e, purgeCache = false /\ live w (keyOf f) e /\
     processSingleImageByName env folderName imageName files width height
       purgeCache w = (Ok (cachedResult f e), w)) \/
  (exists w1, (purgeCache = true \/ forall e, ~ live w (keyOf f) e) /\
     sameLive w w1 /\ (purgeCache = true -> w1 = w) /\
     let x := singleResult env f width height None
                (downloadsOf (fileUrl f) (log w)) in
     processSingleImageByName env folderName imageName files width height
       purgeCache w
     = (Ok x,
        mkWorld
          (if cacheable x
           then <[keyOf f := (entryOf x (now w), now w + NodeCache.stdTTL * 1000)]>
                  (cache w1)
           else cache w1)
          (now w) (downloadEvents f ++ log w))).
Proof.
  intros Hfind. unfold processSingleImageByName. rewrite Hfind.
  destruct (cacheUsable_run purgeCache (keyOf f) w)
    as (hit & w1 & Hcu & Hs & Hhit & Hmiss & Hpurge).
  destruct hit.
  - left. destruct (Hhit eq_refl) as (Hnp & -> & e & He).
    exists e. split; [exact Hnp|]. split; [exact He|].
    unfold bind at 1. rewrite Hcu.
    unfold bind at 1. rewrite (get_live _ _ _ He). reflexivity.
  - right. exists w1. split; [by apply Hmiss|]. split; [exact Hs|].
    split; [intros Hp; by destruct (Hpurge Hp)|].
    cbv zeta. unfold bind at 1. rewrite Hcu.
    unfold bind at 1. rewrite processSingleImage_run.
    destruct Hs as (Hn & Hl & _). rewrite Hl.
    set (x := singleResult env f width height None _).
    fold (cacheable x).
    destruct (cacheable x); unfold bind, dateNow, NodeCache.set, ret, extend;
      simpl; rewrite Hn, Hl; reflexivity.
Qed.

(** The entry left by a call of [processFolderImages] under the key of a
    fresh success [x], when [x] is the only result of the call stored under
    that key. *)
Lemma processFolderImages_stores (files : list SourceFile) (purgeCache : bool)
    (backgroundColor : option string) (w0 w1 : World)
    (results : list ProcessedResult) (x : ProcessedResult) (f : SourceFile) :
  processFolderImages env files folderName width height purgeCache
    backgroundColor w0 = (Ok results, w1) ->
  In x results -> file x = Some f ->
  isResized x = true -> isCached x = Some false ->
  (forall y, In y results -> isResized y = true -> isCached y = Some false ->
             resultKey folderName width height y
             = resultKey folderName width height x -> y = x) ->
  cache w1 !! keyOf f
  = Some (entryOf x (now w1), now w1 + NodeCache.stdTTL * 1000).
Proof.
  intros Hrun Hx Hfile Hres Hfresh Huniq.
  destruct (processFolderImages_run env files folderName width height
              purgeCache backgroundColor w0)
    as (hits & misses & w' & xs & evs & t & Hpost & Hxs & Heq & _).
  rewrite Heq in Hrun. injection Hrun as <- <-. simpl.
  destruct Hpost as (_ & _ & Hhits & _).
  apply in_app_or in Hx as [Hx|Hx].
  { destruct (Hhits x Hx) as (? & ? & _ & _ & _ & ->). discriminate. }
  destruct (Forall2_In_r _ _ _ _ Hxs Hx) as (f' & _ & Hprod).
  pose proof (producedBy_file env _ _ _ _ _ Hprod) as Hf'.
  rewrite Hfile in Hf'. injection Hf' as <-.
  destruct (producedBy_resized _ _ _ Hprod Hres) as (Hc & _ & Hkey).
  destruct (storeAll_stored folderName width height t (keyOf f) (cache w') xs)
    as (y & Hy & Hcy & Hky & ->); [eauto|].
  destruct (Forall2_In_r _ _ _ _ Hxs Hy) as (fy & _ & Hprody).
  destruct (producedBy_resized _ _ _ Hprody (cacheable_isResized _ Hcy))
    as (_ & Hfy & _).
  rewrite (Huniq y); auto.
  - apply in_or_app. by right.
  - by apply cacheable_isResized.
  - congruence.
Qed.

End CacheFacts.

(** C2, on the code.  The URLs of [a2.png] and [cp.png] have the same
    [hashString], hence the same key.  A first request resizes both
    (1400x16 and 1464x16) and the entry of the second overwrites the entry
    of the first; the next request for [a2.png] is served from the cache,
    without a download, with the dimensions of [cp.png]. *)
Theorem cache_round_trip_collision :
  let call1 := Demo.request [Demo.fileA2; Demo.fileCP] false Demo.world0 in
  let call2 := Demo.request [Demo.fileA2] false (snd call1) in
  Demo.summary (fst call1)
  = [(Some "a2.png", true, Some false, Some (mkDimensions 1400 16), Some "jpeg");
     (Some "cp.png", true, Some false, Some (mkDimensions 1464 16), Some "jpeg")]%string /\
  Demo.summary (fst call2)
  = [(Some "a2.png", true, Some true, Some (mkDimensions 1464 16), Some "jpeg")]%string /\
  log (snd call2) = log (snd call1).
Proof. vm_compute. repeat split; reflexivity. Qed.

(** An entry is served for [stdTTL] seconds: one millisecond later the
    same request downloads the file again. *)
Example cache_entry_expires :
  let fresh := mkWorld (cache Demo.world1) (now Demo.world1 + 3600000) [] in
  let stale := mkWorld (cache Demo.world1) (now Demo.world1 + 3600001) [] in
  Demo.summary (fst (Demo.request [Demo.fileA] false fresh))
  = [(Some "a.png"%string, true, Some true, Some (mkDimensions 1350 15),
      Some "jpeg"%string)] /\
  log (snd (Demo.request [Demo.fileA] false fresh)) = [] /\
  Demo.summary (fst (Demo.request [Demo.fileA] false stale))
  = [(Some "a.png"%string, true, Some false, Some (mkDimensions 1350 15),
      Some "jpeg"%string)] /\
  log (snd (Demo.request [Demo.fileA] false stale))
  = [EvDownload "https://x/a.png"].
Proof. vm_compute. repeat split; reflexivity. Qed.

(** The round trip holds apart from shared keys.  After a call has
    freshly resized a file [f] into the result [x], and provided [x] is the
    only result of that call stored under the key of [f], a call without
    purge for a file with the same URL, made while the entry is in the
    cache and not older than the TTL, returns a record with
    [isCached = true] and the dimensions and output format of [x], and
    makes no request for the URL.  Whole-folder calls first, single-image
    calls second (there the proviso is void). *)
Lemma cache_round_trip (env : Env) (folderName : string) (width height : Dim) :
  (forall files purgeCache backgroundColor w0 results w1 x f
          w2 files2 backgroundColor2 f2,
     processFolderImages env files folderName width height purgeCache
       backgroundColor w0 = (Ok results, w1) ->
     In x results -> file x = Some f ->
     isResized x = true -> isCached x = Some false ->
     (forall y, In y results -> isResized y = true -> isCached y = Some false ->
                resultKey folderName width height y
                = resultKey folderName width height x -> y = x) ->
     cache w2 !! generateCacheKey folderName width height (fileUrl f)
     = cache w1 !! generateCacheKey folderName width height (fileUrl f) ->
     now w2 <= now w1 + NodeCache.stdTTL * 1000 ->
     In f2 files2 -> fileUrl f2 = fileUrl f ->
     exists results2 w3 evs y,
       processFolderImages env files2 folderName width height false
         backgroundColor2 w2 = (Ok results2, w3) /\
       log w3 = evs ++ log w2 /\ ~ In (EvDownload (fileUrl f)) evs /\
       In y results2 /\ file y = Some f2 /\
       isResized y = true /\ isCached y = Some true /\
       dimensions y = dimensions x /\ outputFormat y = outputFormat x) /\
  (forall imageName files purgeCache w0 x w1 f w2 imageName2 files2 f2,
     processSingleImageByName env folderName imageName files width height
       purgeCache w0 = (Ok x, w1) ->
     file x = Some f ->
     isResized x = true -> isCached x = Some false ->
     cache w2 !! generateCacheKey folderName width height (fileUrl f)
     = cache w1 !! generateCacheKey folderName width height (fileUrl f) ->
     now w2 <= now w1 + NodeCache.stdTTL * 1000 ->
     findByName imageName2 files2 = Some f2 -> fileUrl f2 = fileUrl f ->
     exists y,
       processSingleImageByName env folderName imageName2 files2 width height
         false w2 = (Ok y, w2) /\
       file y = Some f2 /\
       isResized y = true /\ isCached y = Some true /\
       dimensions y = dimensions x /\ outputFormat y = outputFormat x).
Proof.
  split.
  - intros files purgeCache backgroundColor w0 results w1 x f w2 files2
      backgroundColor2 f2 Hrun Hx Hfile Hres Hfresh Huniq Hsame Hnow Hf2 Hurl.
    pose proof (processFolderImages_stores env folderName width height files
                  purgeCache backgroundColor w0 w1 results x f Hrun Hx Hfile
                  Hres Hfresh Huniq) as Hstored.
    assert (Hlive : live w2 (generateCacheKey folderName width height (fileUrl f2))
                      (entryOf x (now w1))).
    { rewrite Hurl. eexists. split; [by rewrite Hsame, Hstored | exact Hnow]. }
    destruct (processFolderImages_hit env folderName width height files2
                backgroundColor2 w2 f2 _ Hf2 Hlive)
      as (results2 & w3 & evs & Hrun2 & Hlog & Hin & Hno).
    exists results2, w3, evs, (cachedResult f2 (entryOf x (now w1))).
    rewrite <- Hurl. repeat split; auto.
  - intros imageName files purgeCache w0 x w1 f w2 imageName2 files2 f2
      Hrun Hfile Hres Hfresh Hsame Hnow Hfind2 Hurl.
    assert (Hstored :
              cache w1 !! generateCacheKey folderName width height (fileUrl f)
              = Some (entryOf x (now w1), now w1 + NodeCache.stdTTL * 1000)).
    { destruct (findByName imageName files) as [f'|] eqn:Hfind.
      - destruct (processSingleImageByName_run env folderName width height
                    imageName files purgeCache w0 f' Hfind)
          as [(e & _ & _ & Heq) | (w' & _ & _ & _ & Heq)];
          cbv zeta in Heq; rewrite Heq in Hrun; injection Hrun as <- <-;
          [discriminate|].
        rewrite singleResult_file in Hfile. injection Hfile as ->.
        assert (Hprod : producedBy env width height None f
                          (singleResult env f width height None
                             (downloadsOf (fileUrl f) (log w0))))
          by (eexists; reflexivity).
        destruct (producedBy_resized env folderName width height None f _
                    Hprod Hres) as (-> & _). simpl.
        by rewrite lookup_insert_eq.
      - unfold processSingleImageByName in Hrun. rewrite Hfind in Hrun.
        discriminate. }
    assert (Hlive : live w2 (generateCacheKey folderName width height (fileUrl f2))
                      (entryOf x (now w1))).
    { rewrite Hurl. eexists. split; [by rewrite Hsame, Hstored | exact Hnow]. }
    destruct (processSingleImageByName_run env folderName width height
                imageName2 files2 false w2 f2 Hfind2)
      as [(e & _ & (t & He & _) & Heq) | (w' & [[=]|Hn] & _)].
    + destruct Hlive as (t' & He' & _). rewrite He in He'. injection He' as -> _.
      eexists. split; [exact Heq|]. repeat split; reflexivity.
    + exfalso. by eapply Hn.
Qed.

Example cache_round_trip_demo :
  exists results2 w3 evs y,
    processFolderImages Demo.demoEnv [Demo.fileA; Demo.fileB] "demo" (DimNum 100)
      DimNull false None Demo.world1 = (Ok results2, w3) /\
    log w3 = evs ++ log Demo.world1 /\
    ~ In (EvDownload (fileUrl Demo.fileA)) evs /\
    In y results2 /\ file y = Some Demo.fileA /\
    isResized y = true /\ isCached y = Some true /\
    dimensions y = dimensions Demo.resultA /\
    outputFormat y = outputFormat Demo.resultA.
Proof.
  apply (proj1 (cache_round_trip Demo.demoEnv "demo" (DimNum 100) DimNull)
           [Demo.fileA; Demo.fileB] false None Demo.world0
           [Demo.resultA; Demo.resultB] Demo.world1 Demo.resultA Demo.fileA
           Demo.world1 [Demo.fileA; Demo.fileB] None Demo.fileA).
  - vm_compute. reflexivity.
  - left. reflexivity.
  - reflexivity.
  - reflexivity.
  - reflexivity.
  - intros y [<-|[<-|[]]] _ _ Hk; [reflexivity|].
    vm_compute in Hk. discriminate Hk.
  - reflexivity.
  - vm_compute. discriminate.
  - left. reflexivity.
  - reflexivity.
Qed.

(** ** Purge *)



(** * The cache key *)

(** ** Numerals *)

Lemma digitChar_code (d : Z) :
  0 <= d < 36 ->
  Z.of_N (Ascii.N_of_ascii (Js.digitChar d)) = if d <? 10 then 48 + d else 87 + d.
Proof.
  intros Hd. unfold Js.digitChar.
  rewrite Ascii.N_ascii_embedding; destruct (Z.ltb_spec d 10); lia.
Qed.

Lemma digitValue_digitChar (d : Z) : 0 <= d < 36 -> digitValue (Js.digitChar d) = d.
Proof.
  intros Hd. unfold digitValue. rewrite digitChar_code by exact Hd.
  destruct (Z.ltb_spec d 10).
  - destruct (Z.ltb_spec (48 + d) 58); lia.
  - destruct (Z.ltb_spec (87 + d) 58); lia.
Qed.

Lemma toDigits_decode (radix : Z) (fuel : nat) :
  2 <= radix <= 36 ->
  forall (n : Z) (acc : string),
    0 <= n < 2 ^ Z.of_nat fuel ->
    decodeDigits radix (Js.toDigits fuel radix n acc) 0 = decodeDigits radix acc n.
Proof.
  intros Hr. induction fuel as [|fuel IH]; intros n acc Hn.
  - simpl in *. f_equal. lia.
  - cbn [Js.toDigits]. cbv zeta.
    pose proof (Z.mod_pos_bound n radix ltac:(lia)) as Hmod.
    pose proof (Z.div_mod n radix ltac:(lia)) as Hdiv.
    destruct (Z.eqb_spec (n / radix) 0) as [Hq|Hq].
    + cbn [decodeDigits]. rewrite digitValue_digitChar by lia. f_equal. lia.
    + rewrite IH.
      * cbn [decodeDigits]. rewrite digitValue_digitChar by lia. f_equal. lia.
      * rewrite Nat2Z.inj_succ, Z.pow_succ_r in Hn by lia.
        split; [apply Z.div_pos; lia|].
        apply Z.div_lt_upper_bound; nia.
Qed.

Lemma natToString_decode (radix n : Z) :
  2 <= radix <= 36 -> 0 <= n -> decodeDigits radix (Js.natToString radix n) 0 = n.
Proof.
  intros Hr Hn. unfold Js.natToString.
  rewrite toDigits_decode; [reflexivity|exact Hr|].
  split; [exact Hn|].
  rewrite Nat2Z.inj_succ, Z2Nat.id by apply Z.log2_nonneg.
  destruct (Z.eq_dec n 0) as [->|Hne]; [reflexivity|].
  apply Z.log2_spec. lia.
Qed.

(** Distinct non-negative integers have distinct numerals. *)
Lemma natToString_inj (radix a b : Z) :
  2 <= radix <= 36 -> 0 <= a -> 0 <= b ->
  Js.natToString radix a = Js.natToString radix b -> a = b.
Proof.
  intros Hr Ha Hb Heq.
  rewrite <- (natToString_decode radix a), <- (natToString_decode radix b) by auto.
  by rewrite Heq.
Qed.

Lemma toDigits_hasChar (c : ascii) (radix : Z) (fuel : nat) :
  0 < radix ->
  (forall d, 0 <= d < radix -> Ascii.eqb (Js.digitChar d) c = false) ->
  forall (n : Z) (acc : string),
    hasChar c acc = false -> hasChar c (Js.toDigits fuel radix n acc) = false.
Proof.
  intros Hr Hc. induction fuel as [|fuel IH]; intros n acc Hacc; [exact Hacc|].
  cbn [Js.toDigits]. cbv zeta.
  assert (Hacc' : hasChar c (String (Js.digitChar (n mod radix)) acc) = false).
  { cbn [hasChar]. rewrite Hc, Hacc; [reflexivity|].
    apply Z.mod_pos_bound. exact Hr. }
  destruct (n / radix =? 0); [exact Hacc'|]. by apply IH.
Qed.

(** A character that is no digit of the radix is not in a numeral. *)
Lemma natToString_hasChar (c : ascii) (radix n : Z) :
  0 < radix <= 36 ->
  (forall d, 0 <= d < radix ->
             Z.of_N (Ascii.N_of_ascii c) <> if d <? 10 then 48 + d else 87 + d) ->
  hasChar c (Js.natToString radix n) = false.
Proof.
  intros Hr Hc. unfold Js.natToString.
  apply toDigits_hasChar; [lia| |reflexivity].
  intros d Hd. apply Ascii.eqb_neq. intros <-.
  apply (Hc d Hd). apply digitChar_code. lia.
Qed.

Lemma hasChar_app (c : ascii) (s t : string) :
  hasChar c (s +:+ t) = hasChar c s || hasChar c t.
Proof.
  induction s as [|d s IH]; [reflexivity|].
  change (hasChar c (String d (s +:+ t))
          = hasChar c (String d s) || hasChar c t).
  cbn [hasChar]. rewrite IH. by rewrite orb_assoc.
Qed.

Lemma intToString_hasChar (c : ascii) (n : Z) :
  Z.of_N (Ascii.N_of_ascii c) <> 45 ->
  (forall d, 0 <= d < 10 -> Z.of_N (Ascii.N_of_ascii c) <> 48 + d) ->
  hasChar c (Js.intToString n) = false.
Proof.
  intros Hminus Hdigit.
  assert (Hnat : forall m, hasChar c (Js.natToString 10 m) = false).
  { intros m. apply natToString_hasChar; [lia|].
    intros d Hd. destruct (Z.ltb_spec d 10); [by apply Hdigit|lia]. }
  unfold Js.intToString. destruct (n <? 0); [|apply Hnat].
  rewrite hasChar_app, Hnat. cbn [hasChar]. rewrite !orb_false_r.
  apply Ascii.eqb_neq. intros <-. apply Hminus. reflexivity.
Qed.

Lemma intToString_inj (a b : Z) : Js.intToString a = Js.intToString b -> a = b.
Proof.
  assert (Hno : forall m, hasChar "-" (Js.natToString 10 m) = false).
  { intros m. apply natToString_hasChar; [lia|].
    intros d Hd. simpl. destruct (d <? 10); lia. }
  unfold Js.intToString.
  destruct (Z.ltb_spec a 0) as [Ha|Ha], (Z.ltb_spec b 0) as [Hb|Hb]; intros Heq.
  - apply String.app_inj in Heq.
    apply natToString_inj in Heq; lia.
  - apply (f_equal (hasChar "-")) in Heq. rewrite Hno in Heq. discriminate.
  - apply (f_equal (hasChar "-")) in Heq. rewrite Hno in Heq. discriminate.
  - apply natToString_inj in Heq; lia.
Qed.

Lemma dimToString_hasChar (c : ascii) (d : Dim) :
  c = "_"%char \/ c = "x"%char -> hasChar c (dimToString d) = false.
Proof.
  intros Hc. destruct d as [| | |n]; try (destruct Hc as [->| ->]; reflexivity).
  apply intToString_hasChar; destruct Hc as [->| ->]; simpl; intros; lia.
Qed.

Lemma dimToString_inj (d1 d2 : Dim) : dimToString d1 = dimToString d2 -> d1 = d2.
Proof.
  assert (Hn : forall n, hasChar "n" (Js.intToString n) = false)
    by (intros n; apply intToString_hasChar; simpl; intros; lia).
  assert (Ha : forall n, hasChar "a" (Js.intToString n) = false)
    by (intros n; apply intToString_hasChar; simpl; intros; lia).
  destruct d1 as [| | |n1], d2 as [| | |n2]; simpl; intros Heq;
    try reflexivity; try discriminate;
    try (apply (f_equal (hasChar "n")) in Heq; rewrite Hn in Heq; discriminate);
    try (apply (f_equal (hasChar "a")) in Heq; rewrite Ha in Heq; discriminate).
  f_equal. by apply intToString_inj.
Qed.

(** ** Splitting a key at its separators *)

(** Two texts that end with the same separator followed by separator-free
    tails agree part by part. *)
Lemma split_last (c : ascii) (s1 s2 t1 t2 : string) :
  hasChar c t1 = false -> hasChar c t2 = false ->
  (s1 +:+ String c t1 = s2 +:+ String c t2)%string ->
  s1 = s2 /\ t1 = t2.
Proof.
  intros H1 H2. revert s2. induction s1 as [|a s1 IH]; intros [|b s2] Heq.
  - injection Heq as ->. auto.
  - injection Heq as -> ->.
    rewrite hasChar_app in H1. cbn [hasChar] in H1.
    rewrite Ascii.eqb_refl, orb_true_r in H1. discriminate.
  - injection Heq as -> <-.
    rewrite hasChar_app in H2. cbn [hasChar] in H2.
    rewrite Ascii.eqb_refl, orb_true_r in H2. discriminate.
  - injection Heq as -> Heq. destruct (IH _ Heq) as [-> ->]. auto.
Qed.

(** ** generateCacheKey *)

Lemma generateCacheKey_shape (folderName : string) (width height : Dim)
    (imageUrl : string) :
  generateCacheKey folderName width height imageUrl
  = (((("resize_" +:+ folderName) +:+ String "_" (dimToString width))
        +:+ String "x" (dimToString height))
       +:+ String "_" (hashString imageUrl))%string.
Proof. unfold generateCacheKey. rewrite !append_assoc. reflexivity. Qed.

Lemma hash32_range (str : string) : 0 <= hash32 str < 2 ^ 32.
Proof. unfold hash32, Js.toUint32. apply Z.mod_pos_bound. lia. Qed.

Lemma hashString_hasChar (str : string) : hasChar "_" (hashString str) = false.
Proof.
  unfold hashString. apply natToString_hasChar; [lia|].
  intros d Hd. simpl. destruct (d <? 10) eqn:E; [|lia].
  apply Z.ltb_lt in E. lia.
Qed.

Lemma hashString_eq_iff (u1 u2 : string) :
  hashString u1 = hashString u2 <-> hash32 u1 = hash32 u2.
Proof.
  split; intros Heq.
  - apply (natToString_inj 36); [lia|apply hash32_range..|exact Heq].
  - unfold hashString. fold (hash32 u1) (hash32 u2). by rewrite Heq.
Qed.

Example hash32_collision :
  hash32 "https://x/a2.png" = 2961187495 /\ hash32 "https://x/cp.png" = 2961187495.
Proof. split; vm_compute; reflexivity. Qed.

(** C3.  [generateCacheKey] is a function of its four arguments: two
    evaluations on equal tuples give the same key. *)
Theorem generateCacheKey_deterministic (folderName folderName' : string)
    (width width' height height' : Dim) (imageUrl imageUrl' : string) :
  folderName = folderName' -> width = width' -> height = height' ->
  imageUrl = imageUrl' ->
  generateCacheKey folderName width height imageUrl
  = generateCacheKey folderName' width' height' imageUrl'.
Proof. intros -> -> -> ->. reflexivity. Qed.

Lemma generateCacheKey_deterministic_witness :
  generateCacheKey "demo" (DimNum 100) DimNull "https://x/a.png"
  = generateCacheKey "demo" (DimNum (50 + 50)) DimNull ("https://x/" +:+ "a.png").
Proof.
  apply generateCacheKey_deterministic; reflexivity.
Defined.

(** The key of the serverless handler tells the URLs of one folder and
    size apart. *)
Lemma handlerCacheKey_url_inj (folderName : string) (width height : Dim)
    (url1 url2 : string) :
  handlerCacheKey folderName width height url1
  = handlerCacheKey folderName width height url2 -> url1 = url2.
Proof.
  unfold handlerCacheKey. intros Heq.
  repeat apply String.app_inj in Heq. exact Heq.
Qed.

(** C4, on the code.  Two distinct URLs of one folder and one size with
    the same key. *)
Theorem generateCacheKey_collision :
  "https://x/a2.png"%string <> "https://x/cp.png"%string /\
  generateCacheKey "demo" (DimNum 100) DimNull "https://x/a2.png"
  = generateCacheKey "demo" (DimNum 100) DimNull "https://x/cp.png".
Proof. split; [discriminate|vm_compute; reflexivity]. Qed.

(** What the key does tell apart.  Two tuples have the same key exactly
    when they have the same folder name, width and height and their URLs
    have the same 32-bit hash.  So tuples that differ in the folder or in a
    dimension never share a key, and two URLs of one folder and size share
    it exactly when [hashString] does not tell them apart. *)
Lemma generateCacheKey_eq_iff (folderName1 folderName2 : string)
    (width1 width2 height1 height2 : Dim) (imageUrl1 imageUrl2 : string) :
  generateCacheKey folderName1 width1 height1 imageUrl1
  = generateCacheKey folderName2 width2 height2 imageUrl2
  <-> folderName1 = folderName2 /\ width1 = width2 /\ height1 = height2 /\
      hash32 imageUrl1 = hash32 imageUrl2.
Proof.
  split.
  - rewrite !generateCacheKey_shape. intros Heq.
    apply split_last in Heq as [Heq Hu]; try apply hashString_hasChar.
    apply split_last in Heq as [Heq Hh];
      try (apply dimToString_hasChar; by right).
    apply split_last in Heq as [Heq Hw];
      try (apply dimToString_hasChar; by left).
    apply String.app_inj in Heq.
    apply dimToString_inj in Hw, Hh. apply hashString_eq_iff in Hu. auto.
  - intros (-> & -> & -> & Hu). apply hashString_eq_iff in Hu.
    unfold generateCacheKey. by rewrite Hu.
Qed.

Example generateCacheKey_eq_iff_demo :
  hash32 "https://x/a2.png" = hash32 "https://x/cp.png" /\
  generateCacheKey "demo" (DimNum 100) DimNull "https://x/a2.png"
  = generateCacheKey "demo" (DimNum 100) DimNull "https://x/cp.png" /\
  (generateCacheKey "demo" (DimNum 100) DimNull "https://x/a.png"
   = generateCacheKey "demo_100xnull" (DimNum 100) DimNull "https://x/a.png"
   -> False).
Proof.
  split; [vm_compute; reflexivity|]. split.
  - apply (proj2 (generateCacheKey_eq_iff "demo" "demo" (DimNum 100) (DimNum 100)
                    DimNull DimNull "https://x/a2.png" "https://x/cp.png")).
    repeat split; vm_compute; reflexivity.
  - intros Heq.
    apply (proj1 (generateCacheKey_eq_iff "demo" "demo_100xnull" (DimNum 100)
                    (DimNum 100) DimNull DimNull "https://x/a.png"
                    "https://x/a.png")) in Heq.
    destruct Heq as [Heq _]. discriminate Heq.
Qed.

(** * Further properties of the service *)

(** ** Formats *)

Lemma determineOutputFormat_cases (originalUrl : string) (hasAlpha : bool) :
  determineOutputFormat originalUrl hasAlpha = "webp"%string \/
  (hasAlpha = true /\ determineOutputFormat originalUrl hasAlpha = "png"%string) \/
  (hasAlpha = false /\ determineOutputFormat originalUrl hasAlpha = "jpeg"%string).
Proof.
  unfold determineOutputFormat.
  destruct hasAlpha, (String.eqb (originalFormatOf originalUrl) "webp"); auto.
Qed.

(** ** The background colour *)

Lemma resizeImage_background (env : Env) (imageBuffer : Buffer)
    (width height : Dim) (originalUrl : string) (hasAlpha : bool)
    (bg1 bg2 : option string) :
  resizeImage env imageBuffer width height
    (determineOutputFormat originalUrl hasAlpha) hasAlpha bg1
  = resizeImage env imageBuffer width height
      (determineOutputFormat originalUrl hasAlpha) hasAlpha bg2.
Proof.
  unfold resizeImage.
  destruct (determineOutputFormat_cases originalUrl hasAlpha)
    as [E | [[-> E] | [-> E]]]; rewrite E; reflexivity.
Qed.

Lemma singleResult_background (env : Env) (f : SourceFile) (width height : Dim)
    (bg1 bg2 : option string) (k : nat) :
  singleResult env f width height bg1 k = singleResult env f width height bg2 k.
Proof.
  unfold singleResult, pipelineOutcome.
  destruct (isSupportedFormat (fileUrl f)); simpl; [|reflexivity].
  destruct (net env (fileUrl f) k) as [buf|e]; [|reflexivity].
  destruct (hasTransparency env buf) as [a|e]; [|reflexivity].
  by rewrite (resizeImage_background env buf width height (fileUrl f) a bg1 bg2).
Qed.

Lemma allSettled_ext {A} (g1 g2 : SourceFile -> M A) (l : list SourceFile) :
  (forall f w, g1 f w = g2 f w) ->
  forall w, allSettled (map g1 l) w = allSettled (map g2 l) w.
Proof.
  intros Hext. induction l as [|f l IH]; intros w; simpl; [reflexivity|].
  rewrite Hext. destruct (g2 f w) as [o w1]. by rewrite IH.
Qed.

Lemma batchLoop_background (env : Env) (folderName : string)
    (width height : Dim) (bg1 bg2 : option string) (files : list SourceFile)
    (fuel : nat) :
  forall (i : nat) (acc : list ProcessedResult) (w : World),
    batchLoop env fuel i files folderName width height bg1 acc w
    = batchLoop env fuel i files folderName width height bg2 acc w.
Proof.
  induction fuel as [|fuel IH]; intros i acc w; [reflexivity|].
  simpl. destruct (i <? length files)%nat; [|reflexivity].
  rewrite (allSettled_ext
             (fun f => processSingleImageWithRetry env f folderName width height bg1 2)
             (fun f => processSingleImageWithRetry env f folderName width height bg2 2)).
  - destruct (allSettled _ w) as [rs w1]. unfold bind.
    destruct ((if (i + batchSizeOf (options env) <? length files)%nat
               then sleep 10 else ret tt) _) as [[[]|e] w2]; [|reflexivity].
    apply IH.
  - intros f w0. rewrite !processSingleImageWithRetry_run, !processSingleImage_run.
    by rewrite (singleResult_background env f width height bg1 bg2).
Qed.

(** X2.  The background colour is never used.  The only encoder that
    flattens is jpeg, and jpeg is chosen for opaque images only, so two
    calls that differ in [backgroundColor] alone return the same results
    and leave the same state. *)
Theorem processFolderImages_background (env : Env) (files : list SourceFile)
    (folderName : string) (width height : Dim) (purgeCache : bool)
    (bg1 bg2 : option string) (w : World) :
  processFolderImages env files folderName width height purgeCache bg1 w
  = processFolderImages env files folderName width height purgeCache bg2 w.
Proof.
  unfold processFolderImages, bind.
  destruct (firstPass files folderName width height purgeCache w)
    as [[[hits misses]|e] w1]; [|reflexivity].
  cbn [fst snd]. destruct (length misses =? 0)%nat; [reflexivity|].
  unfold processBatches.
  by rewrite (batchLoop_background env folderName width height
                (Some (default "#ffffff"%string bg1))
                (Some (default "#ffffff"%string bg2))).
Qed.

(** ** Files of an unsupported format *)

(** X3.  An unsupported format stops the pipeline before the download.  For
    a file whose extension is not in the allow-list, the retrying method
    and the single-image entry point (called with purge) return the
    [Unsupported format] record and leave the state as it was: no request,
    no wait, nothing cached. *)
Theorem unsupported_short_circuit (env : Env) (f : SourceFile)
    (folderName : string) (width height : Dim)
    (backgroundColor : option string) (retries : nat) (w : World) :
  isSupportedFormat (fileUrl f) = false ->
  processSingleImageWithRetry env f folderName width height backgroundColor
    retries w = (Ok (unsupportedResult f), w) /\
  (forall imageName files,
     findByName imageName files = Some f ->
     processSingleImageByName env folderName imageName files width height
       true w = (Ok (unsupportedResult f), w)).
Proof.
  intros Hs.
  assert (Hx : forall bg k, singleResult env f width height bg k = unsupportedResult f)
    by (intros bg k; unfold singleResult; by rewrite Hs).
  assert (Hev : downloadEvents f = []) by (unfold downloadEvents; by rewrite Hs).
  split.
  - rewrite processSingleImageWithRetry_run, processSingleImage_run, Hx, Hev.
    by rewrite extend_nil.
  - intros imageName files Hfind.
    destruct (processSingleImageByName_run env folderName width height
                imageName files true w f Hfind)
      as [(e & [=] & _) | (w1 & _ & _ & Hw1 & Heq)].
    cbv zeta in Heq. rewrite Heq, Hx, Hev, (Hw1 eq_refl). simpl.
    by destruct w.
Qed.

Lemma unsupported_short_circuit_witness :
  isSupportedFormat (fileUrl Cases.fileBmp) = false /\
  processSingleImageWithRetry Demo.demoEnv Cases.fileBmp "demo" (DimNum 100)
    DimNull None 2 Demo.world1
  = (Ok (unsupportedResult Cases.fileBmp), Demo.world1).
Proof.
  split; [reflexivity|].
  apply (unsupported_short_circuit Demo.demoEnv Cases.fileBmp "demo" (DimNum 100)
           DimNull None 2 Demo.world1).
  reflexivity.
Defined.

(** ** Finding the image by name *)

(** ** Keys of different folders and sizes *)

(** X5.  The key separates folders and sizes.  Two requests that differ in
    the folder name, in the width or in the height never share a cache
    key, whatever their URLs: a folder name that itself contains
    underscores, digits or an [x] cannot imitate another request. *)
Theorem generateCacheKey_separates (folderName1 folderName2 : string)
    (width1 width2 height1 height2 : Dim) (imageUrl1 imageUrl2 : string) :
  (folderName1, width1, height1) <> (folderName2, width2, height2) ->
  generateCacheKey folderName1 width1 height1 imageUrl1
  <> generateCacheKey folderName2 width2 height2 imageUrl2.
Proof.
  intros Hne Heq. apply generateCacheKey_eq_iff in Heq as (-> & -> & -> & _).
  by apply Hne.
Qed.

Lemma generateCacheKey_separates_witness :
  generateCacheKey "demo" (DimNum 100) DimNull "https://x/a.png"
  <> generateCacheKey "demo_100xnull" (DimNum 100) DimNull "https://x/a.png" /\
  generateCacheKey "demo" (DimNum 10) (DimNum 0) "https://x/a.png"
  <> generateCacheKey "demo" (DimNum 1) (DimNum 0) "https://x/a.png".
Proof.
  split; apply generateCacheKey_separates; discriminate.
Defined.

(** ** The retry loop *)

(** X6.  The backoff of the retry loop.  Around a call that fails every
    time, the loop makes [remaining + 1] attempts, waits [2^k] seconds
    after attempt [k], so [2^(attempt + remaining) - 2^attempt] seconds in
    all, logs the failure and returns it as a record without raising. *)
Theorem retryLoop_backoff (attempted : M ProcessedResult) (ev : Event)
    (msg : string) (retries : Z) (f : SourceFile) :
  (forall w, attempted w = (Throw msg, extend [ev] w)) ->
  forall (remaining : nat) (attempt : Z) (w : World),
    0 <= attempt ->
    exists text,
      retryLoop attempted remaining attempt retries f w
      = (Ok (failedResult f msg),
         mkWorld (cache w)
           (now w + 1000 * (2 ^ (attempt + Z.of_nat remaining) - 2 ^ attempt))
           (EvConsoleError text :: rev (retryTrace ev remaining attempt) ++ log w)).
Proof.
  intros Hfail. induction remaining as [|remaining IH]; intros attempt w Ha.
  - eexists. simpl. unfold tryCatch. rewrite Hfail. simpl.
    rewrite Z.add_0_r, Z.sub_diag, Z.mul_0_r, Z.add_0_r. reflexivity.
  - simpl retryLoop. unfold tryCatch. rewrite Hfail.
    unfold bind at 1, sleep at 1.
    destruct (IH (attempt + 1) (mkWorld (cache (extend [ev] w))
                                  (now (extend [ev] w) + 2 ^ attempt * 1000)
                                  (EvSleep (2 ^ attempt * 1000) :: log (extend [ev] w))))
      as (text & ->); [lia|].
    exists text. simpl. f_equal. f_equal.
    + rewrite Nat2Z.inj_succ.
      replace (attempt + 1 + Z.of_nat remaining)
        with (attempt + Z.succ (Z.of_nat remaining)) by lia.
      rewrite (Z.pow_add_r 2 attempt 1) by lia. lia.
    + rewrite <- !app_assoc. reflexivity.
Qed.

Lemma retryLoop_backoff_witness :
  exists text,
    retryLoop Cases.failingCall 2 0 2 Demo.fileA Demo.world0
    = (Ok (failedResult Demo.fileA "ECONNRESET"),
       mkWorld ∅ 4000
         [EvConsoleError text;
          EvDownload "https://x/a.png"; EvSleep 2000;
          EvDownload "https://x/a.png"; EvSleep 1000;
          EvDownload "https://x/a.png"]).
Proof.
  destruct (retryLoop_backoff Cases.failingCall (EvDownload "https://x/a.png")
              "ECONNRESET" 2 Demo.fileA (fun w => eq_refl) 2%nat 0 Demo.world0
              ltac:(lia)) as (text & Heq).
  exists text. rewrite Heq. reflexivity.
Defined.

(** ** The exact course of a whole-folder call *)

Lemma sameLive_liveEntry (w w1 : World) (key : string) :
  sameLive w w1 -> liveEntry w1 key = liveEntry w key.
Proof.
  intros (Hn & _ & Hk & Hs). unfold liveEntry, NodeCache.expired. rewrite Hn.
  destruct (cache w !! key) as [[v t]|] eqn:Hc.
  - destruct (Z.ltb_spec t (now w)) as [Hexp|Hlive].
    + destruct (cache w1 !! key) as [[v' t']|] eqn:Hc1; [|reflexivity].
      apply Hs in Hc1. rewrite Hc in Hc1. injection Hc1 as <- <-.
      destruct (Z.ltb_spec t (now w)); [reflexivity|lia].
    + rewrite (Hk key v t Hc Hlive).
      destruct (Z.ltb_spec t (now w)); [lia|reflexivity].
  - destruct (cache w1 !! key) as [[v' t']|] eqn:Hc1; [|reflexivity].
    apply Hs in Hc1. congruence.
Qed.

Lemma liveEntry_live (w : World) (key : string) (e : CacheEntry) :
  liveEntry w key = Some e <-> live w key e.
Proof.
  unfold liveEntry, live, NodeCache.expired. split.
  - destruct (cache w !! key) as [[v t]|]; [|discriminate].
    destruct (Z.ltb_spec t (now w)); [discriminate|].
    intros [= ->]. eauto.
  - intros (t & -> & Ht). destruct (Z.ltb_spec t (now w)); [lia|reflexivity].
Qed.

Lemma split_sameLive (folderName : string) (width height : Dim)
    (purgeCache : bool) (w w1 : World) (files : list SourceFile) :
  sameLive w w1 ->
  servedFromCache folderName width height purgeCache w1 files
  = servedFromCache folderName width height purgeCache w files /\
  leftToProcess folderName width height purgeCache w1 files
  = leftToProcess folderName width height purgeCache w files.
Proof.
  intros Hs. unfold servedFromCache, leftToProcess.
  destruct purgeCache; [auto|].
  induction files as [|g files [IH1 IH2]]; [auto|].
  cbn [omap list_omap List.filter].
  rewrite (sameLive_liveEntry w w1 _ Hs), IH1, IH2. auto.
Qed.

Lemma firstPass_exact (folderName : string) (width height : Dim)
    (purgeCache : bool) (files : list SourceFile) :
  forall w : World,
    exists w1,
      firstPass files folderName width height purgeCache w
      = (Ok (servedFromCache folderName width height purgeCache w files,
             leftToProcess folderName width height purgeCache w files), w1) /\
      sameLive w w1 /\ (purgeCache = true -> w1 = w).
Proof.
  induction files as [|f files IH]; intros w.
  - exists w. split; [by destruct purgeCache|]. split; [apply sameLive_refl|auto].
  - simpl firstPass. unfold bind at 1.
    destruct (cacheUsable_run purgeCache
                (generateCacheKey folderName width height (fileUrl f)) w)
      as (hit & w1 & -> & Hs1 & Hhit & Hmiss & Hpurge).
    destruct (IH w1) as (w2 & Heq & Hs2 & Hp2).
    destruct (split_sameLive folderName width height purgeCache w w1 files Hs1)
      as [Hserved Hleft].
    destruct hit.
    + destruct (Hhit eq_refl) as (-> & -> & e & He).
      unfold bind at 1. rewrite (get_live _ e w He).
      unfold bind at 1, readCached, ret at 1. unfold bind at 1.
      rewrite Heq. exists w2. unfold ret. cbn [fst snd].
      apply liveEntry_live in He.
      unfold servedFromCache, leftToProcess. simpl. rewrite He. simpl.
      split; [reflexivity|]. split; [exact Hs2|discriminate].
    + unfold bind at 1. rewrite Heq. exists w2. unfold ret. cbn [fst snd].
      rewrite Hserved, Hleft. split; [|split].
      * unfold servedFromCache, leftToProcess.
        destruct purgeCache; [reflexivity|]. simpl.
        destruct (Hmiss eq_refl) as [[=]|Hn].
        destruct (liveEntry w _) as [e|] eqn:He; [|reflexivity].
        apply liveEntry_live in He. by destruct (Hn e).
      * by eapply sameLive_trans.
      * intros Hp. destruct (Hpurge Hp) as [_ ->]. by apply Hp2.
Qed.

Lemma chunkTrace_step (fuel b : nat) (rest : list SourceFile) :
  (0 < length rest)%nat ->
  chunkTrace (S fuel) b rest
  = chunkTrace fuel b (drop b rest)
      ++ (if (b <? length rest)%nat then [EvSleep 10] else [])
      ++ batchEvents (take b rest).
Proof. destruct rest; [simpl; lia|reflexivity]. Qed.

Lemma batchLoop_trace (env : Env) (folderName : string) (width height : Dim)
    (backgroundColor : option string) (files : list SourceFile) (fuel : nat) :
  forall (i : nat) (acc : list ProcessedResult) (w : World),
    (length files - i < fuel)%nat ->
    let trace := chunkTrace fuel (batchSizeOf (options env)) (drop i files) in
    exists xs,
      batchLoop env fuel i files folderName width height backgroundColor acc w
      = (Ok (acc ++ xs),
         mkWorld (cache w)
           (now w + 10 * Z.of_nat (length (List.filter isSleep trace)))
           (trace ++ log w)) /\
      Forall2 (producedBy env width height backgroundColor) (drop i files) xs.
Proof.
  induction fuel as [|fuel IH]; intros i acc w Hfuel; [lia|].
  cbv zeta. simpl batchLoop.
  destruct (Nat.ltb_spec i (length files)) as [Hi|Hi].
  - set (bs := batchSizeOf (options env)) in *.
    assert (Hbs : (0 < bs)%nat) by apply batchSizeOf_pos.
    unfold slice. replace (i + bs - i)%nat with bs by lia.
    set (batch := take bs (drop i files)).
    destruct (allSettled_batch env folderName width height backgroundColor batch w)
      as (xs1 & -> & Hxs1).
    destruct (settled_ok xs1) as [-> ->]. simpl rev. rewrite app_nil_l.
    assert (Hsplit : drop i files = batch ++ drop (i + bs) files).
    { unfold batch. rewrite <- (take_drop bs (drop i files)) at 1.
      f_equal. rewrite drop_drop. f_equal. }
    assert (Hdrop : drop bs (drop i files) = drop (i + bs) files)
      by (rewrite drop_drop; f_equal).
    assert (Hlen : length (drop i files) = (length files - i)%nat)
      by apply length_drop.
    assert (Htrace :
              chunkTrace (S fuel) bs (drop i files)
              = chunkTrace fuel bs (drop (i + bs) files)
                  ++ (if (i + bs <? length files)%nat then [EvSleep 10] else [])
                  ++ batchEvents batch).
    { rewrite chunkTrace_step by lia. rewrite Hdrop, Hlen.
      f_equal. f_equal.
      destruct (Nat.ltb_spec bs (length files - i)),
               (Nat.ltb_spec (i + bs) (length files)); try reflexivity; lia. }
    rewrite Htrace.
    set (w1 := extend (batchEvents batch) w).
    assert (Hw1 : mkWorld (cache w1) (now w1) (log w1) = w1) by (by destruct w1).
    rewrite Hw1. unfold bind at 1.
    assert (Hnosleep : List.filter isSleep (batchEvents batch) = []).
    { unfold batchEvents. induction (rev batch) as [|g l IHl]; [reflexivity|].
      simpl. rewrite List.filter_app, IHl, app_nil_r.
      unfold downloadEvents. by destruct (isSupportedFormat (fileUrl g)). }
    destruct (Nat.ltb_spec (i + bs) (length files)) as [Hmore|Hlast].
    + unfold sleep at 1.
      destruct (IH (i + bs)%nat (acc ++ xs1)
                  (mkWorld (cache w1) (now w1 + 10) (EvSleep 10 :: log w1)))
        as (xs2 & -> & Hxs2); [lia|].
      exists (xs1 ++ xs2). split.
      * simpl. f_equal; [by rewrite app_assoc|]. f_equal.
        { rewrite List.filter_app. cbn [List.filter isSleep].
          rewrite Hnosleep, length_app. simpl. lia. }
        by rewrite <- app_assoc.
      * rewrite Hsplit. by apply Forall2_app.
    + unfold ret at 1.
      destruct (IH (i + bs)%nat (acc ++ xs1) w1) as (xs2 & -> & Hxs2); [lia|].
      exists (xs1 ++ xs2). split.
      * simpl. f_equal; [by rewrite app_assoc|]. f_equal.
        { rewrite List.filter_app, Hnosleep, app_nil_r. reflexivity. }
        by rewrite <- app_assoc.
      * rewrite Hsplit. by apply Forall2_app.
  - exists []. rewrite drop_ge by lia. rewrite app_nil_r. unfold ret.
    split; [|constructor].
    destruct fuel; simpl; rewrite Z.add_0_r; by destruct w.
Qed.

Lemma chunkTrace_sleeps (b : nat) (fuel : nat) :
  (0 < b)%nat ->
  forall rest : list SourceFile,
    (length rest < fuel)%nat ->
    List.filter isSleep (chunkTrace fuel b rest)
    = repeat (EvSleep 10) ((length rest - 1) / b).
Proof.
  intros Hb. induction fuel as [|fuel IH]; intros rest Hfuel; [lia|].
  destruct rest as [|f rest]; [simpl; by rewrite Nat.Div0.div_0_l|].
  cbn [chunkTrace]. set (l := f :: rest) in *.
  assert (Hl : (0 < length l)%nat) by (simpl; lia).
  assert (Hnosleep : List.filter isSleep (batchEvents (take b l)) = []).
  { unfold batchEvents. induction (rev (take b l)) as [|g k IHk]; [reflexivity|].
    simpl. rewrite List.filter_app, IHk, app_nil_r.
    unfold downloadEvents. by destruct (isSupportedFormat (fileUrl g)). }
  rewrite !List.filter_app, Hnosleep, app_nil_r.
  destruct (Nat.ltb_spec b (length l)) as [Hmore|Hlast].
  - rewrite IH by (rewrite length_drop; lia).
    rewrite length_drop. simpl List.filter.
    replace ((length l - 1) / b)%nat with (S ((length l - b - 1) / b)).
    + cbn [repeat]. by rewrite repeat_cons.
    + replace (length l - 1)%nat with ((length l - b - 1) + 1 * b)%nat by lia.
      rewrite Nat.div_add by lia. by rewrite Nat.add_1_r.
  - rewrite drop_ge by lia.
    replace (chunkTrace fuel b []) with (@nil Event) by (by destruct fuel).
    rewrite Nat.div_small by lia. reflexivity.
Qed.

Lemma batchEvents_urls (batch : list SourceFile) :
  batchEvents batch = rev (map EvDownload (supportedUrls batch)).
Proof.
  unfold batchEvents, supportedUrls.
  induction batch as [|f batch IH]; [reflexivity|].
  simpl rev. rewrite map_app, concat_app, IH. simpl. rewrite app_nil_r.
  unfold downloadEvents. destruct (isSupportedFormat (fileUrl f)); simpl.
  - reflexivity.
  - by rewrite app_nil_r.
Qed.

Lemma supportedUrls_app (l1 l2 : list SourceFile) :
  supportedUrls (l1 ++ l2) = supportedUrls l1 ++ supportedUrls l2.
Proof. unfold supportedUrls. by rewrite List.filter_app, map_app. Qed.

Lemma chunkTrace_downloads (b : nat) (fuel : nat) :
  (0 < b)%nat ->
  forall rest : list SourceFile,
    (length rest < fuel)%nat ->
    List.filter isDownload (chunkTrace fuel b rest)
    = rev (map EvDownload (supportedUrls rest)).
Proof.
  intros Hb. induction fuel as [|fuel IH]; intros rest Hfuel; [lia|].
  destruct rest as [|f rest]; [reflexivity|].
  cbn [chunkTrace]. set (l := f :: rest) in *.
  assert (Hl : (0 < length l)%nat) by (simpl; lia).
  rewrite !List.filter_app.
  replace (List.filter isDownload
             (if (b <? length l)%nat then [EvSleep 10] else []))
    with (@nil Event) by (by destruct (b <? length l)%nat).
  rewrite batchEvents_urls.
  assert (Hall : forall us, List.filter isDownload (rev (map EvDownload us))
                            = rev (map EvDownload us)).
  { intros us. induction us as [|u us IHu]; [reflexivity|].
    simpl. by rewrite List.filter_app, IHu. }
  rewrite Hall, app_nil_l.
  rewrite IH by (rewrite length_drop; lia).
  rewrite <- rev_app_distr, <- map_app, <- supportedUrls_app.
  by rewrite take_drop.
Qed.

Lemma chunkTrace_events (b : nat) (fuel : nat) (rest : list SourceFile)
    (e : Event) :
  In e (chunkTrace fuel b rest) -> isSleep e = true \/ isDownload e = true.
Proof.
  revert rest. induction fuel as [|fuel IH]; intros rest He; [destruct He|].
  destruct rest as [|f rest]; [destruct He|].
  cbn [chunkTrace] in He. apply in_app_or in He as [He|He]; [by eapply IH|].
  apply in_app_or in He as [He|He].
  - destruct (b <? length (f :: rest))%nat; [|destruct He].
    destruct He as [<-|[]]. by left.
  - rewrite batchEvents_urls in He. apply in_rev, in_map_iff in He as (u & <- & _).
    by right.
Qed.


Lemma processFolderImages_exact (env : Env) (files : list SourceFile)
    (folderName : string) (width height : Dim) (purgeCache : bool)
    (backgroundColor : option string) (w : World) :
  let misses := leftToProcess folderName width height purgeCache w files in
  let trace := chunkTrace (S (length misses)) (batchSizeOf (options env)) misses in
  let t := now w + 10 * Z.of_nat ((length misses - 1) / batchSizeOf (options env)) in
  exists xs w1,
    sameLive w w1 /\ (purgeCache = true -> w1 = w) /\
    Forall2 (producedBy env width height
               (Some (default "#ffffff"%string backgroundColor))) misses xs /\
    processFolderImages env files folderName width height purgeCache
      backgroundColor w
    = (Ok (servedFromCache folderName width height purgeCache w files ++ xs),
       mkWorld (storeAll xs folderName width height t (cache w1)) t
         (trace ++ log w)).
Proof.
  cbv zeta.
  destruct (firstPass_exact folderName width height purgeCache files w)
    as (w1 & Hfp & Hs & Hp).
  pose proof Hs as (Hn & Hl & _).
  unfold processFolderImages, bind at 1. rewrite Hfp. cbn [fst snd].
  set (misses := leftToProcess folderName width height purgeCache w files).
  destruct (Nat.eqb_spec (length misses) 0) as [Hzero|Hpos].
  - exists [], w1. rewrite Hzero. simpl. rewrite Nat.Div0.div_0_l.
    destruct misses; [|discriminate]. unfold ret. rewrite app_nil_r.
    split; [exact Hs|]. split; [exact Hp|]. split; [constructor|].
    simpl. rewrite Z.add_0_r, <- Hn, <- Hl. by destruct w1.
  - unfold bind at 1, processBatches.
    destruct (batchLoop_trace env folderName width height
                (Some (default "#ffffff"%string backgroundColor)) misses
                (S (length misses)) 0%nat [] w1)
      as (xs & -> & Hxs); [lia|].
    rewrite drop_0 in *. simpl app at 1.
    unfold bind at 1. rewrite cacheResults_run.
    + exists xs, w1. unfold ret. cbn [now cache log].
      split; [exact Hs|]. split; [exact Hp|]. split; [exact Hxs|].
      rewrite chunkTrace_sleeps, repeat_length, Hn, Hl;
        [reflexivity|apply batchSizeOf_pos|lia].
    + destruct (producedBy_files env _ _ _ _ _ Hxs) as [Hfiles _].
      apply List.Forall_forall. intros x Hx.
      apply (in_map file) in Hx. rewrite Hfiles in Hx.
      apply in_map_iff in Hx as (f' & <- & _). eauto.
Qed.

(** ** Pauses and requests of a batch run *)

(** X7.  The pauses of [processBatches].  A run over [n] files returns
    after a pause of 10 ms behind every batch but the last, that is
    [(n - 1) / batchSize] pauses, and leaves the cache untouched. *)
Theorem processBatches_pacing (env : Env) (files : list SourceFile)
    (folderName : string) (width height : Dim)
    (backgroundColor : option string) (w : World) :
  let pauses := ((length files - 1) / batchSizeOf (options env))%nat in
  exists results w' evs,
    processBatches env files folderName width height backgroundColor w
    = (Ok results, w') /\
    cache w' = cache w /\
    log w' = evs ++ log w /\
    List.filter isSleep evs = repeat (EvSleep 10) pauses.
Proof.
  cbv zeta. unfold processBatches.
  destruct (batchLoop_trace env folderName width height backgroundColor files
              (S (length files)) 0%nat [] w) as (xs & -> & _); [lia|].
  rewrite drop_0. do 3 eexists. split; [reflexivity|]. cbn [now cache log].
  assert (Hsleeps := chunkTrace_sleeps (batchSizeOf (options env))
                       (S (length files)) (batchSizeOf_pos _) files ltac:(lia)).
  split; [reflexivity|]. split; [reflexivity|exact Hsleeps].
Qed.

(** X8.  The requests of [processBatches].  A run requests every file of a
    supported format exactly once, in the order of the list, makes no
    other request and logs no error: the branch for a rejected promise
    never runs. *)
Theorem processBatches_requests (env : Env) (files : list SourceFile)
    (folderName : string) (width height : Dim)
    (backgroundColor : option string) (w : World) :
  exists results w' evs,
    processBatches env files folderName width height backgroundColor w
    = (Ok results, w') /\
    log w' = evs ++ log w /\
    List.filter isDownload evs = rev (map EvDownload (supportedUrls files)) /\
    (forall e, In e evs -> isSleep e = true \/ isDownload e = true).
Proof.
  unfold processBatches.
  destruct (batchLoop_trace env folderName width height backgroundColor files
              (S (length files)) 0%nat [] w) as (xs & -> & _); [lia|].
  rewrite drop_0. do 3 eexists. split; [reflexivity|]. cbn [now cache log].
  split; [reflexivity|]. split.
  - apply chunkTrace_downloads; [apply batchSizeOf_pos|lia].
  - intros e. apply chunkTrace_events.
Qed.

(** ** Order and requests of a whole-folder call *)

Lemma servedFromCache_cached (folderName : string) (width height : Dim)
    (purgeCache : bool) (w : World) (files : list SourceFile) :
  Forall (fun x => isCached x = Some true /\ isResized x = true)
    (servedFromCache folderName width height purgeCache w files).
Proof.
  unfold servedFromCache. destruct purgeCache; [constructor|].
  induction files as [|f files IH]; [constructor|]. simpl.
  destruct (liveEntry w _); simpl; [constructor; auto|exact IH].
Qed.

(** X9.  The order of the results.  A whole-folder call returns first the
    records served from the cache, in the order of the listing, then the
    records of the files it processed, in the order of the listing; with
    purge nothing is served, so the results follow the listing. *)
Theorem processFolderImages_order (env : Env) (files : list SourceFile)
    (folderName : string) (width height : Dim) (purgeCache : bool)
    (backgroundColor : option string) (w : World) :
  exists xs w',
    processFolderImages env files folderName width height purgeCache
      backgroundColor w
    = (Ok (servedFromCache folderName width height purgeCache w files ++ xs), w') /\
    map file xs
    = map Some (leftToProcess folderName width height purgeCache w files) /\
    Forall (fun x => isCached x <> Some true) xs /\
    Forall (fun x => isCached x = Some true /\ isResized x = true)
      (servedFromCache folderName width height purgeCache w files) /\
    (purgeCache = true ->
     map file (servedFromCache folderName width height purgeCache w files ++ xs)
     = map Some files).
Proof.
  destruct (processFolderImages_exact env files folderName width height
              purgeCache backgroundColor w) as (xs & w1 & _ & _ & Hxs & ->).
  destruct (producedBy_files env _ _ _ _ _ Hxs) as [Hfiles _].
  do 2 eexists. split; [reflexivity|]. split; [exact Hfiles|]. split; [|split].
  - apply List.Forall_forall. intros x Hx.
    destruct (Forall2_In_r _ _ _ _ Hxs Hx) as (f & _ & k & ->).
    destruct (singleResult_cases env f width height
                (Some (default "#ffffff"%string backgroundColor)) k)
      as [E | [(? & E) | (? & ? & ? & ? & E)]];
      cbv zeta in E; rewrite E; discriminate.
  - apply servedFromCache_cached.
  - intros ->. exact Hfiles.
Qed.

(** X10.  The requests of a whole-folder call.  The call requests exactly
    the files of a supported format that it does not serve from the cache,
    once each and in the order of the listing. *)
Theorem processFolderImages_requests (env : Env) (files : list SourceFile)
    (folderName : string) (width height : Dim) (purgeCache : bool)
    (backgroundColor : option string) (w : World) :
  exists results w' evs,
    processFolderImages env files folderName width height purgeCache
      backgroundColor w = (Ok results, w') /\
    log w' = evs ++ log w /\
    List.filter isDownload evs
    = rev (map EvDownload
             (supportedUrls
                (leftToProcess folderName width height purgeCache w files))).
Proof.
  destruct (processFolderImages_exact env files folderName width height
              purgeCache backgroundColor w) as (xs & w1 & _ & _ & _ & ->).
  do 3 eexists. split; [reflexivity|]. split; [reflexivity|].
  apply chunkTrace_downloads; [apply batchSizeOf_pos|lia].
Qed.

(** ** Clearing the cache, then asking again *)

Lemma nothing_live (folderName : string) (width height : Dim)
    (purgeCache : bool) (w : World) (files : list SourceFile) :
  (forall f, In f files ->
     liveEntry w (generateCacheKey folderName width height (fileUrl f)) = None) ->
  servedFromCache folderName width height purgeCache w files = [] /\
  leftToProcess folderName width height purgeCache w files = files.
Proof.
  intros Hnone. unfold servedFromCache, leftToProcess.
  destruct purgeCache; [auto|].
  induction files as [|f files IH]; [auto|].
  cbn [omap list_omap List.filter].
  rewrite (Hnone f) by (by left). cbn [fmap option_fmap option_map].
  destruct IH as [-> ->]; [intros g Hg; apply Hnone; by right|auto].
Qed.

Lemma fresh_after_clear (env : Env) (files : list SourceFile)
    (folderName : string) (width height : Dim)
    (backgroundColor : option string) (w : World) :
  (forall f, In f files ->
     liveEntry w (generateCacheKey folderName width height (fileUrl f)) = None) ->
  exists results w' evs,
    processFolderImages env files folderName width height false
      backgroundColor w = (Ok results, w') /\
    log w' = evs ++ log w /\
    map file results = map Some files /\
    Forall (fun x => isCached x <> Some true) results /\
    List.filter isDownload evs = rev (map EvDownload (supportedUrls files)).
Proof.
  intros Hnone.
  destruct (nothing_live folderName width height false w files Hnone)
    as [Hserved Hleft].
  destruct (processFolderImages_exact env files folderName width height
              false backgroundColor w) as (xs & w1 & _ & _ & Hxs & ->).
  rewrite Hserved, Hleft in *. rewrite app_nil_l.
  destruct (producedBy_files env _ _ _ _ _ Hxs) as [Hfiles _].
  do 3 eexists. split; [reflexivity|]. split; [reflexivity|].
  split; [exact Hfiles|]. split.
  - apply List.Forall_forall. intros x Hx.
    destruct (Forall2_In_r _ _ _ _ Hxs Hx) as (f & _ & k & ->).
    destruct (singleResult_cases env f width height
                (Some (default "#ffffff"%string backgroundColor)) k)
      as [E | [(? & E) | (? & ? & ? & ? & E)]];
      cbv zeta in E; rewrite E; discriminate.
  - apply chunkTrace_downloads; [apply batchSizeOf_pos|lia].
Qed.

(** X11.  Clearing a folder forces the next call to start over.  After
    [clearFolderCache(folderName)], a whole-folder call for that folder,
    at any size and without purge, serves nothing from the cache: every
    result is fresh, in the order of the listing, and every file of a
    supported format is requested once. *)
Theorem clearFolderCache_then_request (env : Env) (files : list SourceFile)
    (folderName : string) (width height : Dim)
    (backgroundColor : option string) (w : World) :
  exists results w' evs,
    processFolderImages env files folderName width height false
      backgroundColor (snd (clearFolderCache folderName w)) = (Ok results, w') /\
    log w' = evs ++ log w /\
    map file results = map Some files /\
    Forall (fun x => isCached x <> Some true) results /\
    List.filter isDownload evs = rev (map EvDownload (supportedUrls files)).
Proof.
  pose proof (clearFolderCache_clears_folder folderName width height) as Hclear.
  destruct (clearFolderCache_run folderName w) as (c' & Heq & _).
  rewrite Heq in *. cbn [snd] in *.
  replace (log w) with (log (mkWorld c' (now w) (log w))) by reflexivity.
  apply fresh_after_clear. intros f _. unfold liveEntry.
  specialize (Hclear (fileUrl f) w). rewrite Heq in Hclear. cbn [snd] in Hclear.
  by rewrite Hclear.
Qed.

(** X12.  Clearing everything forces every call to start over.  After
    [clearAllCache()] or [cleanup()], a whole-folder call for any folder
    and size serves nothing from the cache and requests every file of a
    supported format once. *)
Theorem clearAllCache_then_request (env : Env) (files : list SourceFile)
    (folderName : string) (width height : Dim)
    (backgroundColor : option string) (w : World) :
  (exists results w' evs,
     processFolderImages env files folderName width height false
       backgroundColor (snd (clearAllCache w)) = (Ok results, w') /\
     log w' = evs ++ log w /\
     map file results = map Some files /\
     Forall (fun x => isCached x <> Some true) results /\
     List.filter isDownload evs = rev (map EvDownload (supportedUrls files))) /\
  cleanup w = clearAllCache w /\
  fst (clearAllCache w) = Ok tt /\
  cache (snd (clearAllCache w)) = ∅.
Proof.
  split; [|auto].
  unfold clearAllCache, flushAll. cbn [snd].
  replace (log w) with (log (mkWorld ∅ (now w) (log w))) by reflexivity.
  apply fresh_after_clear. intros f _. reflexivity.
Qed.

(** ** What enters the cache *)

Lemma storeAll_cases (folderName : string) (width height : Dim) (t : Z)
    (key : string) (v : CacheEntry * Z) (results : list ProcessedResult) :
  forall c : gmap string (CacheEntry * Z),
    storeAll results folderName width height t c !! key = Some v ->
    c !! key = Some v \/
    exists x, In x results /\ cacheable x = true /\
              resultKey folderName width height x = Some key /\
              v = (entryOf x t, t + NodeCache.stdTTL * 1000).
Proof.
  induction results as [|x results IH]; intros c Hv; [by left|].
  simpl in Hv. apply IH in Hv as [Hv|(y & Hy & Hc & Hk & ->)].
  - destruct (cacheable x) eqn:Hc; [|by left].
    unfold resultKey. destruct (resultUrl x) as [url|] eqn:Hu; [|by left].
    rewrite lookup_insert in Hv. case_decide as Hkey.
    + right. exists x. injection Hv as <-.
      repeat split; try (by left); auto. unfold resultKey. rewrite Hu. simpl.
      by rewrite Hkey.
    + by left.
  - right. exists y. repeat split; auto. by right.
Qed.

(** X13.  Only fresh successes enter the cache.  After a whole-folder call,
    every entry of the cache was there before the call or is the entry of
    a result of the call that was freshly resized, stamped at the end of
    the call: failures and unsupported files are never cached. *)
Theorem cache_gains_only_successes (env : Env) (files : list SourceFile)
    (folderName : string) (width height : Dim) (purgeCache : bool)
    (backgroundColor : option string) (w : World) :
  exists results w',
    processFolderImages env files folderName width height purgeCache
      backgroundColor w = (Ok results, w') /\
    forall key v,
      cache w' !! key = Some v ->
      cache w !! key = Some v \/
      exists x, In x results /\ isResized x = true /\ isCached x = Some false /\
                resultKey folderName width height x = Some key /\
                v = (entryOf x (now w'), now w' + NodeCache.stdTTL * 1000).
Proof.
  destruct (processFolderImages_exact env files folderName width height
              purgeCache backgroundColor w)
    as (xs & w1 & (_ & _ & _ & Hsub) & _ & Hxs & ->).
  do 2 eexists. split; [reflexivity|]. cbn [cache now]. intros key v Hv.
  apply storeAll_cases in Hv as [Hv|(x & Hx & Hc & Hk & ->)].
  - left. by apply Hsub.
  - right. exists x.
    destruct (Forall2_In_r _ _ _ _ Hxs Hx) as (f & _ & Hprod).
    destruct (producedBy_resized env folderName width height _ f x Hprod
                (cacheable_isResized x Hc)) as (_ & Hfresh & _).
    split; [apply in_or_app; by right|].
    split; [by apply cacheable_isResized|]. auto.
Qed.

(** ** The channels of a background colour *)

Lemma hexDigit_range (c : ascii) (d : Z) : Js.hexDigit c = Some d -> 0 <= d <= 15.
Proof.
  unfold Js.hexDigit.
  repeat match goal with
         | |- context [if ?b then _ else _] =>
             let E := fresh "E" in destruct b eqn:E
         end; intros [= <-]; lia.
Qed.

Lemma hexPrefix_some (s : string) :
  forall a, 0 <= a ->
    exists v, Js.hexPrefix s (Some a) = Some v /\
              0 <= v < (a + 1) * 16 ^ Z.of_nat (String.length s).
Proof.
  induction s as [|c s IH]; intros a Ha.
  - exists a. simpl. split; [reflexivity|lia].
  - cbn [Js.hexPrefix String.length]. rewrite Nat2Z.inj_succ, Z.pow_succ_r by lia.
    assert (Hpow : 0 < 16 ^ Z.of_nat (String.length s)) by (apply Z.pow_pos_nonneg; lia).
    destruct (Js.hexDigit c) as [d|] eqn:Hd.
    + apply hexDigit_range in Hd. simpl default.
      destruct (IH (16 * a + d) ltac:(lia)) as (v & -> & Hv).
      exists v. split; [reflexivity|]. nia.
    + exists a. split; [reflexivity|]. nia.
Qed.

Lemma hexPrefix_none (s : string) (v : Z) :
  Js.hexPrefix s None = Some v -> 0 <= v < 16 ^ Z.of_nat (String.length s).
Proof.
  destruct s as [|c s]; [discriminate|].
  cbn [Js.hexPrefix String.length]. rewrite Nat2Z.inj_succ, Z.pow_succ_r by lia.
  destruct (Js.hexDigit c) as [d|] eqn:Hd; [|discriminate].
  apply hexDigit_range in Hd. simpl default.
  destruct (hexPrefix_some s (16 * 0 + d) ltac:(lia)) as (v' & -> & Hv).
  intros [= <-].
  assert (0 < 16 ^ Z.of_nat (String.length s)) by (apply Z.pow_pos_nonneg; lia).
  nia.
Qed.

Lemma trimStart_length (s : string) :
  (String.length (Js.trimStart s) <= String.length s)%nat.
Proof.
  induction s as [|c s IH]; [reflexivity|]. cbn [Js.trimStart].
  destruct (Js.isWhiteSpace c); simpl; lia.
Qed.

(** The value [parseInt(s, 16)] reads off at most two characters. *)
Lemma parseInt16_short (s : string) (n : Z) :
  (String.length s <= 2)%nat -> Js.parseInt16 s = Js.Int n -> -15 <= n <= 255.
Proof.
  intros Hlen. unfold Js.parseInt16.
  pose proof (trimStart_length s) as Htrim.
  set (s1 := Js.trimStart s) in *.
  assert (Hbody : forall (sign : Z) (s2 : string) (k : nat),
            (String.length s2 <= k)%nat ->
            match Js.hexPrefix
                    match s2 with
                    | String "0" (String "x" r) => r
                    | String "0" (String "X" r) => r
                    | _ => s2
                    end None with
            | Some v => Js.Int (sign * v)
            | None => Js.NaN
            end = Js.Int n ->
            exists v, n = sign * v /\ 0 <= v < 16 ^ Z.of_nat k).
  { intros sign s2 k Hk.
    set (s3 := match s2 with
               | String "0" (String "x" r) => r
               | String "0" (String "X" r) => r
               | _ => s2
               end).
    assert (Hs3 : (String.length s3 <= String.length s2)%nat).
    { unfold s3. destruct s2 as [|c [|d r]]; [lia| |].
      - destruct c as [[] [] [] [] [] [] [] []]; lia.
      - destruct c as [[] [] [] [] [] [] [] []]; try lia;
          destruct d as [[] [] [] [] [] [] [] []]; simpl; lia. }
    destruct (Js.hexPrefix s3 None) as [v|] eqn:Hv; [|discriminate].
    intros [= <-]. exists v. split; [reflexivity|].
    apply hexPrefix_none in Hv.
    assert (16 ^ Z.of_nat (String.length s3) <= 16 ^ Z.of_nat k)
      by (apply Z.pow_le_mono_r; lia). lia. }
  destruct s1 as [|c r] eqn:Hs1.
  - intros H. destruct (Hbody 1 EmptyString 0%nat ltac:(simpl; lia) H) as (v & -> & Hv).
    simpl in Hv. lia.
  - simpl in Htrim.
    assert (Hplain : forall H : match Js.hexPrefix
                                      match String c r with
                                      | String "0" (String "x" r) => r
                                      | String "0" (String "X" r) => r
                                      | _ => String c r
                                      end None with
                                | Some v => Js.Int (1 * v)
                                | None => Js.NaN
                                end = Js.Int n, -15 <= n <= 255).
    { intros H. destruct (Hbody 1 (String c r) 2%nat ltac:(simpl; lia) H)
        as (v & -> & Hv). change (16 ^ Z.of_nat 2) with 256 in Hv. lia. }
    assert (Hsigned : forall sign, sign = 1 \/ sign = -1 ->
              match Js.hexPrefix
                      match r with
                      | String "0" (String "x" r) => r
                      | String "0" (String "X" r) => r
                      | _ => r
                      end None with
              | Some v => Js.Int (sign * v)
              | None => Js.NaN
              end = Js.Int n -> -15 <= n <= 255).
    { intros sign Hsign H. destruct (Hbody sign r 1%nat ltac:(lia) H)
        as (v & -> & Hv). change (16 ^ Z.of_nat 1) with 16 in Hv. lia. }
    destruct c as [[] [] [] [] [] [] [] []];
      first [exact Hplain | apply Hsigned; auto].
Qed.

Lemma substring_length (n m : nat) (s : string) :
  (String.length (String.substring n m s) <= m)%nat.
Proof.
  revert n m. induction s as [|c s IH]; intros [|n] [|m]; simpl; try lia.
  - specialize (IH 0%nat m). lia.
  - apply (IH n 0%nat).
  - apply (IH n (S m)).
Qed.

Lemma numOr_range (x : Js.Num) :
  (forall n, x = Js.Int n -> -15 <= n <= 255) -> -15 <= Js.numOr x 255 <= 255.
Proof.
  intros H. destruct x as [|n]; simpl; [lia|].
  specialize (H n eq_refl). destruct (n =? 0); lia.
Qed.

(** X14.  The range of the channels.  Whatever the colour string, every
    channel that [parseBackgroundColor] returns lies between -15 and 255:
    a channel never exceeds 255, but two characters such as [-f] are read
    as a negative number. *)
Theorem parseBackgroundColor_range (backgroundColor : string) :
  let c := parseBackgroundColor backgroundColor in
  -15 <= r c <= 255 /\ -15 <= g c <= 255 /\ -15 <= b c <= 255.
Proof.
  cbv zeta. unfold parseBackgroundColor. cbn [r g b].
  repeat split; apply numOr_range; intros n; apply parseInt16_short;
    unfold Js.substring; apply substring_length.
Qed.

Example parseBackgroundColor_negative :
  parseBackgroundColor "#-f00ff" = mkColor (-15) 255 255.
Proof. reflexivity. Qed.

Lemma below16 (d : Z) :
  0 <= d < 16 ->
  d = 0 \/ d = 1 \/ d = 2 \/ d = 3 \/ d = 4 \/ d = 5 \/ d = 6 \/ d = 7 \/
  d = 8 \/ d = 9 \/ d = 10 \/ d = 11 \/ d = 12 \/ d = 13 \/ d = 14 \/ d = 15.
Proof. lia. Qed.

Lemma parseInt16_hex2 (n : Z) : 0 <= n < 256 -> Js.parseInt16 (hex2 n) = Js.Int n.
Proof.
  intros Hn. unfold hex2.
  rewrite (Z.div_mod n 16) at 3 by lia.
  pose proof (Z.mod_pos_bound n 16 ltac:(lia)) as Hd.
  assert (Ha : 0 <= n / 16 < 16)
    by (split; [apply Z.div_pos; lia|apply Z.div_lt_upper_bound; lia]).
  generalize dependent (n mod 16). generalize dependent (n / 16).
  intros a Ha d Hd.
  destruct (below16 a Ha) as [->|[->|[->|[->|[->|[->|[->|[->|[->|[->|[->|[->|[->|[->|[->| ->]]]]]]]]]]]]]]];
    destruct (below16 d Hd) as [->|[->|[->|[->|[->|[->|[->|[->|[->|[->|[->|[->|[->|[->|[->| ->]]]]]]]]]]]]]]];
    reflexivity.
Qed.

(** X15.  Well-formed colours are read exactly.  For channel values from 1 to
    255 written as [#rrggbb] with two lower-case hexadecimal digits each,
    [parseBackgroundColor] returns these values. *)
Theorem parseBackgroundColor_exact (red green blue : Z) :
  1 <= red <= 255 -> 1 <= green <= 255 -> 1 <= blue <= 255 ->
  parseBackgroundColor ("#" +:+ hex2 red +:+ hex2 green +:+ hex2 blue)
  = mkColor red green blue.
Proof.
  intros Hr Hg Hb. unfold parseBackgroundColor.
  change (Js.removeFirst "#" ("#" +:+ hex2 red +:+ hex2 green +:+ hex2 blue))
    with (hex2 red +:+ hex2 green +:+ hex2 blue)%string.
  change (Js.substring 0 2 (hex2 red +:+ hex2 green +:+ hex2 blue))
    with (hex2 red).
  change (Js.substring 2 4 (hex2 red +:+ hex2 green +:+ hex2 blue))
    with (hex2 green).
  change (Js.substring 4 6 (hex2 red +:+ hex2 green +:+ hex2 blue))
    with (hex2 blue).
  rewrite !parseInt16_hex2 by lia. simpl Js.numOr.
  destruct (Z.eqb_spec red 0), (Z.eqb_spec green 0), (Z.eqb_spec blue 0);
    try lia. reflexivity.
Qed.

Lemma parseBackgroundColor_exact_witness :
  parseBackgroundColor "#ff8001" = mkColor 255 128 1.
Proof.
  apply (parseBackgroundColor_exact 255 128 1); lia.
Defined.

(** * The blob service and the controllers: properties *)

(** ** Text *)

Lemma split_nonempty (sep : ascii) (s : string) : Text.split sep s <> [].
Proof.
  destruct s as [|c s]; simpl; [discriminate|].
  destruct (Ascii.eqb c sep); [discriminate|].
  destruct (Text.split sep s); discriminate.
Qed.

Lemma split_join (sep : ascii) (s : string) :
  Text.join (String sep EmptyString) (Text.split sep s) = s.
Proof.
  induction s as [|c s IH]; [reflexivity|].
  pose proof (split_nonempty sep s) as Hne.
  cbn [Text.split]. destruct (Ascii.eqb_spec c sep) as [->|Hc].
  - destruct (Text.split sep s) as [|x xs]; [done|].
    cbn [Text.join] in *. by rewrite IH.
  - destruct (Text.split sep s) as [|x xs]; [done|].
    destruct xs as [|y ys]; cbn [Text.join] in *; by rewrite <- IH.
Qed.

Lemma split_no_sep (sep : ascii) (s : string) :
  Forall (fun x => hasChar sep x = false) (Text.split sep s).
Proof.
  induction s as [|c s IH]; [by repeat constructor|].
  cbn [Text.split]. destruct (Ascii.eqb c sep) eqn:Hc.
  - by constructor.
  - destruct (Text.split sep s) as [|x xs]; [by repeat constructor; simpl; rewrite Hc|].
    inversion IH; subst. constructor; [|done]. simpl. by rewrite Hc.
Qed.

Lemma join_last (sep : string) (l : list string) :
  l <> [] -> exists pre, Text.join sep l = pre +:+ List.last l "".
Proof.
  induction l as [|x l IH]; [done|]. intros _.
  destruct l as [|y l]; [by exists ""|].
  destruct IH as [pre Hpre]; [done|].
  exists (x +:+ sep +:+ pre).
  change (Text.join sep (x :: y :: l)) with (x +:+ sep +:+ Text.join sep (y :: l)).
  change (List.last (x :: y :: l) "") with (List.last (y :: l) "").
  rewrite Hpre. by rewrite !append_assoc.
Qed.

(** The last segment of a path is a suffix of the path without the
    separator. *)
Lemma last_segment (sep : ascii) (s : string) :
  hasChar sep (List.last (Text.split sep s) "") = false /\
  exists pre, s = pre +:+ List.last (Text.split sep s) "".
Proof.
  split.
  - pose proof (split_no_sep sep s) as Hall.
    pose proof (split_nonempty sep s) as Hne.
    induction Hall as [|x l Hx Hall IH]; [done|].
    destruct l as [|y l]; [exact Hx|]. by apply IH.
  - destruct (join_last (String sep EmptyString) (Text.split sep s)
                (split_nonempty sep s)) as [pre Hpre].
    exists pre. by rewrite <- Hpre, split_join.
Qed.

(** ** VercelBlobService *)

(** The two ways in which [getBlobsByFolder] ends; which one does not
    depend on the state of the process. *)
Lemma getBlobsByFolder_cases (benv : BlobEnv) (folderName : string) :
  (exists blobs,
     blobs <> [] /\
     forall w, getBlobsByFolder benv folderName w
               = (Ok (processFolderBlobs benv blobs folderName), w)) \/
  (exists e,
     forall w, getBlobsByFolder benv folderName w
               = (Throw e,
                  extend [EvConsoleError
                            ("Error fetching blobs for folder " +:+ folderName
                               +:+ ": " +:+ e)] w)).
Proof.
  unfold getBlobsByFolder, tryCatch.
  destruct (prefixLoop benv [folderName +:+ "/"; folderName] [] None 0)
    as [[blobs lastError] k].
  assert (Hstage : exists blobs2 lastError2 k2,
            (if (length blobs =? 0)%nat then
               match listBlobs benv k None with
               | Ok all =>
                   (List.filter (belongsTo folderName) all, lastError, S k)
               | Throw e => (blobs, Some e, S k)
               end
             else (blobs, lastError, k)) = (blobs2, lastError2, k2)).
  { destruct (length blobs =? 0)%nat; [destruct (listBlobs benv k None)|];
      by repeat eexists. }
  destruct Hstage as (blobs2 & lastError2 & k2 & ->).
  destruct (length blobs2 =? 0)%nat eqn:Hlen.
  - right. destruct lastError2 as [e|].
    + by exists e.
    + eexists. reflexivity.
  - left. exists blobs2. split; [|reflexivity].
    intros ->. by rewrite Nat.eqb_refl in Hlen.
Qed.

(** X16.  [getBlobsByFolder] never returns an empty folder.  Whatever the
    store answers, the method either returns the folder under the name it
    was asked for, with at least one file, and leaves the process as it
    was, or raises after one line on the console: a folder without blobs
    is an error, not an empty listing. *)
Theorem getBlobsByFolder_outcome (benv : BlobEnv) (folderName : string)
    (w : World) :
  match getBlobsByFolder benv folderName w with
  | (Ok folderData, w') =>
      w' = w /\ fdFolderName folderData = folderName /\
      fdFiles folderData <> []
  | (Throw e, w') =>
      w' = extend [EvConsoleError
                     ("Error fetching blobs for folder " +:+ folderName
                        +:+ ": " +:+ e)] w
  end.
Proof.
  destruct (getBlobsByFolder_cases benv folderName)
    as [(blobs & Hne & Hrun)|(e & Hrun)]; rewrite Hrun; [|reflexivity].
  repeat split. unfold processFolderBlobs. cbn [fdFiles].
  by destruct blobs.
Qed.

(** X17.  The files that [processFolderBlobs] builds.  There is one file
    per blob, in the order of the blobs, with the URL and the path of its
    blob; the file name contains no slash and is the end of the path. *)
Theorem processFolderBlobs_names (benv : BlobEnv) (blobs : list Blob)
    (folderName : string) :
  Forall2
    (fun blob f =>
       fileUrl f = blobUrl blob /\ fullPath f = blobPathname blob /\
       hasChar "/" (fileName f) = false /\
       exists dir, fullPath f = dir +:+ fileName f)
    blobs (fdFiles (processFolderBlobs benv blobs folderName)).
Proof.
  unfold processFolderBlobs. cbn [fdFiles].
  induction blobs as [|blob blobs IH]; [constructor|].
  cbn [map]. constructor; [|exact IH].
  cbn [fileUrl fullPath fileName].
  destruct (last_segment "/" (blobPathname blob)) as [Hno Hsuffix].
  by repeat split.
Qed.

(** ** imageController *)

Section ControllerFacts.

Variable env : Env.
Variable benv : BlobEnv.
Variable fromBase64 : string -> Buffer.

Lemma initializeServices_run (built : bool) (w : World) :
  initializeServices benv built w
  = if builtAfter benv built then (Ok tt, w)
    else (Throw "VERCEL_ACCESS_TOKEN is required", w).
Proof.
  unfold initializeServices, builtAfter, newVercelBlobService.
  by destruct built, (accessToken benv).
Qed.


Lemma processFolderBlobs_length (blobs : list Blob) (folderName : string) :
  blobs <> [] ->
  (length (fdFiles (processFolderBlobs benv blobs folderName)) =? 0)%nat = false.
Proof. by destruct blobs. Qed.

(** What [sendImage] can answer. *)
Lemma sendImage_cases (folderName imageName : string) (targetWidth targetHeight : Dim)
    (format : option string) (x : ProcessedResult) (w : World) :
  (exists b, sendImage fromBase64 folderName imageName targetWidth targetHeight
               format x w = (Ok (mkResponse 200 b), w)) \/
  (exists e, sendImage fromBase64 folderName imageName targetWidth targetHeight
               format x w = (Throw e, w)).
Proof.
  unfold sendImage.
  destruct (textIs "json" format); [left; by eexists|].
  destruct (resizedUrl x) as [url|]; [|right; by eexists].
  destruct (nth_error (Text.split "," url) 1); [|right; by eexists].
  destruct (outputFormat x); [left|right]; by eexists.
Qed.

(** The answers of [getImage], branch by branch. *)
Lemma getImage_cases (built : bool) (folderName imageName : string)
    (width height purgeCache format : option string) (w : World) :
  exists resp w',
    getImage env benv fromBase64 built folderName imageName width height purgeCache
      format w = (Ok resp, w') /\
    ((builtAfter benv built = false /\
      resp = mkResponse 500
               (BodyError "Internal server error" "VERCEL_ACCESS_TOKEN is required")) \/
     (builtAfter benv built = true /\
      strTruthy width || strTruthy height = false /\ w' = w /\
      resp = mkResponse 400
               (BodyError "Bad request" "Width or height parameter is required")) \/
     (builtAfter benv built = true /\
      strTruthy width || strTruthy height = true /\
      rejectedDim (parseDim width) || rejectedDim (parseDim height) = true /\
      w' = w /\
      resp = mkResponse 400
               (BodyError "Bad request" "Width and height must be positive numbers")) \/
     (builtAfter benv built = true /\
      strTruthy width || strTruthy height = true /\
      rejectedDim (parseDim width) || rejectedDim (parseDim height) = false /\
      (status resp = 200 \/ status resp = 500))).
Proof.
  unfold getImage, tryCatch, bind. rewrite !initializeServices_run.
  destruct (builtAfter benv built) eqn:Htoken; cbn [ret throw];
    [|eexists _, _; split; [reflexivity|]; by left].
  destruct (strTruthy width || strTruthy height) eqn:Hsizes.
  2: { apply orb_false_elim in Hsizes as [-> ->]. cbn.
       eexists _, _. split; [reflexivity|]. right. left. by repeat split. }
  assert (negb (strTruthy width) && negb (strTruthy height) = false) as ->.
  { by destruct (strTruthy width), (strTruthy height). }
  destruct (rejectedDim (parseDim width) || rejectedDim (parseDim height)) eqn:Hrej.
  { cbn. eexists _, _. split; [reflexivity|]. right. right. left. by repeat split. }
  assert (Hlast : forall resp w' (o : Outcome Response * World),
            o = (Ok resp, w') -> status resp = 200 \/ status resp = 500 ->
            exists resp0 w0, o = (Ok resp0, w0) /\
              ((true = false /\ resp0 = mkResponse 500
                  (BodyError "Internal server error" "VERCEL_ACCESS_TOKEN is required")) \/
               (true = true /\ true = false /\ w0 = w /\ resp0 = mkResponse 400
                  (BodyError "Bad request" "Width or height parameter is required")) \/
               (true = true /\ true = true /\ false = true /\ w0 = w /\
                resp0 = mkResponse 400
                  (BodyError "Bad request" "Width and height must be positive numbers")) \/
               (true = true /\ true = true /\ false = false /\
                (status resp0 = 200 \/ status resp0 = 500)))).
  { intros resp w' o -> Hst. exists resp, w'. split; [done|]. by repeat right. }
  destruct (getBlobsByFolder_cases benv folderName)
    as [(blobs & Hne & Hrun)|(e & Hrun)]; rewrite Hrun.
  2: { eapply Hlast; [reflexivity|]. by right. }
  rewrite (processFolderBlobs_length _ _ Hne).
  destruct (processSingleImageByName env folderName imageName
              (fdFiles (processFolderBlobs benv blobs folderName))
              (parseDim width) (parseDim height) (textIs "true" purgeCache) w)
    as [[x|e] w1].
  2: { eapply Hlast; [reflexivity|]. by right. }
  destruct (isResized x); cbn [negb].
  2: { eapply Hlast; [reflexivity|]. by right. }
  destruct (sendImage_cases folderName imageName (parseDim width) (parseDim height)
              format x w1) as [[b ->]|[e ->]];
    (eapply Hlast; [reflexivity|]); [by left|by right].
Qed.

(** The answers of [getFolderImages] have one of three statuses. *)
Lemma getFolderImages_status (built : bool) (folderName : string)
    (width height purgeCache : option string) (w : World) :
  exists resp w',
    getFolderImages env benv built folderName width height purgeCache w = (Ok resp, w') /\
    (status resp = 200 \/ status resp = 400 \/ status resp = 500).
Proof.
  unfold getFolderImages, tryCatch, bind. rewrite !initializeServices_run.
  destruct (builtAfter benv built); cbn [ret throw];
    [|eexists _, _; split; [reflexivity|]; auto].
  destruct (getBlobsByFolder_cases benv folderName)
    as [(blobs & Hne & Hrun)|(e & Hrun)]; rewrite Hrun.
  2: { eexists _, _. split; [reflexivity|]. auto. }
  rewrite (processFolderBlobs_length _ _ Hne).
  destruct (negb (strTruthy width) && negb (strTruthy height)).
  { eexists _, _. split; [reflexivity|]. auto. }
  destruct (rejectedDim (parseDim width) || rejectedDim (parseDim height)).
  { eexists _, _. split; [reflexivity|]. auto. }
  destruct (processFolderImages env
              (fdFiles (processFolderBlobs benv blobs folderName)) folderName
              (parseDim width) (parseDim height) (textIs "true" purgeCache) None w)
    as [[results|e] w1]; eexists _, _; (split; [reflexivity|]); auto.
Qed.

(** X18.  The image handlers never answer 404.  [getImage] and
    [getFolderImages] always send an answer, and its status is 200, 400 or
    500: the branch that would send 404 for an empty folder is never
    taken, because the blob service raises for such a folder. *)
Theorem image_handlers_never_404 (built : bool) (folderName imageName : string)
    (width height purgeCache format : option string) (w : World) :
  (exists resp w',
     getImage env benv fromBase64 built folderName imageName width height purgeCache
       format w = (Ok resp, w') /\
     (status resp = 200 \/ status resp = 400 \/ status resp = 500)) /\
  (exists resp w',
     getFolderImages env benv built folderName width height purgeCache w
     = (Ok resp, w') /\
     (status resp = 200 \/ status resp = 400 \/ status resp = 500)).
Proof.
  split; [|apply getFolderImages_status].
  destruct (getImage_cases built folderName imageName width height purgeCache
              format w)
    as (resp & w' & Hrun & Hcases).
  exists resp, w'. split; [exact Hrun|].
  destruct Hcases as [(_ & ->)|[(_ & _ & _ & ->)|[(_ & _ & _ & _ & ->)|(_ & _ & _ & [H|H])]]];
    cbn [status]; auto.
Qed.




(** X20.  A name that is not in the folder is answered with 500.  When the
    blob service is built or the access token set, the sizes pass the
    validation and the folder is listed, a request for an
    image name that no file of the listing carries is answered with
    status 500 and [Internal server error], the message naming the image
    and the folder, after one line on the console; nothing is downloaded
    and the cache is left as it was. *)
Theorem getImage_unknown_name (built : bool) (folderName imageName : string)
    (width height purgeCache format : option string) (w : World)
    (folderData : FolderData) :
  builtAfter benv built = true ->
  strTruthy width || strTruthy height = true ->
  rejectedDim (parseDim width) || rejectedDim (parseDim height) = false ->
  getBlobsByFolder benv folderName w = (Ok folderData, w) ->
  findByName imageName (fdFiles folderData) = None ->
  let text := "Image " +:+ Js.quote +:+ imageName +:+ Js.quote
                +:+ " not found in folder " +:+ Js.quote +:+ folderName
                +:+ Js.quote in
  getImage env benv fromBase64 built folderName imageName width height purgeCache
    format w
  = (Ok (mkResponse 500 (BodyError "Internal server error" text)),
     extend [EvConsoleError ("Error processing image: " +:+ text)] w).
Proof.
  intros Htoken Hsizes Hrej Hlist Hfind text.
  unfold getImage, tryCatch, bind. rewrite !initializeServices_run.
  rewrite Htoken. cbn [ret].
  assert (negb (strTruthy width) && negb (strTruthy height) = false) as ->.
  { by destruct (strTruthy width), (strTruthy height). }
  rewrite Hrej, Hlist.
  destruct (getBlobsByFolder_cases benv folderName)
    as [(blobs & Hne & Hrun)|(e & Hrun)]; rewrite Hrun in Hlist; [|done].
  injection Hlist as <-.
  rewrite (processFolderBlobs_length _ _ Hne).
  unfold processSingleImageByName. rewrite Hfind. reflexivity.
Qed.

Lemma rejectedDim_negative (d : Dim) :
  rejectedDim d = true <-> exists n, d = DimNum n /\ n < 0.
Proof.
  unfold rejectedDim, dimTruthy, dimLeZero. split.
  - destruct d as [| | |n]; try done.
    intros [Hnz Hle]%andb_prop. exists n. split; [done|].
    apply negb_true_iff, Z.eqb_neq in Hnz. apply Z.leb_le in Hle. lia.
  - intros (n & -> & Hn). apply andb_true_intro. split.
    + apply negb_true_iff, Z.eqb_neq. lia.
    + apply Z.leb_le. lia.
Qed.

Lemma parseDim_num (p : option string) (n : Z) :
  parseDim p = DimNum n -> strTruthy p = true.
Proof. unfold parseDim. by destruct (strTruthy p). Qed.

(** X21.  The validation of the sizes rejects negative numbers only.  With
    the blob service built or the access token set, [getImage] answers 400 with [Width and height
    must be positive numbers] exactly when the width or the height parses
    to a negative integer: a size of [0] and a size that is no number
    pass the check. *)
Theorem getImage_size_check (built : bool) (folderName imageName : string)
    (width height purgeCache format : option string) (w : World) :
  builtAfter benv built = true ->
  fst (getImage env benv fromBase64 built folderName imageName width height purgeCache
         format w)
  = Ok (mkResponse 400
          (BodyError "Bad request" "Width and height must be positive numbers"))
  <-> (exists n, parseDim width = DimNum n /\ n < 0) \/
      (exists n, parseDim height = DimNum n /\ n < 0).
Proof.
  intros Htoken.
  destruct (getImage_cases built folderName imageName width height purgeCache
              format w)
    as (resp & w' & Hrun & Hcases).
  rewrite Hrun. cbn [fst]. rewrite <- !rejectedDim_negative.
  destruct Hcases
    as [(Hno & _)|[(_ & Hsizes & _ & ->)|[(_ & _ & Hrej & _ & ->)|(_ & _ & Hrej & Hst)]]].
  - congruence.
  - split; [done|]. intros Hneg. exfalso.
    apply orb_false_elim in Hsizes as [Hw Hh].
    unfold parseDim in Hneg. rewrite Hw, Hh in Hneg. by destruct Hneg.
  - split; [|done]. intros _. by apply orb_prop in Hrej.
  - split.
    + intros [= ->]. cbn [status] in Hst. by destruct Hst.
    + intros [H|H]; rewrite H in Hrej; [done|].
      by destruct (rejectedDim (parseDim width)).
Qed.

Lemma served_left_length (folderName : string) (width height : Dim)
    (purgeCache : bool) (w : World) (files : list SourceFile) :
  (length (servedFromCache folderName width height purgeCache w files)
   + length (leftToProcess folderName width height purgeCache w files))%nat
  = length files.
Proof.
  unfold servedFromCache, leftToProcess. destruct purgeCache; [reflexivity|].
  induction files as [|f files IH]; [reflexivity|].
  cbn [omap list_omap List.filter].
  destruct (liveEntry w (generateCacheKey folderName width height (fileUrl f)));
    cbn [fmap option_fmap option_map length]; lia.
Qed.

Lemma producedBy_not_cached (width height : Dim) (backgroundColor : option string)
    (f : SourceFile) (x : ProcessedResult) :
  producedBy env width height backgroundColor f x -> cachedTruthy x = false.
Proof.
  intros [k ->].
  destruct (singleResult_cases env f width height backgroundColor k)
    as [->|[(msg & ->)|(url & d & a & fmt & ->)]]; reflexivity.
Qed.

Lemma filter_all {A} (p : A -> bool) (l : list A) :
  Forall (fun x => p x = true) l -> List.filter p l = l.
Proof.
  induction 1 as [|x l Hx _ IH]; [reflexivity|]. simpl. by rewrite Hx, IH.
Qed.

Lemma filter_none {A} (p : A -> bool) (l : list A) :
  Forall (fun x => p x = false) l -> List.filter p l = [].
Proof.
  induction 1 as [|x l Hx _ IH]; [reflexivity|]. simpl. by rewrite Hx, IH.
Qed.

Lemma filter_length_le {A} (p : A -> bool) (l : list A) :
  (length (List.filter p l) <= length l)%nat.
Proof.
  induction l as [|x l IH]; [reflexivity|]. simpl. destruct (p x); simpl; lia.
Qed.

(** X22.  The counters of a folder answer.  When [getFolderImages] answers
    with processed files, [totalFiles] is the number of files of the
    listing whatever the cache held, [cachedFiles] is the number of files
    that were served from the cache, and [cachedFiles <= resizedFiles <=
    totalFiles]. *)
Theorem getFolderImages_counts (built : bool) (folderName : string)
    (width height purgeCache : option string) (w w' : World) (st : Z)
    (name : string) (results : list ProcessedResult) (params : ResizeParams)
    (totalFiles resizedFiles cachedFiles : nat) :
  getFolderImages env benv built folderName width height purgeCache w
  = (Ok (mkResponse st
           (BodyFolder name results params totalFiles resizedFiles cachedFiles)),
     w') ->
  exists folderData,
    getBlobsByFolder benv folderName w = (Ok folderData, w) /\
    st = 200 /\ name = folderName /\
    totalFiles = length (fdFiles folderData) /\
    cachedFiles
    = length (servedFromCache folderName (parseDim width) (parseDim height)
                (textIs "true" purgeCache) w (fdFiles folderData)) /\
    (cachedFiles <= resizedFiles <= totalFiles)%nat.
Proof.
  unfold getFolderImages, tryCatch, bind. rewrite !initializeServices_run.
  destruct (builtAfter benv built); cbn [ret throw]; [|done].
  destruct (getBlobsByFolder_cases benv folderName)
    as [(blobs & Hne & Hrun)|(e & Hrun)]; rewrite Hrun; [|done].
  rewrite (processFolderBlobs_length _ _ Hne).
  set (files := fdFiles (processFolderBlobs benv blobs folderName)).
  destruct (negb (strTruthy width) && negb (strTruthy height)); [done|].
  destruct (rejectedDim (parseDim width) || rejectedDim (parseDim height)); [done|].
  destruct (processFolderImages_exact env files folderName (parseDim width)
              (parseDim height) (textIs "true" purgeCache) None w)
    as (xs & w1 & _ & _ & Hxs & ->).
  set (served := servedFromCache folderName (parseDim width) (parseDim height)
                   (textIs "true" purgeCache) w files).
  intros [= <- <- <- <- <- <- <- <-].
  exists (processFolderBlobs benv blobs folderName).
  split; [reflexivity|]. split; [reflexivity|]. split; [reflexivity|].
  pose proof (served_left_length folderName (parseDim width) (parseDim height)
                (textIs "true" purgeCache) w files) as Hlen.
  pose proof (Forall2_length _ _ _ Hxs) as Hlen2.
  assert (Hserved : Forall (fun x => cachedTruthy x = true) served).
  { eapply List.Forall_impl;
      [|apply (servedFromCache_cached folderName (parseDim width) (parseDim height)
                 (textIs "true" purgeCache) w files)].
    intros x [Hc _]. unfold cachedTruthy. by rewrite Hc. }
  assert (Hresized : Forall (fun x => isResized x = true) served).
  { eapply List.Forall_impl;
      [|apply (servedFromCache_cached folderName (parseDim width) (parseDim height)
                 (textIs "true" purgeCache) w files)].
    by intros x [_ Hr]. }
  assert (Hfresh : Forall (fun x => cachedTruthy x = false) xs).
  { clear -Hxs. induction Hxs as [|f x fs xs Hx _ IH]; constructor; [|exact IH].
    by eapply producedBy_not_cached. }
  rewrite !length_app, !List.filter_app, !length_app.
  rewrite (filter_all _ _ Hserved), (filter_none _ _ Hfresh), (filter_all _ _ Hresized).
  fold served in Hlen. cbn [length].
  pose proof (filter_length_le isResized xs).
  fold files. fold served. rewrite Nat.add_0_r.
  repeat split; lia.
Qed.



End ControllerFacts.


(** With the blob service built, a request without sizes is answered 400
    although the token is not set. *)
Example getImage_built_without_token :
  fst (getImage Demo.demoEnv Site.noTokenEnv Site.decode true "demo" "a.png" None
         None None None Demo.world0)
  = Ok (mkResponse 400
          (BodyError "Bad request" "Width or height parameter is required")).
Proof. reflexivity. Qed.

Lemma getImage_unknown_name_witness :
  getImage Demo.demoEnv Site.siteEnv Site.decode false "demo" "zz.png" (Some "100")
    None
    None None Demo.world0
  = (Ok (mkResponse 500
           (BodyError "Internal server error"
              ("Image " +:+ Js.quote +:+ "zz.png" +:+ Js.quote
                 +:+ " not found in folder " +:+ Js.quote +:+ "demo" +:+ Js.quote))),
     extend [EvConsoleError
               ("Error processing image: "
                  +:+ ("Image " +:+ Js.quote +:+ "zz.png" +:+ Js.quote
                         +:+ " not found in folder " +:+ Js.quote +:+ "demo"
                         +:+ Js.quote))]
       Demo.world0).
Proof.
  apply (getImage_unknown_name Demo.demoEnv Site.siteEnv Site.decode false "demo"
           "zz.png" (Some "100") None None None Demo.world0 Site.demoFolder);
    reflexivity.
Defined.

Lemma getImage_size_check_witness :
  fst (getImage Demo.demoEnv Site.siteEnv Site.decode false "demo" "a.png"
         (Some "-3")
         None None None Demo.world0)
  = Ok (mkResponse 400
          (BodyError "Bad request" "Width and height must be positive numbers"))
  <-> (exists n, parseDim (Some "-3") = DimNum n /\ n < 0) \/
      (exists n, parseDim None = DimNum n /\ n < 0).
Proof.
  apply (getImage_size_check Demo.demoEnv Site.siteEnv Site.decode false "demo"
           "a.png"
           (Some "-3") None None None Demo.world0).
  reflexivity.
Defined.

(** A size of [0] and a size that is no number reach the service. *)
Example getImage_zero_size :
  fst (getImage Demo.demoEnv Site.siteEnv Site.decode false "demo" "a.png"
         (Some "0")
         (Some "abc") None (Some "json") Demo.world0)
  = Ok (mkResponse 200
          (BodyImageData
             (mkImageInfo "a.png" "demo" (Some "data:image/jpeg;base64,AAAA")
                (Some (mkDimensions 1350 15)) (Some "jpeg") (Some false)
                (mkResizeParams (DimNum 0) DimNaN None)))).
Proof. reflexivity. Qed.

Lemma getFolderImages_counts_witness :
  exists folderData,
    getBlobsByFolder Site.siteEnv "demo" Demo.world0 = (Ok folderData, Demo.world0) /\
    200 = 200 /\ "demo" = "demo" /\
    2%nat = length (fdFiles folderData) /\
    0%nat
    = length (servedFromCache "demo" (parseDim (Some "100")) (parseDim None)
                (textIs "true" None) Demo.world0 (fdFiles folderData)) /\
    (0 <= 2 <= 2)%nat.
Proof.
  eapply (getFolderImages_counts Demo.demoEnv Site.siteEnv false "demo" (Some "100")
            None None Demo.world0 (snd Site.folderRun) 200 "demo" _ _ 2 2 0).
  vm_compute. reflexivity.
Defined.


(** ** The case of the extension *)

Lemma lowerChar_dot (c : ascii) :
  Ascii.eqb (Js.lowerChar c) "." = Ascii.eqb c ".".
Proof. destruct c as [[] [] [] [] [] [] [] []]; reflexivity. Qed.

Lemma lowerChar_idem (c : ascii) : Js.lowerChar (Js.lowerChar c) = Js.lowerChar c.
Proof. destruct c as [[] [] [] [] [] [] [] []]; reflexivity. Qed.

Lemma toLowerCase_idem (s : string) :
  Js.toLowerCase (Js.toLowerCase s) = Js.toLowerCase s.
Proof.
  induction s as [|c s IH]; [reflexivity|]. simpl. by rewrite lowerChar_idem, IH.
Qed.

Lemma toLowerCase_length (s : string) :
  String.length (Js.toLowerCase s) = String.length s.
Proof. induction s as [|c s IH]; [reflexivity|]. simpl. by rewrite IH. Qed.

Lemma lastIndexOfFrom_lower (s : string) (i found : Z) :
  Js.lastIndexOfFrom "." (Js.toLowerCase s) i found
  = Js.lastIndexOfFrom "." s i found.
Proof.
  revert i found. induction s as [|c s IH]; intros i found; [reflexivity|].
  cbn [Js.toLowerCase Js.lastIndexOfFrom]. by rewrite lowerChar_dot, IH.
Qed.

Lemma substring_lower (n m : nat) (s : string) :
  String.substring n m (Js.toLowerCase s) = Js.toLowerCase (String.substring n m s).
Proof.
  revert n m. induction s as [|c s IH]; intros [|n] [|m]; simpl;
    try reflexivity; by rewrite IH.
Qed.

(** X25.  The extension is compared without regard to case.  Changing the
    case of the letters of a URL changes neither whether its format is
    supported nor the output format chosen for it: both depend on the
    lower-cased URL only. *)
Theorem extension_ignores_case (url : string) (hasAlpha : bool) :
  isSupportedFormat (Js.toLowerCase url) = isSupportedFormat url /\
  determineOutputFormat (Js.toLowerCase url) hasAlpha
  = determineOutputFormat url hasAlpha.
Proof.
  unfold determineOutputFormat, originalFormatOf, isSupportedFormat,
    Js.lastIndexOf, Js.substringFrom.
  rewrite lastIndexOfFrom_lower, toLowerCase_length, substring_lower,
    toLowerCase_idem.
  by split.
Qed.

(** * The output format of an opaque png *)

Lemma substring_all (s : string) : String.substring 0 (String.length s) s = s.
Proof. induction s as [|c s IH]; [reflexivity|]. simpl. by rewrite IH. Qed.

Lemma substring_skip (n m : nat) (c : ascii) (s : string) :
  String.substring (S n) (S m) (String c s) = String.substring n (S m) s.
Proof. reflexivity. Qed.

Lemma substring_more (n m : nat) (s : string) :
  (String.length s <= n + m)%nat ->
  String.substring n (S m) s = String.substring n m s.
Proof.
  revert n m. induction s as [|c s IH]; intros n m Hlen.
  - by destruct n, m.
  - destruct n as [|n].
    + destruct m as [|m]; simpl in *; [lia|]. f_equal. apply IH. lia.
    + simpl in Hlen. destruct m as [|m]; simpl.
      * apply (IH n 0%nat). lia.
      * apply (IH n (S m)). lia.
Qed.

Lemma split_hasChar (c : ascii) (s : string) :
  if hasChar c s then exists x y l, Text.split c s = x :: y :: l
  else Text.split c s = [s].
Proof.
  induction s as [|d s IH]; [reflexivity|].
  cbn [hasChar Text.split]. pose proof (split_nonempty c s) as Hne.
  destruct (Ascii.eqb d c).
  - cbn [orb]. destruct (Text.split c s) as [|x l]; [done|]. by eexists _, _, _.
  - cbn [orb]. destruct (hasChar c s).
    + destruct IH as (x & y & l & ->). by eexists _, _, _.
    + by rewrite IH.
Qed.

(** The index that [lastIndexOf] finds and the last segment of [split]. *)
Lemma lastIndexOfFrom_split (c : ascii) (s : string) :
  forall i found,
    0 <= i ->
    let r := Js.lastIndexOfFrom c s i found in
    if hasChar c s then
      i <= r < i + Z.of_nat (String.length s) /\
      String.substring (Z.to_nat (r - i + 1)) (String.length s) s
      = List.last (Text.split c s) ""
    else r = found.
Proof.
  induction s as [|d s IH]; intros i found Hi; [reflexivity|].
  cbn [Js.lastIndexOfFrom hasChar Text.split String.length].
  specialize (IH (i + 1) (if Ascii.eqb d c then i else found) ltac:(lia)).
  cbv zeta in IH |- *.
  set (r := Js.lastIndexOfFrom c s (i + 1) _) in *.
  pose proof (split_hasChar c s) as Hsplit.
  destruct (hasChar c s) eqn:Hs.
  - rewrite orb_true_r. destruct IH as [Hr IH]. split; [lia|].
    replace (Z.to_nat (r - i + 1)) with (S (Z.to_nat (r - (i + 1) + 1))) by lia.
    rewrite substring_skip.
    rewrite substring_more by lia. rewrite IH.
    destruct Hsplit as (x & y & l & ->). by destruct (Ascii.eqb d c).
  - rewrite orb_false_r. rewrite Hsplit. destruct (Ascii.eqb d c) eqn:Hd.
    + subst r. rewrite IH. split; [lia|].
      replace (Z.to_nat (i - i + 1)) with 1%nat by lia.
      rewrite substring_skip, substring_more by lia.
      cbn [List.last]. apply substring_all.
    + exact IH.
Qed.

Lemma lastIndexOf_hasChar (c : ascii) (s : string) :
  (Js.lastIndexOf c s =? -1) = negb (hasChar c s).
Proof.
  unfold Js.lastIndexOf.
  pose proof (lastIndexOfFrom_split c s 0 (-1) ltac:(lia)) as H. cbv zeta in H.
  destruct (hasChar c s).
  - destruct H as [H _]. apply Z.eqb_neq. lia.
  - by rewrite H.
Qed.

(** For a URL with a dot, the handlers and the service read the same
    extension. *)
Lemma handler_extension (url : string) :
  hasChar "." url = true ->
  Js.toLowerCase (List.last (Text.split "." url) "") = originalFormatOf url.
Proof.
  intros Hdot. unfold originalFormatOf.
  rewrite lastIndexOf_hasChar, Hdot. cbn [negb].
  unfold Js.substringFrom, Js.lastIndexOf.
  pose proof (lastIndexOfFrom_split "." url 0 (-1) ltac:(lia)) as H. cbv zeta in H.
  rewrite Hdot in H. destruct H as [_ H]. rewrite Z.sub_0_r in H. by rewrite H.
Qed.

Lemma handlerOutputFormat_rule (url : string) (hasAlpha : bool) :
  hasChar "." url = true ->
  handlerOutputFormat url hasAlpha
  = specOutputFormat pngOrWebp "png" "jpeg" url hasAlpha.
Proof.
  intros Hdot. unfold handlerOutputFormat, specOutputFormat, pngOrWebp.
  rewrite (handler_extension url Hdot).
  destruct (String.eqb_spec (originalFormatOf url) "png") as [->|Hpng];
    [by destruct hasAlpha|].
  destruct (String.eqb_spec (originalFormatOf url) "webp") as [->|Hwebp];
    [by destruct hasAlpha|].
  destruct (String.eqb_spec (originalFormatOf url) "jpg") as [->|Hjpg];
    [by destruct hasAlpha|].
  destruct (String.eqb_spec (originalFormatOf url) "jpeg") as [->|Hjpeg];
    by destruct hasAlpha.
Qed.

(** C6, on the code.  An opaque image whose URL ends in [.png] is
    re-encoded as jpeg, where the rule of the specification, with png and
    webp as the formats that carry alpha, keeps png, as the method of the
    same name in the serverless handlers does.  The method follows the
    rule for every other extension and flag, and the handlers follow it
    for every URL with an extension. *)
Theorem determineOutputFormat_drops_png :
  determineOutputFormat "https://x/a.png" false = "jpeg" /\
  specOutputFormat pngOrWebp "png" "jpeg" "https://x/a.png" false = "png" /\
  handlerOutputFormat "https://x/a.png" false = "png" /\
  (forall url hasAlpha,
     determineOutputFormat url hasAlpha
     = specOutputFormat pngOrWebp "png" "jpeg" url hasAlpha
     <-> ~ (hasAlpha = false /\ originalFormatOf url = "png")) /\
  (forall url hasAlpha,
     hasChar "." url = true ->
     handlerOutputFormat url hasAlpha
     = specOutputFormat pngOrWebp "png" "jpeg" url hasAlpha).
Proof.
  split; [reflexivity|]. split; [reflexivity|]. split; [reflexivity|].
  split; [|apply handlerOutputFormat_rule].
  intros url hasAlpha. unfold determineOutputFormat, specOutputFormat, pngOrWebp.
  destruct (String.eqb_spec (originalFormatOf url) "png") as [->|Hpng].
  - destruct hasAlpha; cbn; split; try done.
    + intros _ [[=] _].
    + intros H. by destruct H.
  - destruct (String.eqb_spec (originalFormatOf url) "webp") as [->|Hwebp];
      destruct hasAlpha; cbn; split; try done; by intros _ [_ ?].
Qed.

(** ** What becomes of an image whose metadata cannot be read *)

Lemma resizeImage_pipeline (env : Env) (imageBuffer : Buffer) (width height : Dim)
    (format : string) (hasAlpha : bool) (backgroundColor : option string) :
  resizeImage env imageBuffer width height format hasAlpha backgroundColor
  = match sharpToBuffer env
            (resizePipeline imageBuffer width height format hasAlpha
               backgroundColor) with
    | Ok resized => Ok resized
    | Throw msg => Throw ("Resize failed: " +:+ msg)
    end.
Proof. reflexivity. Qed.

Lemma resizePipeline_opaque (imageBuffer : Buffer) (width height : Dim)
    (format : string) (backgroundColor : option string) :
  pFlatten (resizePipeline imageBuffer width height format false backgroundColor)
  = None.
Proof.
  unfold resizePipeline. cbv zeta.
  repeat match goal with
         | |- context [if ?b then _ else _] => destruct b
         end; reflexivity.
Qed.

(** C9, amended.  [hasTransparency] always returns a boolean, and returns
    [false] for every buffer on which the metadata extraction fails.  The
    image is then processed as an opaque one: the pipeline that
    [resizeImage] hands to sharp has no flatten step, and
    [processSingleImage] returns the encoded image when sharp can encode
    and read it, and the record [{isResized: false, error}] with the error
    of the resize when sharp cannot encode it. *)
Theorem hasTransparency_never_raises (env : Env) (imageBuffer : Buffer) :
  (exists flag, hasTransparency env imageBuffer = Ok flag) /\
  (forall msg,
     sharpMetadata env imageBuffer = Throw msg ->
     hasTransparency env imageBuffer = Ok false /\
     forall (f : SourceFile) (folderName : string) (width height : Dim)
            (backgroundColor : option string) (w : World),
       isSupportedFormat (fileUrl f) = true ->
       net env (fileUrl f) (downloadsOf (fileUrl f) (log w)) = Ok imageBuffer ->
       let format := determineOutputFormat (fileUrl f) false in
       let pipeline :=
         resizePipeline imageBuffer width height format false backgroundColor in
       pFlatten pipeline = None /\
       (forall e,
          sharpToBuffer env pipeline = Throw e ->
          processSingleImage env f folderName width height backgroundColor w
          = (Ok (failedResult f ("Resize failed: " +:+ e)),
             extend [EvDownload (fileUrl f)] w)) /\
       (forall resizedBuffer metadata,
          sharpToBuffer env pipeline = Ok resizedBuffer ->
          sharpMetadata env resizedBuffer = Ok metadata ->
          processSingleImage env f folderName width height backgroundColor w
          = (Ok (resizedResult f
                   ("data:" +:+ getMimeTypeForFormat format +:+ ";base64,"
                      +:+ base64 env resizedBuffer)
                   (mkDimensions (mWidth metadata) (mHeight metadata)) false format),
             extend [EvDownload (fileUrl f)] w))).
Proof.
  split.
  { unfold hasTransparency. destruct (sharpMetadata env imageBuffer); eauto. }
  intros msg Hmeta.
  assert (Hflag : hasTransparency env imageBuffer = Ok false)
    by (unfold hasTransparency; by rewrite Hmeta).
  split; [exact Hflag|].
  intros f folderName width height backgroundColor w Hsup Hnet format pipeline.
  split; [apply resizePipeline_opaque|].
  assert (Hrun : processSingleImage env f folderName width height backgroundColor w
                 = (Ok (match pipelineOutcome env f width height backgroundColor
                                (downloadsOf (fileUrl f) (log w)) with
                        | Ok x => x
                        | Throw e => failedResult f e
                        end),
                    extend [EvDownload (fileUrl f)] w)).
  { rewrite processSingleImage_run. unfold singleResult, downloadEvents.
    by rewrite Hsup. }
  rewrite Hrun.
  rewrite (pipelineOutcome_unreadable_metadata env f width height backgroundColor
             _ imageBuffer msg Hnet Hmeta).
  rewrite resizeImage_pipeline. fold format. fold pipeline.
  split.
  - intros e ->. reflexivity.
  - intros resizedBuffer metadata -> ->. reflexivity.
Qed.

Lemma hasTransparency_never_raises_witness :
  sharpMetadata Cases.corruptEnv (Demo.bytesOf "not an image")
  = Throw "Input buffer contains unsupported image format" /\
  hasTransparency Cases.corruptEnv (Demo.bytesOf "not an image") = Ok false /\
  processSingleImage Cases.corruptEnv Demo.fileA "demo" (DimNum 100) DimNull None
    Demo.world0
  = (Ok (failedResult Demo.fileA
           ("Resize failed: " +:+ "Input buffer contains unsupported image format")),
     extend [EvDownload (fileUrl Demo.fileA)] Demo.world0).
Proof.
  split; [reflexivity|].
  destruct (proj2 (hasTransparency_never_raises Cases.corruptEnv
                     (Demo.bytesOf "not an image"))
              "Input buffer contains unsupported image format" eq_refl)
    as [Hflag Hrest].
  split; [exact Hflag|].
  destruct (Hrest Demo.fileA "demo" (DimNum 100) DimNull None Demo.world0
              eq_refl eq_refl) as (_ & Hfail & _).
  apply Hfail. reflexivity.
Defined.

(** C9, refuted as stated.  For bytes that sharp cannot read,
    [hasTransparency] returns [false]; the pipeline built for them has no
    flatten step, and the image ends as a failure record, not as a
    flattened image. *)
Lemma corrupt_image_not_flattened :
  hasTransparency Cases.corruptEnv (Demo.bytesOf "not an image") = Ok false /\
  pFlatten (resizePipeline (Demo.bytesOf "not an image") (DimNum 100) DimNull
              (determineOutputFormat "https://x/a.png" false) false None)
  = None /\
  fst (processSingleImage Cases.corruptEnv Demo.fileA "demo" (DimNum 100) DimNull
         None Demo.world0)
  = Ok (mkResult (Some Demo.fileA) None false None None None None
          (Some "Resize failed: Input buffer contains unsupported image format")
          None).
Proof. repeat split; vm_compute; reflexivity. Qed.

(** ** The record of a success *)

(** X1.  The payload of every success.  When [processSingleImage] returns
    a record with [isResized] true, the download, the transparency check,
    the resize and the reading of the new metadata all succeeded, and the
    record is built from them: the output format chosen for the URL and
    the transparency flag, which is jpeg, png or webp and never jpeg for
    an image with transparency; the data URL made of the MIME type of that
    format and the base64 text of the resized buffer; the dimensions that
    sharp reports for the resized buffer. *)
Theorem processSingleImage_payload (env : Env) (f : SourceFile)
    (folderName : string) (width height : Dim) (backgroundColor : option string)
    (w w' : World) (x : ProcessedResult) :
  processSingleImage env f folderName width height backgroundColor w = (Ok x, w') ->
  isResized x = true ->
  exists imageBuffer hasAlpha resizedBuffer metadata format,
    net env (fileUrl f) (downloadsOf (fileUrl f) (log w)) = Ok imageBuffer /\
    hasTransparency env imageBuffer = Ok hasAlpha /\
    format = determineOutputFormat (fileUrl f) hasAlpha /\
    resizeImage env imageBuffer width height format hasAlpha backgroundColor
    = Ok resizedBuffer /\
    sharpMetadata env resizedBuffer = Ok metadata /\
    In format ["jpeg"; "png"; "webp"]%string /\
    (hasAlpha = true -> format <> "jpeg"%string) /\
    x = mkResult (Some f)
          (Some ("data:image/" +:+ format +:+ ";base64," +:+ base64 env resizedBuffer))
          true (Some false)
          (Some (mkDimensions (mWidth metadata) (mHeight metadata)))
          (Some hasAlpha) (Some format) None None.
Proof.
  rewrite processSingleImage_run. intros [= <- _]. unfold singleResult.
  destruct (negb (isSupportedFormat (fileUrl f))); [discriminate|].
  unfold pipelineOutcome.
  destruct (net env (fileUrl f) _) as [imageBuffer|e] eqn:Hnet; [|discriminate].
  destruct (hasTransparency env imageBuffer) as [hasAlpha|e] eqn:Halpha;
    [|discriminate].
  destruct (resizeImage env imageBuffer width height _ hasAlpha backgroundColor)
    as [resizedBuffer|e] eqn:Hresize; [|discriminate].
  destruct (sharpMetadata env resizedBuffer) as [metadata|e] eqn:Hmeta;
    [|discriminate].
  intros _.
  exists imageBuffer, hasAlpha, resizedBuffer, metadata,
    (determineOutputFormat (fileUrl f) hasAlpha).
  do 5 (split; [done|]).
  destruct (determineOutputFormat_cases (fileUrl f) hasAlpha)
    as [E | [[-> E] | [-> E]]]; rewrite E; cbn; repeat split;
    auto; try discriminate.
Qed.

Lemma processSingleImage_payload_witness :
  exists imageBuffer hasAlpha resizedBuffer metadata format,
    net Demo.demoEnv (fileUrl Demo.fileA)
      (downloadsOf (fileUrl Demo.fileA) (log Demo.world0)) = Ok imageBuffer /\
    hasTransparency Demo.demoEnv imageBuffer = Ok hasAlpha /\
    format = determineOutputFormat (fileUrl Demo.fileA) hasAlpha /\
    resizeImage Demo.demoEnv imageBuffer (DimNum 100) DimNull format hasAlpha None
    = Ok resizedBuffer /\
    sharpMetadata Demo.demoEnv resizedBuffer = Ok metadata /\
    In format ["jpeg"; "png"; "webp"]%string /\
    (hasAlpha = true -> format <> "jpeg"%string) /\
    Demo.resultA
    = mkResult (Some Demo.fileA)
        (Some ("data:image/" +:+ format +:+ ";base64,"
                 +:+ base64 Demo.demoEnv resizedBuffer))
        true (Some false)
        (Some (mkDimensions (mWidth metadata) (mHeight metadata)))
        (Some hasAlpha) (Some format) None None.
Proof.
  apply (processSingleImage_payload Demo.demoEnv Demo.fileA "demo" (DimNum 100)
           DimNull None Demo.world0
           (extend [EvDownload (fileUrl Demo.fileA)] Demo.world0) Demo.resultA);
    reflexivity.
Defined.

(** * The clock between a lookup and the read that follows *)

Lemma elapse_zero (w : World) : elapse 0 w = (Ok tt, w).
Proof. unfold elapse. rewrite Z.add_0_r. by destruct w. Qed.

Lemma bind_congr {A B} (m : M A) (k k' : A -> M B) (w : World) :
  (forall a w', k a w' = k' a w') -> bind m k w = bind m k' w.
Proof. intros H. unfold bind. destruct (m w) as [[a|e] w']; auto. Qed.

Lemma firstPassLag_zero (lag : SourceFile -> Z) (folderName : string)
    (width height : Dim) (purgeCache : bool) (files : list SourceFile) :
  (forall f, In f files -> lag f = 0) ->
  forall w,
    firstPassLag lag files folderName width height purgeCache w
    = firstPass files folderName width height purgeCache w.
Proof.
  induction files as [|f files IH]; intros Hlag w; [reflexivity|].
  assert (IH' : forall w', firstPassLag lag files folderName width height purgeCache w'
                           = firstPass files folderName width height purgeCache w').
  { apply IH. intros g Hg. apply Hlag. by right. }
  cbn [firstPassLag firstPass]. apply bind_congr. intros [|] w1.
  - unfold bind at 1. rewrite (Hlag f) by by left. rewrite elapse_zero.
    apply bind_congr. intros cachedData w2. apply bind_congr. intros x w3.
    unfold bind. by rewrite IH'.
  - unfold bind. by rewrite IH'.
Qed.

(** With no time between a lookup and its read, the versions with a lag
    are the methods themselves. *)
Lemma processFolderImagesLag_zero (lag : SourceFile -> Z) (env : Env)
    (files : list SourceFile) (folderName : string) (width height : Dim)
    (purgeCache : bool) (backgroundColor : option string) (w : World) :
  (forall f, In f files -> lag f = 0) ->
  processFolderImagesLag lag env files folderName width height purgeCache
    backgroundColor w
  = processFolderImages env files folderName width height purgeCache
      backgroundColor w.
Proof.
  intros Hlag. unfold processFolderImagesLag, processFolderImages, bind at 1 4.
  by rewrite firstPassLag_zero.
Qed.

Lemma processSingleImageByNameLag_zero (lag : SourceFile -> Z) (env : Env)
    (folderName imageName : string) (files : list SourceFile)
    (width height : Dim) (purgeCache : bool) (w : World) :
  (forall f, In f files -> lag f = 0) ->
  processSingleImageByNameLag lag env folderName imageName files width height
    purgeCache w
  = processSingleImageByName env folderName imageName files width height
      purgeCache w.
Proof.
  intros Hlag. unfold processSingleImageByNameLag, processSingleImageByName.
  destruct (findByName imageName files) as [f|] eqn:Hfind; [|reflexivity].
  apply find_some in Hfind as [Hf _].
  apply bind_congr. intros [|] w1; [|reflexivity].
  unfold bind at 1. by rewrite (Hlag f Hf), elapse_zero.
Qed.











(** X4.  [processSingleImageByName] raises the not-found error exactly
    when no file of the listing has the name: it then raises before any
    lookup or request and leaves the state as it was.  When some file has
    the name, the method returns a record for a file of that name, unless
    the cache entry of that file expires between [cache.has] and
    [cache.get], [lag] milliseconds apart: then it raises the [TypeError]
    of reading [dataUrl] of [undefined]. *)
Theorem processSingleImageByName_not_found (env : Env) (lag : SourceFile -> Z)
    (folderName imageName : string) (files : list SourceFile)
    (width height : Dim) (purgeCache : bool) (w : World) :
  ((forall f, In f files -> fileName f <> imageName) ->
   processSingleImageByNameLag lag env folderName imageName files width height
     purgeCache w
   = (Throw ("Image " +:+ Js.quote +:+ imageName +:+ Js.quote
               +:+ " not found in folder " +:+ Js.quote +:+ folderName
               +:+ Js.quote), w)) /\
  (forall f, In f files -> fileName f = imageName ->
     exists f',
       In f' files /\ fileName f' = imageName /\
       ((exists x w',
           processSingleImageByNameLag lag env folderName imageName files width
             height purgeCache w = (Ok x, w') /\
           file x = Some f') \/
        (exists w' e t,
           processSingleImageByNameLag lag env folderName imageName files width
             height purgeCache w
           = (Throw "Cannot read properties of undefined (reading 'dataUrl')", w') /\
           purgeCache = false /\
           cache w !! generateCacheKey folderName width height (fileUrl f')
           = Some (e, t) /\
           now w <= t < now w + lag f'))).
Proof.
  split.
  - intros Hnone. unfold processSingleImageByNameLag.
    destruct (findByName imageName files) as [f|] eqn:Hfind; [|reflexivity].
    apply find_some in Hfind as [Hf Hname]. apply String.eqb_eq in Hname.
    by destruct (Hnone f Hf).
  - intros f Hf Hname.
    destruct (findByName imageName files) as [f'|] eqn:Hfind.
    2: { eapply find_none in Hfind; [|exact Hf].
         apply String.eqb_neq in Hfind. by destruct Hfind. }
    pose proof Hfind as Hfind'.
    apply find_some in Hfind' as [Hf' Hname']. apply String.eqb_eq in Hname'.
    exists f'. split; [exact Hf'|]. split; [exact Hname'|].
    remember (processSingleImageByNameLag lag env folderName imageName files
                width height purgeCache w) as run eqn:Hrun.
    unfold processSingleImageByNameLag in Hrun. rewrite Hfind in Hrun.
    unfold bind at 1 in Hrun.
    destruct (cacheUsable_run purgeCache
                (generateCacheKey folderName width height (fileUrl f')) w)
      as (hit & w1 & Hcu & _ & Hhit & _).
    rewrite Hcu in Hrun. clear Hcu.
    destruct hit.
    + destruct (Hhit eq_refl) as (-> & -> & e & t & Hc & Ht).
      unfold bind at 1, elapse in Hrun. unfold bind at 1 in Hrun.
      unfold NodeCache.get, NodeCache.expired in Hrun. cbn [cache now] in Hrun.
      rewrite Hc in Hrun.
      destruct (Z.ltb_spec t (now w + lag f')) as [Hexp|Hlive].
      * right. eexists _, e, t. split; [exact Hrun|]. repeat split; auto.
      * left. eexists _, _. split; [exact Hrun|reflexivity].
    + left. unfold bind at 1 in Hrun. rewrite processSingleImage_run in Hrun.
      unfold bind at 1 in Hrun.
      set (x := singleResult env f' width height None _) in Hrun.
      assert (Hx : file x = Some f') by apply singleResult_file.
      destruct (isResized x && urlTruthy (resizedUrl x));
        eexists _, _; (split; [exact Hrun|exact Hx]).
Qed.

Lemma processSingleImageByName_not_found_witness :
  processSingleImageByNameLag (fun _ => 1) Demo.demoEnv "demo" "zzz.png"
    [Demo.fileA; Demo.fileB] (DimNum 100) DimNull false Cases.worldExpiring
  = (Throw ("Image " +:+ Js.quote +:+ "zzz.png" +:+ Js.quote
              +:+ " not found in folder " +:+ Js.quote +:+ "demo" +:+ Js.quote),
     Cases.worldExpiring) /\
  exists f',
    In f' [Demo.fileA; Demo.fileB] /\ fileName f' = "a.png"%string /\
    ((exists x w',
        processSingleImageByNameLag (fun _ => 1) Demo.demoEnv "demo" "a.png"
          [Demo.fileA; Demo.fileB] (DimNum 100) DimNull false Cases.worldExpiring
        = (Ok x, w') /\
        file x = Some f') \/
     (exists w' e t,
        processSingleImageByNameLag (fun _ => 1) Demo.demoEnv "demo" "a.png"
          [Demo.fileA; Demo.fileB] (DimNum 100) DimNull false Cases.worldExpiring
        = (Throw "Cannot read properties of undefined (reading 'dataUrl')", w') /\
        false = false /\
        cache Cases.worldExpiring
          !! generateCacheKey "demo" (DimNum 100) DimNull (fileUrl f')
        = Some (e, t) /\
        now Cases.worldExpiring <= t < now Cases.worldExpiring + 1)).
Proof.
  split.
  - apply (proj1 (processSingleImageByName_not_found Demo.demoEnv (fun _ => 1)
                    "demo" "zzz.png" [Demo.fileA; Demo.fileB] (DimNum 100) DimNull
                    false Cases.worldExpiring)).
    intros f [<-|[<-|[]]]; discriminate.
  - apply (proj2 (processSingleImageByName_not_found Demo.demoEnv (fun _ => 1)
                    "demo" "a.png" [Demo.fileA; Demo.fileB] (DimNum 100) DimNull
                    false Cases.worldExpiring) Demo.fileA).
    + left. reflexivity.
    + reflexivity.
Defined.

(** The two ways in which a request for [a.png] ends when its entry
    expires at the millisecond of the lookup: read in the same
    millisecond, the entry is served; read one millisecond later, it is
    gone and the method raises. *)
Example processSingleImageByName_expiring :
  fst (processSingleImageByName Demo.demoEnv "demo" "a.png" [Demo.fileA; Demo.fileB]
         (DimNum 100) DimNull false Cases.worldExpiring)
  = Ok (cachedResult Demo.fileA Demo.entry0) /\
  fst (processSingleImageByNameLag (fun _ => 1) Demo.demoEnv "demo" "a.png"
         [Demo.fileA; Demo.fileB] (DimNum 100) DimNull false Cases.worldExpiring)
  = Throw "Cannot read properties of undefined (reading 'dataUrl')".
Proof. split; vm_compute; reflexivity. Qed.
